(** * gh-repolint: configuration merge, API client, reference resolution,
      ruleset comparison and fix orchestration

    A shallow embedding of the Go sources of [sethrylan/gh-repolint]:

    - package [config]  (merger.go, types)           -> [Module Config]
    - package [github]  (client, files, types)       -> [Module Github]
    - package [checks]  (Issue, ruleset comparison)  -> [Module Checks]
    - package [fix]     (fixers, orchestrator)       -> [Module Fix]

    Conventions of the embedding.
    - A Go pointer [*T] is [option T]; [None] is [nil].
    - A Go slice whose nil-ness the code observes is [option (list T)]:
      [None] is the nil slice, [Some []] the empty non-nil slice.
    - [[]byte] and [string] are both [string].
    - [int] and [time.Duration] are [Z] (durations in nanoseconds).
    - A Go function returning [(T, error)] returns [error + T].
    - A nil-pointer dereference is the outcome [Panicked]. *)

From Stdlib Require Import ZArith Lia Ascii String.
From stdpp Require Import base option list strings gmap pretty.


(* ===================================================================== *)
(** * Package config                                                      *)
(* ===================================================================== *)

Module Config.

(** [type RulesetConfig struct { Name, Reference string }] *)
Module RulesetConfig.
Record t := mk { Name : string; Reference : string }.
End RulesetConfig.

(** [type FileConfig struct { Name, Reference string }] *)
Module FileConfig.
Record t := mk { Name : string; Reference : string }.
End FileConfig.

(** [type WorkflowConfig struct { Path, Reference string }] *)
Module WorkflowConfig.
Record t := mk { Path : string; Reference : string }.
End WorkflowConfig.

Record MergeConfig := {
  AllowMergeCommit : option bool;
  AllowSquashMerge : option bool;
  AllowRebaseMerge : option bool;
  AllowAutoMerge : option bool;
  DeleteBranchOnMerge : option bool;
  AlwaysSuggestUpdatingPullRequestBranches : option bool;
}.

Record DependabotSettingsConfig := {
  Alerts : option bool;
  SecurityUpdates : option bool;
}.

Record SettingsConfig := {
  Issues : option bool;
  Wiki : option bool;
  Projects : option bool;
  Discussions : option bool;
  AllowActionsToApprovePRs : option bool;
  PullRequestCreationPolicy : string;
  Merge : option MergeConfig;
  DefaultBranch : string;
  Dependabot : option DependabotSettingsConfig;
}.

Record ActionsConfig := {
  RequirePinnedVersions : option bool;
  RequiredWorkflows : option (list WorkflowConfig.t);
  RequireTimeout : option bool;
  MaxTimeoutMinutes : option Z;
  RequireMinimalPermissions : option bool;
}.

Record ChecksConfig := {
  Settings : option SettingsConfig;
  Actions : option ActionsConfig;
  Rulesets : option (list RulesetConfig.t);
  Files : option (list FileConfig.t);
}.

Record Config := { Checks : ChecksConfig }.

(** ** merger.go: helper functions for merging values *)

Definition mergeBoolPtr (owner repo : option bool) : option bool :=
  match repo with
  | Some _ => repo
  | None => owner
  end.

Definition mergeIntPtr (owner repo : option Z) : option Z :=
  match repo with
  | Some _ => repo
  | None => owner
  end.

Definition mergeString (owner repo : string) : string :=
  if bool_decide (repo ≠ "") then repo else owner.

(** ** merger.go: arrays, repo replaces entirely *)

Definition mergeRulesets (owner repo : option (list RulesetConfig.t))
  : option (list RulesetConfig.t) :=
  match repo with
  | Some _ => repo
  | None => owner
  end.

Definition mergeFiles (owner repo : option (list FileConfig.t))
  : option (list FileConfig.t) :=
  match repo with
  | Some _ => repo
  | None => owner
  end.

(** ** merger.go: nested objects *)

Definition mergeDependabotSettingsConfig (owner repo : option DependabotSettingsConfig)
  : option DependabotSettingsConfig :=
  match owner, repo with
  | None, None => None
  | None, _ => repo
  | _, None => owner
  | Some o, Some r =>
      Some {| Alerts := mergeBoolPtr (Alerts o) (Alerts r);
              SecurityUpdates := mergeBoolPtr (SecurityUpdates o) (SecurityUpdates r) |}
  end.

Definition mergeMergeConfig (owner repo : option MergeConfig) : option MergeConfig :=
  match owner, repo with
  | None, None => None
  | None, _ => repo
  | _, None => owner
  | Some o, Some r =>
      Some {| AllowMergeCommit := mergeBoolPtr (AllowMergeCommit o) (AllowMergeCommit r);
              AllowSquashMerge := mergeBoolPtr (AllowSquashMerge o) (AllowSquashMerge r);
              AllowRebaseMerge := mergeBoolPtr (AllowRebaseMerge o) (AllowRebaseMerge r);
              AllowAutoMerge := mergeBoolPtr (AllowAutoMerge o) (AllowAutoMerge r);
              DeleteBranchOnMerge :=
                mergeBoolPtr (DeleteBranchOnMerge o) (DeleteBranchOnMerge r);
              AlwaysSuggestUpdatingPullRequestBranches :=
                mergeBoolPtr (AlwaysSuggestUpdatingPullRequestBranches o)
                             (AlwaysSuggestUpdatingPullRequestBranches r) |}
  end.

(** The composite literal of [mergeSettingsConfig] names eight of the nine
    fields of [SettingsConfig]; [PullRequestCreationPolicy] is not named and
    so keeps Go's zero value, the empty string. *)
Definition mergeSettingsConfig (owner repo : option SettingsConfig) : option SettingsConfig :=
  match owner, repo with
  | None, None => None
  | None, _ => repo
  | _, None => owner
  | Some o, Some r =>
      Some {| Issues := mergeBoolPtr (Issues o) (Issues r);
              Wiki := mergeBoolPtr (Wiki o) (Wiki r);
              Projects := mergeBoolPtr (Projects o) (Projects r);
              Discussions := mergeBoolPtr (Discussions o) (Discussions r);
              AllowActionsToApprovePRs :=
                mergeBoolPtr (AllowActionsToApprovePRs o) (AllowActionsToApprovePRs r);
              PullRequestCreationPolicy := "";
              DefaultBranch := mergeString (DefaultBranch o) (DefaultBranch r);
              Merge := mergeMergeConfig (Merge o) (Merge r);
              Dependabot := mergeDependabotSettingsConfig (Dependabot o) (Dependabot r) |}
  end.

Definition mergeActionsConfig (owner repo : option ActionsConfig) : option ActionsConfig :=
  match owner, repo with
  | None, None => None
  | None, _ => repo
  | _, None => owner
  | Some o, Some r =>
      Some {| RequirePinnedVersions :=
                mergeBoolPtr (RequirePinnedVersions o) (RequirePinnedVersions r);
              RequireTimeout := mergeBoolPtr (RequireTimeout o) (RequireTimeout r);
              MaxTimeoutMinutes := mergeIntPtr (MaxTimeoutMinutes o) (MaxTimeoutMinutes r);
              RequireMinimalPermissions :=
                mergeBoolPtr (RequireMinimalPermissions o) (RequireMinimalPermissions r);
              RequiredWorkflows :=
                match RequiredWorkflows r with
                | Some _ => RequiredWorkflows r
                | None => RequiredWorkflows o
                end |}
  end.

Definition MergeConfigs (owner repo : option Config) : option Config :=
  match owner, repo with
  | None, None => None
  | None, _ => repo
  | _, None => owner
  | Some o, Some r =>
      Some {| Checks :=
        {| Settings := mergeSettingsConfig (Settings (Checks o)) (Settings (Checks r));
           Actions := mergeActionsConfig (Actions (Checks o)) (Actions (Checks r));
           Rulesets := mergeRulesets (Rulesets (Checks o)) (Rulesets (Checks r));
           Files := mergeFiles (Files (Checks o)) (Files (Checks r)) |} |}
  end.

(** ** Reading one field out of a (possibly absent) policy document

    A field of a document that is absent, or whose enclosing object is
    absent, reads as unset: [None] for pointers and slices, [""] for
    strings. *)

Definition settingsOf (c : option Config) : option SettingsConfig :=
  c ≫= (λ c, Settings (Checks c)).
Definition actionsOf (c : option Config) : option ActionsConfig :=
  c ≫= (λ c, Actions (Checks c)).
Definition mergeOf (c : option Config) : option MergeConfig :=
  settingsOf c ≫= Merge.
Definition dependabotOf (c : option Config) : option DependabotSettingsConfig :=
  settingsOf c ≫= Dependabot.

(** The boolean-pointer leaves of a policy document. *)
Inductive BoolField :=
| FIssues | FWiki | FProjects | FDiscussions | FAllowActionsToApprovePRs
| FAllowMergeCommit | FAllowSquashMerge | FAllowRebaseMerge | FAllowAutoMerge
| FDeleteBranchOnMerge | FAlwaysSuggestUpdatingPullRequestBranches
| FAlerts | FSecurityUpdates
| FRequirePinnedVersions | FRequireTimeout | FRequireMinimalPermissions.

Definition getBool (f : BoolField) (c : option Config) : option bool :=
  match f with
  | FIssues => settingsOf c ≫= Issues
  | FWiki => settingsOf c ≫= Wiki
  | FProjects => settingsOf c ≫= Projects
  | FDiscussions => settingsOf c ≫= Discussions
  | FAllowActionsToApprovePRs => settingsOf c ≫= AllowActionsToApprovePRs
  | FAllowMergeCommit => mergeOf c ≫= AllowMergeCommit
  | FAllowSquashMerge => mergeOf c ≫= AllowSquashMerge
  | FAllowRebaseMerge => mergeOf c ≫= AllowRebaseMerge
  | FAllowAutoMerge => mergeOf c ≫= AllowAutoMerge
  | FDeleteBranchOnMerge => mergeOf c ≫= DeleteBranchOnMerge
  | FAlwaysSuggestUpdatingPullRequestBranches =>
      mergeOf c ≫= AlwaysSuggestUpdatingPullRequestBranches
  | FAlerts => dependabotOf c ≫= Alerts
  | FSecurityUpdates => dependabotOf c ≫= SecurityUpdates
  | FRequirePinnedVersions => actionsOf c ≫= RequirePinnedVersions
  | FRequireTimeout => actionsOf c ≫= RequireTimeout
  | FRequireMinimalPermissions => actionsOf c ≫= RequireMinimalPermissions
  end.

(** The only int-pointer leaf. *)
Definition getMaxTimeoutMinutes (c : option Config) : option Z :=
  actionsOf c ≫= MaxTimeoutMinutes.

(** The string leaves. *)
Inductive StringField := FDefaultBranch | FPullRequestCreationPolicy.

Definition getString (f : StringField) (c : option Config) : string :=
  match settingsOf c with
  | None => ""
  | Some s =>
      match f with
      | FDefaultBranch => DefaultBranch s
      | FPullRequestCreationPolicy => PullRequestCreationPolicy s
      end
  end.

(** The array-valued fields. *)
Definition getRulesets (c : option Config) : option (list RulesetConfig.t) :=
  c ≫= (λ c, Rulesets (Checks c)).
Definition getFiles (c : option Config) : option (list FileConfig.t) :=
  c ≫= (λ c, Files (Checks c)).
Definition getRequiredWorkflows (c : option Config) : option (list WorkflowConfig.t) :=
  actionsOf c ≫= RequiredWorkflows.

(** "Repo wins when set": the precedence rule on one optional value. *)
Definition repoWins {A} (owner repo : option A) : option A :=
  match repo with
  | Some v => Some v
  | None => owner
  end.

(** ** Builders for concrete documents *)

Definition emptySettings : SettingsConfig :=
  {| Issues := None; Wiki := None; Projects := None; Discussions := None;
     AllowActionsToApprovePRs := None; PullRequestCreationPolicy := "";
     Merge := None; DefaultBranch := ""; Dependabot := None |}.

Definition emptyMerge : MergeConfig :=
  {| AllowMergeCommit := None; AllowSquashMerge := None; AllowRebaseMerge := None;
     AllowAutoMerge := None; DeleteBranchOnMerge := None;
     AlwaysSuggestUpdatingPullRequestBranches := None |}.

Definition withSettings (s : SettingsConfig) : Config :=
  {| Checks := {| Settings := Some s; Actions := None; Rulesets := None; Files := None |} |}.

Definition setIssues (v : bool) (s : SettingsConfig) : SettingsConfig :=
  {| Issues := Some v; Wiki := Wiki s; Projects := Projects s;
     Discussions := Discussions s;
     AllowActionsToApprovePRs := AllowActionsToApprovePRs s;
     PullRequestCreationPolicy := PullRequestCreationPolicy s;
     Merge := Merge s; DefaultBranch := DefaultBranch s; Dependabot := Dependabot s |}.

Definition setWiki (v : bool) (s : SettingsConfig) : SettingsConfig :=
  {| Issues := Issues s; Wiki := Some v; Projects := Projects s;
     Discussions := Discussions s;
     AllowActionsToApprovePRs := AllowActionsToApprovePRs s;
     PullRequestCreationPolicy := PullRequestCreationPolicy s;
     Merge := Merge s; DefaultBranch := DefaultBranch s; Dependabot := Dependabot s |}.

Definition setPullRequestCreationPolicy (v : string) (s : SettingsConfig) : SettingsConfig :=
  {| Issues := Issues s; Wiki := Wiki s; Projects := Projects s;
     Discussions := Discussions s;
     AllowActionsToApprovePRs := AllowActionsToApprovePRs s;
     PullRequestCreationPolicy := v;
     Merge := Merge s; DefaultBranch := DefaultBranch s; Dependabot := Dependabot s |}.

(** ** Properties of the merge *)

Lemma mergeBoolPtr_repoWins owner repo : mergeBoolPtr owner repo = repoWins owner repo.
Proof. by destruct repo. Qed.

Lemma mergeIntPtr_repoWins owner repo : mergeIntPtr owner repo = repoWins owner repo.
Proof. by destruct repo. Qed.

Lemma mergeString_set owner repo : repo ≠ "" → mergeString owner repo = repo.
Proof. intros Hne. unfold mergeString. by rewrite bool_decide_eq_true_2. Qed.

Lemma mergeString_unset owner : mergeString owner "" = owner.
Proof. done. Qed.

(** Every boolean-pointer leaf of the merged document follows the
    precedence rule, whatever the nesting and whichever sides are absent. *)
Local Ltac destruct_sides :=
  repeat match goal with
         | x : option SettingsConfig |- _ => destruct x as [[]|]
         | x : option ActionsConfig |- _ => destruct x as [[]|]
         | x : option MergeConfig |- _ => destruct x as [[]|]
         | x : option DependabotSettingsConfig |- _ => destruct x as [[]|]
         end.

Local Ltac merge_crush :=
  cbn; unfold mergeBoolPtr, mergeIntPtr, repoWins; cbn;
  repeat case_match; simplify_eq/=; done.

Lemma merged_bool_field (f : BoolField) (owner repo : option Config) :
  getBool f (MergeConfigs owner repo) = repoWins (getBool f owner) (getBool f repo).
Proof.
  destruct owner as [[[os oa orl ofl]]|], repo as [[[rs ra rrl rfl]]|];
    destruct f; destruct_sides; merge_crush.
Qed.

Lemma merged_int_field (owner repo : option Config) :
  getMaxTimeoutMinutes (MergeConfigs owner repo)
  = repoWins (getMaxTimeoutMinutes owner) (getMaxTimeoutMinutes repo).
Proof.
  destruct owner as [[[os oa orl ofl]]|], repo as [[[rs ra rrl rfl]]|];
    destruct_sides; merge_crush.
Qed.

(** [default_branch] follows the rule for strings: the repo side wins
    when it is not the empty string. *)
Lemma merged_default_branch (owner repo : option Config) :
  getString FDefaultBranch (MergeConfigs owner repo)
  = mergeString (getString FDefaultBranch owner) (getString FDefaultBranch repo).
Proof.
  destruct owner as [[[os oa orl ofl]]|], repo as [[[rs ra rrl rfl]]|];
    destruct_sides; cbn; unfold mergeString; by repeat case_bool_decide.
Qed.

(** End-to-end scenario A of the specification. *)
Example scenario_A :
  let repo := Some (withSettings (setIssues false emptySettings)) in
  let org := Some (withSettings (setWiki false (setIssues true emptySettings))) in
  MergeConfigs org repo
  = Some (withSettings (setWiki false (setIssues false emptySettings))).
Proof. reflexivity. Qed.

(** C1: the claim says that every optional scalar field of the merged
    configuration equals the repo-side value when that one is set.  For the
    string field [pull_request_creation_policy] the code does otherwise:
    when both documents carry a settings object, the merged settings are
    built without that field, so a value set on the repo side (and, just as
    well, one set on the org side) is lost and the merged field is empty. *)
Theorem C1_pull_request_creation_policy_dropped :
  let repo := Some (withSettings (setPullRequestCreationPolicy "collaborators" emptySettings)) in
  let org := Some (withSettings (setIssues true emptySettings)) in
  getString FPullRequestCreationPolicy repo = "collaborators"
  ∧ getString FPullRequestCreationPolicy (MergeConfigs org repo) = ""
  ∧ getString FPullRequestCreationPolicy (MergeConfigs repo org) = ""
  ∧ getBool FIssues (MergeConfigs org repo) = Some true.
Proof. done. Qed.

(** C2: every array-valued field (rulesets, files, required workflows) of
    the merged configuration is the repo-side array whenever that one is
    non-nil, however long either array is, and the org-side array
    otherwise: the merged array is always one of the two inputs as a whole,
    never a concatenation or an element-wise merge. *)
Theorem C2_arrays_replaced_wholesale (owner repo : option Config) :
  getRulesets (MergeConfigs owner repo) = repoWins (getRulesets owner) (getRulesets repo)
  ∧ getFiles (MergeConfigs owner repo) = repoWins (getFiles owner) (getFiles repo)
  ∧ getRequiredWorkflows (MergeConfigs owner repo)
    = repoWins (getRequiredWorkflows owner) (getRequiredWorkflows repo).
Proof.
  destruct owner as [[[os oa orl ofl]]|], repo as [[[rs ra rrl rfl]]|];
    destruct_sides; unfold mergeRulesets, mergeFiles;
    split_and!; unfold mergeRulesets, mergeFiles; merge_crush.
Qed.

End Config.

(* ===================================================================== *)
(** * Go's run time: a call returns or panics                            *)
(* ===================================================================== *)

Module GoRuntime.

Inductive outcome (A : Type) :=
| Returned (a : A)
| Panicked (msg : string).
Arguments Returned {A} a.
Arguments Panicked {A} msg.

(** The panic of dereferencing a nil pointer. *)
Definition nilDereference : string :=
  "runtime error: invalid memory address or nil pointer dereference".

End GoRuntime.

(* ===================================================================== *)
(** * Go's [strings] package, as far as the sources call it               *)
(* ===================================================================== *)

Module GoStrings.

(** [strings.Contains(s, substr)] *)
Fixpoint Contains (s substr : string) : bool :=
  String.prefix substr s
  || match s with
     | EmptyString => false
     | String _ s' => Contains s' substr
     end.

(** [strings.Cut(s, sep)]: the text before and after the first occurrence
    of [sep], if there is one. *)
Fixpoint Cut (s sep : string) : option (string * string) :=
  if String.prefix sep s
  then Some (EmptyString, String.substring (String.length sep)
                            (String.length s - String.length sep) s)
  else match s with
       | EmptyString => None
       | String a s' =>
           match Cut s' sep with
           | Some (before, after) => Some (String a before, after)
           | None => None
           end
       end.

(** The loop of [strings.genSplit]: at most [k] cuts, the rest of the
    string is the last element. *)
Fixpoint splitLoop (k : nat) (s sep : string) : list string :=
  match k with
  | O => [s]
  | S k' =>
      match Cut s sep with
      | None => [s]
      | Some (before, after) => before :: splitLoop k' after sep
      end
  end.

(** [strings.SplitN(s, sep, n)] for a non-empty [sep] and [n > 0], which
    is how the sources call it ([SplitN(reference, "/", 3)]). *)
Definition SplitN (s sep : string) (n : nat) : list string :=
  splitLoop (Nat.min n (String.length s + 1) - 1) s sep.

(** [strings.Count(s, sep)] for a one-byte [sep]. *)
Fixpoint CountByte (s : string) (sep : ascii) : nat :=
  match s with
  | EmptyString => 0
  | String a s' => (if bool_decide (a = sep) then 1 else 0) + CountByte s' sep
  end.

(** [strings.ReplaceAll(s, old, new)] for a non-empty [old]: scan from
    the left, replace each non-overlapping occurrence.  [skip] counts the
    bytes of a matched occurrence still to be dropped. *)
Fixpoint replaceFrom (skip : nat) (s old new : string) : string :=
  match s with
  | EmptyString => EmptyString
  | String a s' =>
      match skip with
      | S k => replaceFrom k s' old new
      | O =>
          if String.prefix old s
          then new +:+ replaceFrom (String.length old - 1) s' old new
          else String a (replaceFrom 0 s' old new)
      end
  end.

Definition ReplaceAll (s old new : string) : string := replaceFrom 0 s old new.

Example SplitN_three : SplitN "acme/acme/.repolint/dependabot.yml" "/" 3
                       = ["acme"; "acme"; ".repolint/dependabot.yml"].
Proof. reflexivity. Qed.

Example SplitN_two : SplitN "docs/ruleset.json" "/" 3 = ["docs"; "ruleset.json"].
Proof. reflexivity. Qed.

Example ReplaceAll_owner :
  ReplaceAll "uses: {{.owner}}/x@{{.owner}}" "{{.owner}}" "acme" = "uses: acme/x@acme".
Proof. reflexivity. Qed.

Example Contains_403 : Contains "HTTP 403: Forbidden" "403" = true.
Proof. reflexivity. Qed.

(** *** [SplitN] on ["/"] and the number of separators *)

Lemma substring_all s : String.substring 0 (String.length s) s = s.
Proof. induction s as [|a s IH]; cbn; [done | by rewrite IH]. Qed.

Lemma substring_tail a s :
  String.substring 1 (String.length (String a s) - 1) (String a s) = s.
Proof. cbn. rewrite Nat.sub_0_r. apply substring_all. Qed.

Lemma Cut_slash s before after :
  Cut s "/" = Some (before, after) →
  CountByte s "/" = S (CountByte after "/") ∧ String.length after < String.length s.
Proof.
  revert before. induction s as [|a s IH]; intros before; [done|].
  cbn [Cut String.prefix].
  destruct (ascii_dec "/" a) as [<-|Hne].
  - change (String.length "/") with 1. rewrite substring_tail.
    replace (String.prefix "" s) with true by (by destruct s).
    intros [= <- <-]. cbn. rewrite bool_decide_eq_true_2 by done. split; lia.
  - destruct (Cut s "/") as [[b' a']|] eqn:Hcut; [|done].
    intros [= <- <-]. destruct (IH _ eq_refl) as [Hc Hl].
    cbn. rewrite bool_decide_eq_false_2 by congruence. split; lia.
Qed.

Lemma Cut_slash_None s : Cut s "/" = None → CountByte s "/" = 0.
Proof.
  induction s as [|a s IH]; [done|].
  cbn [Cut String.prefix].
  destruct (ascii_dec "/" a) as [<-|Hne].
  - replace (String.prefix "" s) with true by (by destruct s). done.
  - destruct (Cut s "/") as [[b' a']|] eqn:Hcut; [done|].
    intros _. cbn. rewrite bool_decide_eq_false_2 by congruence. by rewrite IH.
Qed.

Lemma splitLoop_slash_length k : ∀ s,
  length (splitLoop k s "/") = S (Nat.min k (CountByte s "/")).
Proof.
  induction k as [|k IH]; intros s; [done|].
  cbn [splitLoop]. destruct (Cut s "/") as [[before after]|] eqn:Hcut.
  - apply Cut_slash in Hcut as [-> _]. cbn [length]. rewrite IH. lia.
  - apply Cut_slash_None in Hcut as ->. cbn. lia.
Qed.

Lemma CountByte_le_length s a : CountByte s a ≤ String.length s.
Proof. induction s as [|b s IH]; cbn; [done | case_bool_decide; lia]. Qed.

(** [SplitN(s, "/", 3)] has one part more than [s] has separators, up to
    three parts. *)
Lemma SplitN_slash_3_length s :
  length (SplitN s "/" 3) = S (Nat.min 2 (CountByte s "/")).
Proof.
  unfold SplitN. rewrite splitLoop_slash_length.
  pose proof (CountByte_le_length s "/"). lia.
Qed.


End GoStrings.

(* ===================================================================== *)
(** * Package github                                                      *)
(* ===================================================================== *)

Module Github.
Import GoRuntime.

(** ** Errors

    Go's [error] values, by the constructors the sources and their
    collaborators use.  An error of the transport is opaque except for its
    message, so it is an [errors_New]. *)

Inductive errno := ENOENT | EACCES | EIO.

Inductive error :=
| errors_New (msg : string)                 (* errors.New, fmt.Errorf without %w *)
| fmt_Errorf_w (prefix : string) (e : error) (* fmt.Errorf(prefix + ": %w", e) *)
| PathError (op path : string) (no : errno)  (* *fs.PathError of package os *)
| HTTPError (StatusCode : Z) (Message : string).

Definition errno_Error (no : errno) : string :=
  match no with
  | ENOENT => "no such file or directory"
  | EACCES => "permission denied"
  | EIO => "input/output error"
  end.

(** [err.Error()] *)
Fixpoint Error (e : error) : string :=
  match e with
  | errors_New msg => msg
  | fmt_Errorf_w prefix e' => prefix +:+ ": " +:+ Error e'
  | PathError op path no => op +:+ " " +:+ path +:+ ": " +:+ errno_Error no
  | HTTPError code msg => "HTTP " +:+ pretty code +:+ ": " +:+ msg
  end.

(** [errors.As(err, &httpErr)] for [httpErr : *HTTPError] *)
Fixpoint as_HTTPError (e : error) : option (Z * string) :=
  match e with
  | HTTPError code msg => Some (code, msg)
  | fmt_Errorf_w _ e' => as_HTTPError e'
  | _ => None
  end.

(** [os.IsNotExist(err)]: looks through a [PathError], not through [%w]. *)
Definition os_IsNotExist (e : error) : bool :=
  match e with
  | PathError _ _ ENOENT => true
  | _ => false
  end.

Definition isRateLimitError (err : option error) : bool :=
  match err with
  | None => false
  | Some e =>
      let errStr := Error e in
      GoStrings.Contains errStr "rate limit"
      || GoStrings.Contains errStr "403"
      || GoStrings.Contains errStr "secondary rate limit"
  end.

Definition IsNotFound (err : option error) : bool :=
  match err with
  | None => false
  | Some e =>
      match as_HTTPError e with
      | Some (code, _) => bool_decide (code = 404%Z)
      | None => GoStrings.Contains (Error e) "404"
                || GoStrings.Contains (Error e) "Not Found"
      end
  end.

(** ** types.go *)

Module Repository.
Record t := mk {
  Name : string;
  FullName : string;
  DefaultBranch : string;
  Archived : bool;
  HasIssues : bool;
  HasWiki : bool;
  HasProjects : bool;
  HasDiscussions : bool;
  PullRequestCreationPolicy : string;
  AllowMergeCommit : bool;
  AllowSquashMerge : bool;
  AllowRebaseMerge : bool;
  AllowAutoMerge : bool;
  DeleteBranchOnMerge : bool;
  AllowUpdateBranch : bool;
}.
End Repository.

Module WorkflowPermissions.
Record t := mk {
  DefaultWorkflowPermissions : string;
  CanApprovePullRequestReviews : bool;
}.
End WorkflowPermissions.

(** A value of Go's [any] that came out of a JSON document.  A number is a
    [float64], kept by its IEEE-754 bit pattern: the sources never compute
    with it. *)
#[warnings="-register-all"]
Inductive json :=
| JNull
| JBool (b : bool)
| JNumber (bits : Z)
| JString (s : string)
| JArray (l : list json)
| JObject (m : gmap string json).

Module RefNameCondition.
Record t := mk {
  Include : option (list string);
  Exclude : option (list string);
}.
End RefNameCondition.

Module RulesetConditions.
Record t := mk { RefName : option RefNameCondition.t }.
End RulesetConditions.

Module RulesetRule.
Record t := mk {
  Type_ : string;
  Parameters : option (gmap string json);
}.
End RulesetRule.

Module BypassActor.
Record t := mk {
  ActorID : Z;
  ActorType : string;
  BypassMode : string;
}.
End BypassActor.

Module Ruleset.
Record t := mk {
  ID : Z;
  Name : string;
  Target : string;
  Enforcement : string;
  Conditions : option RulesetConditions.t;
  Rules : option (list RulesetRule.t);
  BypassActors : option (list BypassActor.t);
}.
End Ruleset.

Module FileContent.
Record t := mk {
  Type_ : string;
  Encoding : string;
  Size : Z;
  Name : string;
  Path : string;
  Content : string;
  SHA : string;
  URL : string;
  GitURL : string;
  HTMLURL : string;
  DownloadURL : string;
}.
End FileContent.

Module AutomatedSecurityFixes.
Record t := mk { Enabled : bool; Paused : bool }.
End AutomatedSecurityFixes.

Module RulesetCreateRequest.
Record t := mk {
  Name : string;
  Target : string;
  Enforcement : string;
  Conditions : option RulesetConditions.t;
  Rules : option (list RulesetRule.t);
  BypassActors : option (list BypassActor.t);
}.
End RulesetCreateRequest.

Module RepoUpdateRequest.
Record t := mk {
  HasIssues : option bool;
  HasWiki : option bool;
  HasProjects : option bool;
  HasDiscussions : option bool;
  PullRequestCreationPolicy : option string;
  AllowMergeCommit : option bool;
  AllowSquashMerge : option bool;
  AllowRebaseMerge : option bool;
  AllowAutoMerge : option bool;
  DeleteBranchOnMerge : option bool;
  AllowUpdateBranch : option bool;
}.
(** [&RepoUpdateRequest{}] *)
Definition zero : t := mk None None None None None None None None None None None.
End RepoUpdateRequest.

(** ** The decode target of a request

    [doWithRetry] hands the transport a pointer to the value the response
    is decoded into; [kind] names the type behind that pointer ([KNone] for
    a nil target). *)

Inductive kind :=
| KNone | KRepository | KWorkflowPermissions | KRulesets | KRuleset
| KFileContent | KAutomatedSecurityFixes.

Definition decoded (k : kind) : Type :=
  match k with
  | KNone => unit
  | KRepository => Repository.t
  | KWorkflowPermissions => WorkflowPermissions.t
  | KRulesets => list Ruleset.t
  | KRuleset => Ruleset.t
  | KFileContent => FileContent.t
  | KAutomatedSecurityFixes => AutomatedSecurityFixes.t
  end.

(** The request bodies the sources send. *)
Inductive Body :=
| BodyRepoUpdate (req : RepoUpdateRequest.t)
| BodyWorkflowPermissions (can_approve_pull_request_reviews : bool)
| BodyRuleset (req : RulesetCreateRequest.t).

(** A value stored in the cache ([map[string]any]), with its dynamic type. *)
Inductive any :=
| AnyRepository (r : Repository.t)   (* *Repository *)
| AnyRulesets (l : list Ruleset.t)   (* []Ruleset *)
| AnyRuleset (r : Ruleset.t)         (* *Ruleset *)
| AnyBytes (b : string).             (* []byte *)

(** ** The collaborators outside the repository

    The REST transport of go-gh, the operating system's files, the JSON and
    base64 codecs and the formatting of durations are capabilities the
    package consumes.  [Remote] is whatever state the network and the
    server hold, [FS] the state of the file system. *)

Class Externals := {
  Remote : Type;
  FS : Type;
  (** [c.rest.Get/Post/Patch/Put/Delete(path, [body,] result)] *)
  rest_do : Remote → string → string → option string → ∀ k : kind,
            (error + decoded k) * Remote;
  json_Encode : Body → error + string;
  json_Marshal : gmap string json → error + string;
  json_Unmarshal_Ruleset : string → error + Ruleset.t;
  base64_DecodeString : string → error + string;
  duration_String : Z → string;
  os_ReadFile : FS → string → error + string;
  os_Getwd : FS → error + string;
  os_MkdirAll : FS → string → option error * FS;
  os_WriteFile : FS → string → string → option error * FS;
  filepath_IsAbs : string → bool;
  filepath_Join : string → string → string;
  filepath_Dir : string → string;
  (** the order in which [range] visits the entries of a map *)
  map_range_order : list (string * string) → list (string * string);
}.

Record Client := {
  owner : string;
  repo : string;
  verbose : bool;
}.

Definition second : Z := 1000000000.
Definition maxBackoffDuration : Z := 60 * second.
Definition initialBackoff : Z := 1 * second.

(** [time.Duration] is an [int64]. *)
Definition int64 (z : Z) : Z := ((z + 2 ^ 63) `mod` 2 ^ 64 - 2 ^ 63)%Z.

Definition nl : string := String (ascii_of_nat 10) EmptyString.

Section Client.
Context `{!Externals}.

(** The mutable world a client acts on.  [slept] and [requests] record, in
    order, every [time.Sleep] and every call handed to the transport. *)
Record State := {
  cache : gmap string any;
  remote : Remote;
  fs : FS;
  slept : list Z;
  requests : list (string * string);
  stderr : list string;
}.

Definition set_cache (m : gmap string any) (st : State) : State :=
  {| cache := m; remote := remote st; fs := fs st; slept := slept st;
     requests := requests st; stderr := stderr st |}.

Definition set_fs (f : FS) (st : State) : State :=
  {| cache := cache st; remote := remote st; fs := f; slept := slept st;
     requests := requests st; stderr := stderr st |}.

Definition print_stderr (line : string) (st : State) : State :=
  {| cache := cache st; remote := remote st; fs := fs st; slept := slept st;
     requests := requests st; stderr := stderr st ++ [line] |}.

Definition time_Sleep (d : Z) (st : State) : State :=
  {| cache := cache st; remote := remote st; fs := fs st; slept := slept st ++ [d];
     requests := requests st; stderr := stderr st |}.

(** One call of the transport. *)
Definition call_rest (method path : string) (body : option string) (k : kind)
    (st : State) : (error + decoded k) * State :=
  let '(r, remote') := rest_do (remote st) method path body k in
  (r, {| cache := cache st; remote := remote'; fs := fs st; slept := slept st;
         requests := requests st ++ [(method, path)]; stderr := stderr st |}).

(** ** Cache methods *)

Definition getFromCache (key : string) (st : State) : option any := cache st !! key.

Definition setCache (key : string) (value : any) (st : State) : State :=
  set_cache (<[key := value]> (cache st)) st.

(** ** doWithRetry *)

Definition encodeBody (body : option Body) : error + string :=
  match body with
  | None => inr ""
  | Some b =>
      match json_Encode b with
      | inl err => inl (fmt_Errorf_w "failed to encode request body" err)
      | inr buf => inr buf
      end
  end.

(** The [switch method] of one iteration: either the function returns at
    once ([inl]: the body does not encode, or the method is unsupported),
    or the transport is called and answers. *)
Definition attempt (method path : string) (body : option Body) (k : kind)
    (st : State) : error + (error + decoded k) * State :=
  if bool_decide (method = "GET") then inr (call_rest "GET" path None k st)
  else if bool_decide (method = "POST") then
    match encodeBody body with
    | inl encErr => inl encErr
    | inr bodyReader => inr (call_rest "POST" path (Some bodyReader) k st)
    end
  else if bool_decide (method = "PATCH") then
    match encodeBody body with
    | inl encErr => inl encErr
    | inr bodyReader => inr (call_rest "PATCH" path (Some bodyReader) k st)
    end
  else if bool_decide (method = "PUT") then
    match encodeBody body with
    | inl encErr => inl encErr
    | inr bodyReader => inr (call_rest "PUT" path (Some bodyReader) k st)
    end
  else if bool_decide (method = "DELETE") then inr (call_rest "DELETE" path None k st)
  else inl (errors_New ("unsupported method: " +:+ method)).

(** The bookkeeping after a sleep of [backoff]:
    [totalWait += backoff; backoff *= 2;
     if backoff > maxBackoffDuration-totalWait { backoff = maxBackoffDuration - totalWait }] *)
Definition nextBackoff (backoff totalWait : Z) : Z * Z :=
  let totalWait := int64 (totalWait + backoff) in
  let backoff := int64 (backoff * 2) in
  let backoff :=
    if (int64 (maxBackoffDuration - totalWait) <? backoff)%Z
    then int64 (maxBackoffDuration - totalWait) else backoff in
  (backoff, totalWait).

(** [if c.verbose { fmt.Fprintf(os.Stderr, "[API] %s %s\n", method, path) }] *)
Definition logRequest (c : Client) (method path : string) (st : State) : State :=
  if verbose c
  then print_stderr ("[API] " +:+ method +:+ " " +:+ path +:+ nl) st
  else st.

(** The message on stderr, then [time.Sleep(backoff)]. *)
Definition waitBeforeRetry (backoff : Z) (st : State) : State :=
  time_Sleep backoff
    (print_stderr ("Rate limited, waiting " +:+ duration_String backoff
                   +:+ " before retry..." +:+ nl) st).

(** [fmt.Errorf("rate limit exceeded, waited %v: %w", totalWait, err)] *)
Definition rateLimitExceeded (totalWait : Z) (err : error) : error :=
  fmt_Errorf_w ("rate limit exceeded, waited " +:+ duration_String totalWait) err.

(** The [for] loop of [doWithRetry]; [fuel] bounds the number of
    iterations and [None] means it ran out. *)
Fixpoint retryLoop (fuel : nat) (c : Client) (method path : string)
    (body : option Body) (k : kind) (backoff totalWait : Z) (st : State)
    : option ((error + decoded k) * State) :=
  match fuel with
  | O => None
  | S fuel' =>
      let st := logRequest c method path st in
      match attempt method path body k st with
      | inl e => Some (inl e, st)
      | inr (inr result, st) => Some (inr result, st)
      | inr (inl err, st) =>
          if negb (isRateLimitError (Some err)) then Some (inl err, st)
          else if bool_decide (maxBackoffDuration ≤ totalWait)%Z
          then Some (inl (rateLimitExceeded totalWait err), st)
          else
            retryLoop fuel' c method path body k
                      (nextBackoff backoff totalWait).1 (nextBackoff backoff totalWait).2
                      (waitBeforeRetry backoff st)
      end
  end.

(** Seven iterations are always enough (lemma [retryLoop_total] below). *)
Definition retryFuel : nat := 7.

Definition doWithRetry (c : Client) (method path : string) (body : option Body)
    (k : kind) (st : State) : (error + decoded k) * State :=
  default (inl (errors_New "unreachable"), st)
          (retryLoop retryFuel c method path body k initialBackoff 0 st).

Arguments doWithRetry : simpl never.

(** ** Read operations *)

Definition GetRepository (c : Client) (st : State) : (error + Repository.t) * State :=
  let cacheKey := "repo:" +:+ owner c +:+ "/" +:+ repo c in
  match getFromCache cacheKey st with
  | Some (AnyRepository r) => (inr r, st)
  | _ =>
      let path := "repos/" +:+ owner c +:+ "/" +:+ repo c in
      match doWithRetry c "GET" path None KRepository st with
      | (inl err, st) => (inl err, st)
      | (inr r, st) =>
          if Repository.Archived r
          then (inl (errors_New ("repository " +:+ owner c +:+ "/" +:+ repo c
                                 +:+ " is archived")), st)
          else (inr r, setCache cacheKey (AnyRepository r) st)
      end
  end.

Definition GetWorkflowPermissions (c : Client) (st : State)
    : (error + WorkflowPermissions.t) * State :=
  let path := "repos/" +:+ owner c +:+ "/" +:+ repo c +:+ "/actions/permissions/workflow" in
  match doWithRetry c "GET" path None KWorkflowPermissions st with
  | (inl err, st) => (inl err, st)
  | (inr perms, st) => (inr perms, st)
  end.

Definition GetRulesets (c : Client) (st : State) : (error + list Ruleset.t) * State :=
  let cacheKey := "rulesets:" +:+ owner c +:+ "/" +:+ repo c in
  match getFromCache cacheKey st with
  | Some (AnyRulesets l) => (inr l, st)
  | _ =>
      let path := "repos/" +:+ owner c +:+ "/" +:+ repo c +:+ "/rulesets" in
      match doWithRetry c "GET" path None KRulesets st with
      | (inl err, st) => (inl err, st)
      | (inr rulesets, st) => (inr rulesets, setCache cacheKey (AnyRulesets rulesets) st)
      end
  end.

Definition GetRuleset (c : Client) (id : Z) (st : State) : (error + Ruleset.t) * State :=
  let cacheKey := "ruleset:" +:+ owner c +:+ "/" +:+ repo c +:+ "/" +:+ pretty id in
  match getFromCache cacheKey st with
  | Some (AnyRuleset r) => (inr r, st)
  | _ =>
      let path := "repos/" +:+ owner c +:+ "/" +:+ repo c +:+ "/rulesets/" +:+ pretty id in
      match doWithRetry c "GET" path None KRuleset st with
      | (inl err, st) => (inl err, st)
      | (inr ruleset, st) => (inr ruleset, setCache cacheKey (AnyRuleset ruleset) st)
      end
  end.

(** The part [GetFileContent] and [GetRemoteFileContent] share, written
    out twice in the source: fetch, check the encoding, decode, cache. *)
Definition fetchContent (c : Client) (cacheKey path : string) (st : State)
    : (error + string) * State :=
  match doWithRetry c "GET" path None KFileContent st with
  | (inl err, st) => (inl err, st)
  | (inr content, st) =>
      if bool_decide (FileContent.Encoding content ≠ "base64")
      then (inl (errors_New ("unexpected encoding: " +:+ FileContent.Encoding content)), st)
      else
        match base64_DecodeString
                (GoStrings.ReplaceAll (FileContent.Content content) nl "") with
        | inl err => (inl (fmt_Errorf_w "failed to decode content" err), st)
        | inr decoded => (inr decoded, setCache cacheKey (AnyBytes decoded) st)
        end
  end.

Definition GetFileContent (c : Client) (filePath : string) (st : State)
    : (error + string) * State :=
  let cacheKey := "file:" +:+ owner c +:+ "/" +:+ repo c +:+ "/" +:+ filePath in
  match getFromCache cacheKey st with
  | Some (AnyBytes content) => (inr content, st)
  | _ =>
      fetchContent c cacheKey
        ("repos/" +:+ owner c +:+ "/" +:+ repo c +:+ "/contents/" +:+ filePath) st
  end.

Definition GetRemoteFileContent (c : Client) (owner repo filePath : string) (st : State)
    : (error + string) * State :=
  let cacheKey := "remote-file:" +:+ owner +:+ "/" +:+ repo +:+ "/" +:+ filePath in
  match getFromCache cacheKey st with
  | Some (AnyBytes content) => (inr content, st)
  | _ =>
      fetchContent c cacheKey
        ("repos/" +:+ owner +:+ "/" +:+ repo +:+ "/contents/" +:+ filePath) st
  end.

Definition GetVulnerabilityAlertsEnabled (c : Client) (st : State)
    : (error + bool) * State :=
  let path := "repos/" +:+ owner c +:+ "/" +:+ repo c +:+ "/vulnerability-alerts" in
  match doWithRetry c "GET" path None KNone st with
  | (inl err, st) =>
      if IsNotFound (Some err) then (inr false, st) else (inl err, st)
  | (inr _, st) => (inr true, st)
  end.

Definition GetAutomatedSecurityFixes (c : Client) (st : State)
    : (error + AutomatedSecurityFixes.t) * State :=
  let path := "repos/" +:+ owner c +:+ "/" +:+ repo c +:+ "/automated-security-fixes" in
  match doWithRetry c "GET" path None KAutomatedSecurityFixes st with
  | (inl err, st) => (inl err, st)
  | (inr result, st) => (inr result, st)
  end.

(** ** Write operations: each returns only an [error] ([None] is [nil]),
    except [CreateRuleset]. *)

Definition errOf {A} (r : error + A) : option error :=
  match r with
  | inl err => Some err
  | inr _ => None
  end.

Definition doWrite (c : Client) (method path : string) (body : option Body) (st : State)
    : option error * State :=
  let '(r, st) := doWithRetry c method path body KNone st in (errOf r, st).

Definition EnableVulnerabilityAlerts (c : Client) (st : State) : option error * State :=
  doWrite c "PUT" ("repos/" +:+ owner c +:+ "/" +:+ repo c +:+ "/vulnerability-alerts")
          None st.

Definition DisableVulnerabilityAlerts (c : Client) (st : State) : option error * State :=
  doWrite c "DELETE" ("repos/" +:+ owner c +:+ "/" +:+ repo c +:+ "/vulnerability-alerts")
          None st.

Definition EnableAutomatedSecurityFixes (c : Client) (st : State) : option error * State :=
  doWrite c "PUT" ("repos/" +:+ owner c +:+ "/" +:+ repo c +:+ "/automated-security-fixes")
          None st.

Definition DisableAutomatedSecurityFixes (c : Client) (st : State) : option error * State :=
  doWrite c "DELETE"
          ("repos/" +:+ owner c +:+ "/" +:+ repo c +:+ "/automated-security-fixes") None st.

Definition UpdateRepository (c : Client) (req : RepoUpdateRequest.t) (st : State)
    : option error * State :=
  doWrite c "PATCH" ("repos/" +:+ owner c +:+ "/" +:+ repo c)
          (Some (BodyRepoUpdate req)) st.

Definition UpdateWorkflowPermissions (c : Client) (canApprove : bool) (st : State)
    : option error * State :=
  doWrite c "PUT"
          ("repos/" +:+ owner c +:+ "/" +:+ repo c +:+ "/actions/permissions/workflow")
          (Some (BodyWorkflowPermissions canApprove)) st.

Definition CreateRuleset (c : Client) (req : RulesetCreateRequest.t) (st : State)
    : (error + Ruleset.t) * State :=
  let path := "repos/" +:+ owner c +:+ "/" +:+ repo c +:+ "/rulesets" in
  match doWithRetry c "POST" path (Some (BodyRuleset req)) KRuleset st with
  | (inl err, st) => (inl err, st)
  | (inr ruleset, st) => (inr ruleset, st)
  end.

Definition UpdateRuleset (c : Client) (id : Z) (req : RulesetCreateRequest.t) (st : State)
    : option error * State :=
  doWrite c "PUT"
          ("repos/" +:+ owner c +:+ "/" +:+ repo c +:+ "/rulesets/" +:+ pretty id)
          (Some (BodyRuleset req)) st.

Definition CheckPermissions (c : Client) (st : State) : option error * State :=
  match GetRepository c st with
  | (inl err, st) =>
      (Some (fmt_Errorf_w "insufficient permissions to access repository" err), st)
  | (inr _, st) => (None, st)
  end.

(** ** Local files and reference resolution *)

(** [WriteFile] and [GetLocalFileContent] never touch their receiver, which
    may therefore be nil. *)
Definition WriteFile (c : option Client) (filePath content : string) (st : State)
    : option error * State :=
  let resolved :=
    if negb (filepath_IsAbs filePath) then
      match os_Getwd (fs st) with
      | inl err => inl err
      | inr cwd => inr (filepath_Join cwd filePath)
      end
    else inr filePath in
  match resolved with
  | inl err => (Some err, st)
  | inr fullPath =>
      let dir := filepath_Dir fullPath in
      match os_MkdirAll (fs st) dir with
      | (Some err, f) => (Some (fmt_Errorf_w "failed to create directory" err), set_fs f st)
      | (None, f) =>
          let '(err, f) := os_WriteFile f fullPath content in (err, set_fs f st)
      end
  end.

Definition GetLocalFileContent (c : option Client) (filePath : string) (st : State)
    : (error + string) * State :=
  match os_Getwd (fs st) with
  | inl err => (inl err, st)
  | inr cwd => (os_ReadFile (fs st) (filepath_Join cwd filePath), st)
  end.

Definition HydrateTemplate (c : Client) (content : string) : error + string :=
  let result := content in
  let result := GoStrings.ReplaceAll result "{{ .owner }}" (owner c) in
  let result := GoStrings.ReplaceAll result "{{.owner}}" (owner c) in
  let result := GoStrings.ReplaceAll result "{{ .repo }}" (repo c) in
  let result := GoStrings.ReplaceAll result "{{.repo}}" (repo c) in
  inr result.

(** [client] is a pointer and may be nil: the local read does not touch it,
    the remote fetch dereferences it. *)
Definition ResolveReferenceFile (reference : string) (client : option Client) (st : State)
    : outcome (error + string) * State :=
  match os_ReadFile (fs st) reference with
  | inr content => (Returned (inr content), st)
  | inl err =>
      if negb (os_IsNotExist err)
      then (Returned (inl (fmt_Errorf_w "failed to read local reference file" err)), st)
      else
        let parts := GoStrings.SplitN reference "/" 3 in
        if bool_decide (length parts < 3)
        then (Returned
                (inl (errors_New
                        ("reference file '" +:+ reference
                         +:+ "' not found locally and invalid remote format (expected owner/repo/path)"))),
              st)
        else
          let refOwner := nth 0 parts "" in
          let refRepo := nth 1 parts "" in
          let refPath := nth 2 parts "" in
          match client with
          | None => (Panicked nilDereference, st)
          | Some c =>
              match GetRemoteFileContent c refOwner refRepo refPath st with
              | (inl err, st) =>
                  (Returned (inl (fmt_Errorf_w "failed to fetch remote reference file" err)),
                   st)
              | (inr content, st) => (Returned (inr content), st)
              end
          end
  end.

Definition FetchReferenceRuleset (reference : string) (client : option Client) (st : State)
    : outcome (error + Ruleset.t) * State :=
  match ResolveReferenceFile reference client st with
  | (Panicked msg, st) => (Panicked msg, st)
  | (Returned (inl err), st) => (Returned (inl err), st)
  | (Returned (inr content), st) =>
      match json_Unmarshal_Ruleset content with
      | inl err => (Returned (inl (fmt_Errorf_w "failed to parse reference JSON" err)), st)
      | inr ruleset => (Returned (inr ruleset), st)
      end
  end.

(** ** doWithRetry: one iteration at a time *)

(** What [attempt] puts on the wire: [Some None] for GET and DELETE,
    [Some (Some buf)] for POST, PATCH and PUT with an encodable body, and
    [None] when the function returns before calling the transport. *)
Definition wireBody (method : string) (body : option Body) : option (option string) :=
  if bool_decide (method = "GET") || bool_decide (method = "DELETE") then Some None
  else if bool_decide (method = "POST") || bool_decide (method = "PATCH")
          || bool_decide (method = "PUT")
  then match encodeBody body with
       | inl _ => None
       | inr buf => Some (Some buf)
       end
  else None.

(** The state once the transport has answered and moved to [remote']. *)
Definition responded (c : Client) (method path : string) (remote' : Remote)
    (st : State) : State :=
  let st := logRequest c method path st in
  {| cache := cache st; remote := remote'; fs := fs st; slept := slept st;
     requests := requests st ++ [(method, path)]; stderr := stderr st |}.

Definition sumZ (l : list Z) : Z := foldr Z.add 0%Z l.

Lemma sumZ_app l1 l2 : sumZ (l1 ++ l2) = (sumZ l1 + sumZ l2)%Z.
Proof. unfold sumZ. induction l1 as [|x l1 IH]; cbn in *; lia. Qed.

Lemma int64_small z : (- 2 ^ 63 ≤ z < 2 ^ 63)%Z → int64 z = z.
Proof. intros Hz. unfold int64. rewrite Z.mod_small; lia. Qed.

Lemma attempt_wire method path body k st w :
  wireBody method body = Some w →
  attempt method path body k st = inr (call_rest method path w k st).
Proof.
  unfold attempt, wireBody.
  repeat case_bool_decide; simplify_eq/=; try (by intros [= <-]);
    destruct (encodeBody body); by intros [= <-].
Qed.

Lemma attempt_early method path body k :
  wireBody method body = None →
  ∃ e, ∀ st, attempt method path body k st = inl e.
Proof.
  unfold attempt, wireBody.
  repeat case_bool_decide; simplify_eq/=; try done;
    destruct (encodeBody body); try done; eauto.
Qed.

Lemma remote_logRequest c method path st : remote (logRequest c method path st) = remote st.
Proof. unfold logRequest. by destruct (verbose c). Qed.

Lemma call_rest_responded c method path w k st r remote' :
  rest_do (remote st) method path w k = (r, remote') →
  call_rest method path w k (logRequest c method path st)
  = (r, responded c method path remote' st).
Proof.
  intros Hr. unfold call_rest. rewrite remote_logRequest, Hr. done.
Qed.

(** The transport answers with a value: the loop returns it. *)
Lemma retryLoop_done fuel c method path body k w backoff totalWait st v remote' :
  wireBody method body = Some w →
  rest_do (remote st) method path w k = (inr v, remote') →
  retryLoop (S fuel) c method path body k backoff totalWait st
  = Some (inr v, responded c method path remote' st).
Proof.
  intros Hw Hr. cbn [retryLoop].
  by rewrite (attempt_wire _ _ _ _ _ _ Hw), (call_rest_responded _ _ _ _ _ _ _ _ Hr).
Qed.

(** The transport answers with an error that is not a rate limit: the loop
    returns it at once. *)
Lemma retryLoop_abort fuel c method path body k w backoff totalWait st err remote' :
  wireBody method body = Some w →
  rest_do (remote st) method path w k = (inl err, remote') →
  isRateLimitError (Some err) = false →
  retryLoop (S fuel) c method path body k backoff totalWait st
  = Some (inl err, responded c method path remote' st).
Proof.
  intros Hw Hr Hrl. cbn [retryLoop].
  rewrite (attempt_wire _ _ _ _ _ _ Hw), (call_rest_responded _ _ _ _ _ _ _ _ Hr).
  by rewrite Hrl.
Qed.

(** A rate limit with the budget used up: the loop fails. *)
Lemma retryLoop_exceeded fuel c method path body k w backoff totalWait st err remote' :
  wireBody method body = Some w →
  rest_do (remote st) method path w k = (inl err, remote') →
  isRateLimitError (Some err) = true →
  (maxBackoffDuration ≤ totalWait)%Z →
  retryLoop (S fuel) c method path body k backoff totalWait st
  = Some (inl (rateLimitExceeded totalWait err), responded c method path remote' st).
Proof.
  intros Hw Hr Hrl Hmax. cbn [retryLoop].
  rewrite (attempt_wire _ _ _ _ _ _ Hw), (call_rest_responded _ _ _ _ _ _ _ _ Hr).
  rewrite Hrl. cbn [negb]. by rewrite bool_decide_eq_true_2.
Qed.

(** A rate limit with budget left: sleep [backoff], then go round again. *)
Lemma retryLoop_retry fuel c method path body k w backoff totalWait st err remote' :
  wireBody method body = Some w →
  rest_do (remote st) method path w k = (inl err, remote') →
  isRateLimitError (Some err) = true →
  (totalWait < maxBackoffDuration)%Z →
  retryLoop (S fuel) c method path body k backoff totalWait st
  = retryLoop fuel c method path body k
              (nextBackoff backoff totalWait).1 (nextBackoff backoff totalWait).2
              (waitBeforeRetry backoff (responded c method path remote' st)).
Proof.
  intros Hw Hr Hrl Hmax. cbn [retryLoop].
  rewrite (attempt_wire _ _ _ _ _ _ Hw), (call_rest_responded _ _ _ _ _ _ _ _ Hr).
  rewrite Hrl. cbn [negb]. rewrite bool_decide_eq_false_2; [done | lia].
Qed.

(** The function returns before the transport is called. *)
Lemma retryLoop_early c method path body k :
  wireBody method body = None →
  ∃ e, ∀ fuel backoff totalWait st,
    retryLoop (S fuel) c method path body k backoff totalWait st
    = Some (inl e, logRequest c method path st).
Proof.
  intros Hw. destruct (attempt_early method path body k Hw) as [e He].
  exists e. intros fuel backoff totalWait st. cbn [retryLoop]. by rewrite He.
Qed.

(** ** doWithRetry: what every run does *)

Lemma logRequest_fields c method path st :
  let st' := logRequest c method path st in
  cache st' = cache st ∧ fs st' = fs st ∧ slept st' = slept st
  ∧ requests st' = requests st.
Proof. unfold logRequest. by destruct (verbose c). Qed.

Lemma responded_fields c method path remote' st :
  let st' := responded c method path remote' st in
  cache st' = cache st ∧ fs st' = fs st ∧ slept st' = slept st
  ∧ requests st' = requests st ++ [(method, path)] ∧ remote st' = remote'.
Proof. unfold responded, logRequest. by destruct (verbose c). Qed.

Lemma waitBeforeRetry_fields backoff st :
  let st' := waitBeforeRetry backoff st in
  cache st' = cache st ∧ fs st' = fs st ∧ slept st' = slept st ++ [backoff]
  ∧ requests st' = requests st ∧ remote st' = remote st.
Proof. done. Qed.

Lemma logRequest_set_cache c method path m st :
  logRequest c method path (set_cache m st) = set_cache m (logRequest c method path st).
Proof. unfold logRequest. by destruct (verbose c). Qed.

Lemma responded_set_cache c method path remote' m st :
  responded c method path remote' (set_cache m st)
  = set_cache m (responded c method path remote' st).
Proof. unfold responded, logRequest. by destruct (verbose c). Qed.

(** The five ways one iteration can go. *)
Lemma retryLoop_cases fuel c method path body k backoff totalWait st :
  let run := retryLoop (S fuel) c method path body k backoff totalWait st in
  (wireBody method body = None
   ∧ ∃ e, ∀ fuel2 backoff2 totalWait2 st2,
       retryLoop (S fuel2) c method path body k backoff2 totalWait2 st2
       = Some (inl e, logRequest c method path st2))
  ∨ ∃ w r remote',
      wireBody method body = Some w
      ∧ rest_do (remote st) method path w k = (r, remote')
      ∧ ((∃ v, r = inr v ∧ run = Some (inr v, responded c method path remote' st))
         ∨ (∃ err, r = inl err ∧ isRateLimitError (Some err) = false
                   ∧ run = Some (inl err, responded c method path remote' st))
         ∨ (∃ err, r = inl err ∧ isRateLimitError (Some err) = true
                   ∧ (maxBackoffDuration ≤ totalWait)%Z
                   ∧ run = Some (inl (rateLimitExceeded totalWait err),
                                 responded c method path remote' st))
         ∨ (∃ err, r = inl err ∧ isRateLimitError (Some err) = true
                   ∧ (totalWait < maxBackoffDuration)%Z
                   ∧ run = retryLoop fuel c method path body k
                             (nextBackoff backoff totalWait).1
                             (nextBackoff backoff totalWait).2
                             (waitBeforeRetry backoff
                                (responded c method path remote' st)))).
Proof.
  intros run. subst run.
  destruct (wireBody method body) as [w|] eqn:Hw.
  - right. destruct (rest_do (remote st) method path w k) as [[err|v] remote'] eqn:Hr.
    + exists w, (inl err), remote'. split_and!; [done..|].
      destruct (isRateLimitError (Some err)) eqn:Hrl.
      * destruct (decide (maxBackoffDuration ≤ totalWait)%Z) as [Hmax|Hmax].
        -- right; right; left. exists err. split_and!; [done..|].
           by eapply retryLoop_exceeded.
        -- right; right; right. exists err. split_and!; [done | done | lia |].
           eapply retryLoop_retry; [done..|lia].
      * right; left. exists err. split_and!; [done..|]. by eapply retryLoop_abort.
    + exists w, (inr v), remote'. split_and!; [done..|].
      left. exists v. split; [done|]. by eapply retryLoop_done.
  - left. split; [done|]. by apply retryLoop_early.
Qed.

Local Ltac retry_cases fuel c method path body k backoff totalWait st :=
  destruct (retryLoop_cases fuel c method path body k backoff totalWait st)
    as [(?Hw & ?e & ?Hearly)
       |(?w & ?r & ?remote' & ?Hw & ?Hr &
          [(?v & -> & ?Hrun)
          |[(?err & -> & ?Hrl & ?Hrun)
           |[(?err & -> & ?Hrl & ?Hmax & ?Hrun)
            |(?err & -> & ?Hrl & ?Hmax & ?Hrun)]]])].

(** More fuel never changes a result. *)
Lemma retryLoop_fuel_mono fuel : ∀ fuel' c method path body k backoff totalWait st res,
  retryLoop fuel c method path body k backoff totalWait st = Some res →
  fuel ≤ fuel' →
  retryLoop fuel' c method path body k backoff totalWait st = Some res.
Proof.
  induction fuel as [|fuel IH]; intros fuel' c method path body k backoff totalWait st res;
    [done|].
  intros Hres Hle. destruct fuel' as [|fuel']; [lia|].
  retry_cases fuel c method path body k backoff totalWait st.
  - by rewrite Hearly in *.
  - erewrite retryLoop_done; [|done..]. congruence.
  - erewrite retryLoop_abort; [|done..]. congruence.
  - erewrite retryLoop_exceeded; [|done..]. congruence.
  - erewrite retryLoop_retry; [|done..]. apply IH; [congruence | lia].
Qed.

(** A run touches neither the cache nor the file system. *)
Lemma retryLoop_frame fuel : ∀ c method path body k backoff totalWait st r st',
  retryLoop fuel c method path body k backoff totalWait st = Some (r, st') →
  cache st' = cache st ∧ fs st' = fs st.
Proof.
  induction fuel as [|fuel IH]; intros c method path body k backoff totalWait st r st';
    [done|].
  intros Hres.
  pose proof (logRequest_fields c method path st) as (Hl1 & Hl2 & _).
  retry_cases fuel c method path body k backoff totalWait st;
    try pose proof (responded_fields c method path remote' st) as (Hr1 & Hr2 & _).
  - rewrite Hearly in Hres. by simplify_eq.
  - rewrite Hrun in Hres. by simplify_eq.
  - rewrite Hrun in Hres. by simplify_eq.
  - rewrite Hrun in Hres. by simplify_eq.
  - rewrite Hrun in Hres. apply IH in Hres as [-> ->]. done.
Qed.

(** A run neither reads the cache: with another cache in place, the run is
    the same and leaves that other cache in place. *)
Lemma retryLoop_set_cache fuel : ∀ c method path body k backoff totalWait st m,
  retryLoop fuel c method path body k backoff totalWait (set_cache m st)
  = prod_map id (set_cache m)
      <$> retryLoop fuel c method path body k backoff totalWait st.
Proof.
  induction fuel as [|fuel IH]; intros c method path body k backoff totalWait st m;
    [done|].
  retry_cases fuel c method path body k backoff totalWait st.
  - rewrite !Hearly. cbn. by rewrite logRequest_set_cache.
  - rewrite Hrun. erewrite retryLoop_done; [|done..]. cbn. by rewrite responded_set_cache.
  - rewrite Hrun. erewrite retryLoop_abort; [|done..]. cbn. by rewrite responded_set_cache.
  - rewrite Hrun. erewrite retryLoop_exceeded; [|done..]. cbn.
    by rewrite responded_set_cache.
  - rewrite Hrun. erewrite retryLoop_retry; [|done..].
    rewrite responded_set_cache.
    change (waitBeforeRetry backoff (set_cache m ?s))
      with (set_cache m (waitBeforeRetry backoff s)).
    apply IH.
Qed.

Lemma nextBackoff_inv backoff totalWait :
  (0 ≤ backoff)%Z → (0 ≤ totalWait)%Z → (totalWait + backoff ≤ maxBackoffDuration)%Z →
  (nextBackoff backoff totalWait).2 = (totalWait + backoff)%Z
  ∧ (0 ≤ (nextBackoff backoff totalWait).1)%Z
  ∧ ((nextBackoff backoff totalWait).2 + (nextBackoff backoff totalWait).1
     ≤ maxBackoffDuration)%Z.
Proof.
  unfold nextBackoff, maxBackoffDuration, second. intros Hb Ht Hsum. cbn [fst snd].
  rewrite !int64_small by lia.
  case_match; [rewrite Z.ltb_lt in *|rewrite Z.ltb_ge in *]; lia.
Qed.

(** The sleeps of a run add up to no more than the budget that is left. *)
Lemma retryLoop_slept fuel : ∀ c method path body k backoff totalWait st r st',
  retryLoop fuel c method path body k backoff totalWait st = Some (r, st') →
  (0 ≤ backoff)%Z → (0 ≤ totalWait)%Z → (totalWait + backoff ≤ maxBackoffDuration)%Z →
  ∃ sl, slept st' = slept st ++ sl ∧ Forall (λ d, 0 ≤ d)%Z sl
        ∧ (totalWait + sumZ sl ≤ maxBackoffDuration)%Z.
Proof.
  induction fuel as [|fuel IH]; intros c method path body k backoff totalWait st r st';
    [done|].
  intros Hres Hb Ht Hsum.
  assert (∀ s, slept s = slept st → ∃ sl, slept s = slept st ++ sl
            ∧ Forall (λ d, 0 ≤ d)%Z sl ∧ (totalWait + sumZ sl ≤ maxBackoffDuration)%Z)
    as Hnone.
  { intros s ->. exists []. rewrite app_nil_r. split_and!; [done|constructor|cbn; lia]. }
  pose proof (logRequest_fields c method path st) as (_ & _ & Hl & _).
  retry_cases fuel c method path body k backoff totalWait st;
    try pose proof (responded_fields c method path remote' st) as (_ & _ & Hrs & _).
  - rewrite Hearly in Hres. simplify_eq. by apply Hnone.
  - rewrite Hrun in Hres. simplify_eq. by apply Hnone.
  - rewrite Hrun in Hres. simplify_eq. by apply Hnone.
  - rewrite Hrun in Hres. simplify_eq. by apply Hnone.
  - rewrite Hrun in Hres.
    destruct (nextBackoff_inv backoff totalWait Hb Ht Hsum) as (Ht' & Hb' & Hsum').
    apply IH in Hres as (sl & Hsl & Hpos & Hbound); [|lia..].
    exists (backoff :: sl). split_and!.
    + rewrite Hsl. cbn [waitBeforeRetry time_Sleep print_stderr slept].
      rewrite Hrs. by rewrite <-app_assoc.
    + by constructor.
    + change (sumZ (backoff :: sl)) with (backoff + sumZ sl)%Z. lia.
Qed.

(** Seven iterations always suffice. *)
Lemma retryLoop_total_step n c method path body k backoff totalWait :
  (∀ st, is_Some (retryLoop n c method path body k
                     (nextBackoff backoff totalWait).1
                     (nextBackoff backoff totalWait).2 st)) →
  ∀ st, is_Some (retryLoop (S n) c method path body k backoff totalWait st).
Proof.
  intros IH st.
  retry_cases n c method path body k backoff totalWait st;
    [rewrite Hearly|rewrite Hrun..]; eauto.
Qed.

Lemma retryLoop_total_last n c method path body k backoff totalWait st :
  (maxBackoffDuration ≤ totalWait)%Z →
  is_Some (retryLoop (S n) c method path body k backoff totalWait st).
Proof.
  intros Hmax.
  retry_cases n c method path body k backoff totalWait st;
    [rewrite Hearly|rewrite Hrun..]; eauto; lia.
Qed.

Lemma retryLoop_total c method path body k st :
  is_Some (retryLoop retryFuel c method path body k initialBackoff 0 st).
Proof.
  revert st. unfold retryFuel.
  do 6 (apply retryLoop_total_step). intros st.
  apply retryLoop_total_last. by vm_compute.
Qed.

Lemma doWithRetry_retryLoop c method path body k st :
  retryLoop retryFuel c method path body k initialBackoff 0 st
  = Some (doWithRetry c method path body k st).
Proof.
  unfold doWithRetry.
  by destruct (retryLoop_total c method path body k st) as [res ->].
Qed.


Lemma slept_responded c method path remote' st :
  slept (responded c method path remote' st) = slept st.
Proof. by destruct (responded_fields c method path remote' st) as (_ & _ & ? & _). Qed.

Lemma requests_responded c method path remote' st :
  requests (responded c method path remote' st) = requests st ++ [(method, path)].
Proof. by destruct (responded_fields c method path remote' st) as (_ & _ & _ & ? & _). Qed.

Lemma slept_waitBeforeRetry backoff st :
  slept (waitBeforeRetry backoff st) = slept st ++ [backoff].
Proof. done. Qed.

Lemma requests_waitBeforeRetry backoff st :
  requests (waitBeforeRetry backoff st) = requests st.
Proof. done. Qed.

(** A run extends the list of requests by one entry per call of the
    transport; there is at least one call unless the function returns
    before the transport is reached. *)
Lemma retryLoop_requests fuel : ∀ c method path body k backoff totalWait st r st',
  retryLoop fuel c method path body k backoff totalWait st = Some (r, st') →
  ∃ n, requests st' = requests st ++ replicate n (method, path)
       ∧ (is_Some (wireBody method body) → 1 ≤ n)
       ∧ (wireBody method body = None → n = 0 ∧ ∃ e, r = inl e).
Proof.
  induction fuel as [|fuel IH]; intros c method path body k backoff totalWait st r st';
    [done|].
  intros Hres.
  pose proof (logRequest_fields c method path st) as (_ & _ & _ & Hl).
  retry_cases fuel c method path body k backoff totalWait st.
  - rewrite Hearly in Hres. simplify_eq. exists 0. rewrite app_nil_r.
    split_and!; [done| |eauto]. intros [? ?]; congruence.
  - rewrite Hrun in Hres. simplify_eq. exists 1.
    split_and!; [apply requests_responded|done|congruence].
  - rewrite Hrun in Hres. simplify_eq. exists 1.
    split_and!; [apply requests_responded|done|congruence].
  - rewrite Hrun in Hres. simplify_eq. exists 1.
    split_and!; [apply requests_responded|done|congruence].
  - rewrite Hrun in Hres. apply IH in Hres as (n & Hn & _ & _).
    exists (S n). split_and!; [|lia|congruence].
    rewrite Hn, requests_waitBeforeRetry, requests_responded, <-app_assoc. done.
Qed.

(** *** The same facts for [doWithRetry] itself *)

Lemma doWithRetry_frame c method path body k st :
  cache (doWithRetry c method path body k st).2 = cache st
  ∧ fs (doWithRetry c method path body k st).2 = fs st.
Proof.
  pose proof (doWithRetry_retryLoop c method path body k st) as Hrun.
  destruct (doWithRetry c method path body k st) as [r st'].
  by apply retryLoop_frame in Hrun.
Qed.

Lemma doWithRetry_set_cache c method path body k st m :
  doWithRetry c method path body k (set_cache m st)
  = prod_map id (set_cache m) (doWithRetry c method path body k st).
Proof.
  pose proof (doWithRetry_retryLoop c method path body k (set_cache m st)) as Hrun.
  rewrite retryLoop_set_cache, doWithRetry_retryLoop in Hrun.
  change (Some (prod_map id (set_cache m) (doWithRetry c method path body k st))
          = Some (doWithRetry c method path body k (set_cache m st))) in Hrun.
  congruence.
Qed.

Lemma doWithRetry_requests c method path body k st :
  ∃ n, requests (doWithRetry c method path body k st).2
       = requests st ++ replicate n (method, path)
       ∧ (is_Some (wireBody method body) → 1 ≤ n)
       ∧ (wireBody method body = None
          → n = 0 ∧ ∃ e, (doWithRetry c method path body k st).1 = inl e).
Proof.
  pose proof (doWithRetry_retryLoop c method path body k st) as Hrun.
  destruct (doWithRetry c method path body k st) as [r st'].
  by apply retryLoop_requests in Hrun.
Qed.

Lemma doWithRetry_slept c method path body k st :
  ∃ sl, slept (doWithRetry c method path body k st).2 = slept st ++ sl
        ∧ Forall (λ d, 0 ≤ d)%Z sl ∧ (sumZ sl ≤ maxBackoffDuration)%Z.
Proof.
  pose proof (doWithRetry_retryLoop c method path body k st) as Hrun.
  destruct (doWithRetry c method path body k st) as [r st'].
  apply retryLoop_slept in Hrun as (sl & ? & ? & ?); [|by vm_compute..].
  exists sl. split_and!; [done..|lia].
Qed.

(** A GET always reaches the transport. *)
Lemma wireBody_GET body : wireBody "GET" body = Some None.
Proof. done. Qed.

(** ** C4 and C5 *)

(** C4: when the transport signals a rate limit on the first two attempts
    of a request and answers the third, [doWithRetry] returns that answer
    after exactly two sleeps, of [initialBackoff] (one second) and of twice
    that, and after exactly three calls of the transport. *)
Theorem C4_two_rate_limits_then_success
    c method path body k w st e1 remote1 e2 remote2 v remote3 :
  wireBody method body = Some w →
  rest_do (remote st) method path w k = (inl e1, remote1) →
  isRateLimitError (Some e1) = true →
  rest_do remote1 method path w k = (inl e2, remote2) →
  isRateLimitError (Some e2) = true →
  rest_do remote2 method path w k = (inr v, remote3) →
  ∃ st', doWithRetry c method path body k st = (inr v, st')
         ∧ slept st' = slept st ++ [initialBackoff; (2 * initialBackoff)%Z]
         ∧ initialBackoff = 1000000000%Z
         ∧ requests st' = requests st ++ replicate 3 (method, path)
         ∧ remote st' = remote3.
Proof.
  intros Hw H1 Hrl1 H2 Hrl2 H3.
  unfold doWithRetry, retryFuel.
  erewrite retryLoop_retry; [|done..|by vm_compute].
  erewrite retryLoop_retry; [|done..|by vm_compute].
  erewrite retryLoop_done; [|done..].
  eexists. split; [reflexivity|].
  repeat first [rewrite slept_responded | rewrite slept_waitBeforeRetry
               | rewrite requests_responded | rewrite requests_waitBeforeRetry].
  rewrite <-!app_assoc. split_and!.
  - f_equal; by vm_compute.
  - reflexivity.
  - done.
  - by destruct (responded_fields c method path remote3
                   (waitBeforeRetry (nextBackoff initialBackoff 0).1
                      (responded c method path remote2
                         (waitBeforeRetry initialBackoff
                            (responded c method path remote1 st)))))
      as (_ & _ & _ & _ & ?).
Qed.

(** The sleeps of a run that is rate limited throughout, in seconds. *)
Definition fullSchedule : list Z := [1; 2; 4; 8; 16; 29]%Z.

(** C5: [doWithRetry] terminates on every sequence of transport
    responses (seven iterations suffice, and more fuel changes nothing);
    the sleeps of a run never add up to more than [maxBackoffDuration], one
    minute; an error that is not a rate limit is returned at once, at
    whichever iteration it arrives, without a sleep after it; and when the
    transport is rate limited throughout, the run sleeps 1, 2, 4, 8, 16 and
    29 seconds, one minute in all, and then fails with the
    rate-limit-exceeded error that reports that minute. *)
Theorem C5_doWithRetry_terminates_within_budget c method path body k st :
  (∀ n, retryLoop (retryFuel + n) c method path body k initialBackoff 0 st
        = Some (doWithRetry c method path body k st))
  ∧ (∃ sl, slept (doWithRetry c method path body k st).2 = slept st ++ sl
           ∧ Forall (λ d, 0 ≤ d)%Z sl
           ∧ (sumZ sl ≤ maxBackoffDuration)%Z
           ∧ maxBackoffDuration = 60000000000%Z)
  ∧ (∀ fuel backoff totalWait st1 w err remote',
       wireBody method body = Some w →
       rest_do (remote st1) method path w k = (inl err, remote') →
       isRateLimitError (Some err) = false →
       retryLoop (S fuel) c method path body k backoff totalWait st1
       = Some (inl err, responded c method path remote' st1)
       ∧ slept (responded c method path remote' st1) = slept st1)
  ∧ (∀ w err remote',
       wireBody method body = Some w →
       rest_do (remote st) method path w k = (inl err, remote') →
       isRateLimitError (Some err) = false →
       doWithRetry c method path body k st
       = (inl err, responded c method path remote' st))
  ∧ (∀ w,
       wireBody method body = Some w →
       (∀ r, ∃ e r', rest_do r method path w k = (inl e, r')
                     ∧ isRateLimitError (Some e) = true) →
       ∃ e st',
         doWithRetry c method path body k st
         = (inl (rateLimitExceeded maxBackoffDuration e), st')
         ∧ isRateLimitError (Some e) = true
         ∧ Error (rateLimitExceeded maxBackoffDuration e)
           = "rate limit exceeded, waited " +:+ duration_String maxBackoffDuration
             +:+ ": " +:+ Error e
         ∧ slept st' = slept st ++ map (λ s, s * second)%Z fullSchedule
         ∧ sumZ (map (λ s, s * second)%Z fullSchedule) = maxBackoffDuration
         ∧ requests st' = requests st ++ replicate 7 (method, path)).
Proof.
  split_and!.
  - intros n. eapply retryLoop_fuel_mono; [apply doWithRetry_retryLoop | lia].
  - destruct (doWithRetry_slept c method path body k st) as (sl & ? & ? & ?).
    exists sl. split_and!; done.
  - intros fuel backoff totalWait st1 w err remote' Hw Hr Hrl. split.
    + by eapply retryLoop_abort.
    + apply slept_responded.
  - intros w err remote' Hw Hr Hrl. unfold doWithRetry, retryFuel.
    by erewrite retryLoop_abort.
  - intros w Hw Hall. unfold doWithRetry, retryFuel.
    do 6 (match goal with
          | |- context [retryLoop (S ?n) c method path body k ?bo ?t ?s] =>
              let e := fresh "e" in
              let r := fresh "r" in
              let He := fresh "He" in
              let Hrl := fresh "Hrl" in
              destruct (Hall (remote s)) as (e & r & He & Hrl);
              rewrite (retryLoop_retry n c method path body k w bo t s e r Hw He Hrl)
                by (by vm_compute)
          end).
    match goal with
    | |- context [retryLoop (S ?n) c method path body k ?bo ?t ?s] =>
        destruct (Hall (remote s)) as (elast & rlast & Helast & Hrllast);
        rewrite (retryLoop_exceeded n c method path body k w bo t s elast rlast
                   Hw Helast Hrllast)
          by (by vm_compute)
    end.
    exists elast. eexists. split_and!.
    + cbn [default]. do 3 f_equal; by vm_compute.
    + done.
    + done.
    + repeat first [rewrite slept_responded | rewrite slept_waitBeforeRetry].
      rewrite <-!app_assoc. f_equal; by vm_compute.
    + by vm_compute.
    + repeat first [rewrite requests_responded | rewrite requests_waitBeforeRetry].
      rewrite <-!app_assoc. done.
Qed.


(** ** Reference resolution: C6 and C7 *)

(** The error of a reference that is neither a local file nor of the
    form owner/repo/path. *)
Definition invalidRemoteFormat (reference : string) : error :=
  errors_New ("reference file '" +:+ reference
              +:+ "' not found locally and invalid remote format (expected owner/repo/path)").

(** The remote fallback of [ResolveReferenceFile]. *)
Definition remoteFallback (client : Client) (refOwner refRepo refPath : string)
    (st : State) : outcome (error + string) * State :=
  match GetRemoteFileContent client refOwner refRepo refPath st with
  | (inl err, st) =>
      (Returned (inl (fmt_Errorf_w "failed to fetch remote reference file" err)), st)
  | (inr content, st) => (Returned (inr content), st)
  end.

(** C6: a reference that names a readable local file resolves to that
    file's bytes and leaves the whole state as it was, so that no request
    is issued, whatever the reference string looks like; a local read error
    other than does-not-exist is returned as an error, again without a
    request; a request is issued only if the local read failed with
    does-not-exist; and with does-not-exist and at least two separators the
    result is that of the remote fetch of the three parts. *)
Theorem C6_local_file_wins reference client st :
  (∀ content, os_ReadFile (fs st) reference = inr content →
     ResolveReferenceFile reference client st = (Returned (inr content), st))
  ∧ (∀ err, os_ReadFile (fs st) reference = inl err → os_IsNotExist err = false →
       ResolveReferenceFile reference client st
       = (Returned (inl (fmt_Errorf_w "failed to read local reference file" err)), st))
  ∧ (requests (ResolveReferenceFile reference client st).2 ≠ requests st →
       ∃ err, os_ReadFile (fs st) reference = inl err ∧ os_IsNotExist err = true)
  ∧ (∀ err c, os_ReadFile (fs st) reference = inl err → os_IsNotExist err = true →
       2 ≤ GoStrings.CountByte reference "/" →
       client = Some c →
       ∃ refOwner refRepo refPath,
         GoStrings.SplitN reference "/" 3 = [refOwner; refRepo; refPath]
         ∧ ResolveReferenceFile reference client st
           = remoteFallback c refOwner refRepo refPath st).
Proof.
  unfold ResolveReferenceFile. split_and!.
  - by intros content ->.
  - by intros err -> ->.
  - destruct (os_ReadFile (fs st) reference) as [err|content]; [|done].
    destruct (os_IsNotExist err) eqn:Hne; [eauto|done].
  - intros err c -> -> Hcount ->. cbn [negb].
    pose proof (GoStrings.SplitN_slash_3_length reference) as Hlen.
    rewrite Nat.min_l in Hlen by done.
    destruct (GoStrings.SplitN reference "/" 3) as [|o [|r [|p [|? ?]]]]; try done.
    exists o, r, p. split; [done|].
    rewrite bool_decide_eq_false_2 by (cbn; lia). done.
Qed.

(** C7: a reference with fewer than two ["/"] for which the local read
    fails with does-not-exist fails with the format error that names the
    expected owner/repo/path form; the state is left as it was, so no
    request is issued, and the error is not the wrapped error of a failed
    fetch. *)
Theorem C7_too_few_separators_is_format_error reference client st err :
  os_ReadFile (fs st) reference = inl err →
  os_IsNotExist err = true →
  GoStrings.CountByte reference "/" < 2 →
  ResolveReferenceFile reference client st
  = (Returned (inl (invalidRemoteFormat reference)), st)
  ∧ requests (ResolveReferenceFile reference client st).2 = requests st
  ∧ (∀ e, invalidRemoteFormat reference
          ≠ fmt_Errorf_w "failed to fetch remote reference file" e)
  ∧ Error (invalidRemoteFormat reference)
    = "reference file '" +:+ reference
      +:+ "' not found locally and invalid remote format (expected owner/repo/path)".
Proof.
  intros Hread Hne Hcount.
  assert (ResolveReferenceFile reference client st
          = (Returned (inl (invalidRemoteFormat reference)), st)) as Hres.
  { unfold ResolveReferenceFile. rewrite Hread, Hne. cbn [negb].
    rewrite bool_decide_eq_true_2; [done|].
    rewrite GoStrings.SplitN_slash_3_length. lia. }
  rewrite Hres. done.
Qed.

(** ** The cache: which operations use it (C3) *)

(** The type assertions on a cached value. *)
Definition asRepository (a : any) : option Repository.t :=
  match a with AnyRepository r => Some r | _ => None end.
Definition asRulesets (a : any) : option (list Ruleset.t) :=
  match a with AnyRulesets l => Some l | _ => None end.
Definition asRuleset (a : any) : option Ruleset.t :=
  match a with AnyRuleset r => Some r | _ => None end.
Definition asBytes (a : any) : option string :=
  match a with AnyBytes b => Some b | _ => None end.

(** [op] is a read that goes through the cache under [key]:
    - a value of the right type under [key] is returned as it is, and the
      state, the list of requests included, stays as it was;
    - without one, a successful read has issued at least one GET of [path]
      and has stored its result under [key];
    - a failed read leaves the cache as it was. *)
Definition cached_under {A} (key path : string) (inj : A → any) (proj : any → option A)
    (op : State → (error + A) * State) : Prop :=
  (∀ st v, cache st !! key ≫= proj = Some v → op st = (inr v, st))
  ∧ (∀ st v st', cache st !! key ≫= proj = None → op st = (inr v, st') →
       cache st' = <[key := inj v]> (cache st)
       ∧ ∃ n, 1 ≤ n ∧ requests st' = requests st ++ replicate n ("GET", path))
  ∧ (∀ st e st', op st = (inl e, st') → cache st' = cache st).

(** [op] has nothing to do with the cache: it leaves the cache as it
    was, and with any other cache in place it returns the same result and
    has the same effects. *)
Definition cache_blind {A} (op : State → A * State) : Prop :=
  (∀ st, cache (op st).2 = cache st)
  ∧ (∀ st m, op (set_cache m st) = prod_map id (set_cache m) (op st)).

(** What the claim says of a read: once it has succeeded, reading again
    issues no request. *)
Definition served_from_cache_after_success {A} (op : State → (error + A) * State) : Prop :=
  ∀ st v st', op st = (inr v, st') → requests (op st').2 = requests st'.

Lemma doWithRetry_GET c path k st r st' :
  doWithRetry c "GET" path None k st = (r, st') →
  cache st' = cache st
  ∧ ∃ n, 1 ≤ n ∧ requests st' = requests st ++ replicate n ("GET", path).
Proof.
  intros Hrun.
  pose proof (doWithRetry_frame c "GET" path None k st) as [Hc _].
  destruct (doWithRetry_requests c "GET" path None k st) as (n & Hn & Hpos & _).
  rewrite Hrun in Hc, Hn. cbn in Hc, Hn. split; [done|].
  exists n. split; [|done]. apply Hpos. by eexists.
Qed.

Lemma cached_under_served {A} key path inj proj (op : State → (error + A) * State) :
  (∀ v, proj (inj v) = Some v) →
  cached_under key path inj proj op → served_from_cache_after_success op.
Proof.
  intros Hproj (Hhit & Hmiss & _) st v st' Hop.
  destruct (cache st !! key ≫= proj) as [v'|] eqn:Hlook.
  - rewrite (Hhit _ _ Hlook) in Hop. simplify_eq. by rewrite (Hhit _ _ Hlook).
  - destruct (Hmiss _ _ _ Hlook Hop) as [Hc _].
    assert (cache st' !! key ≫= proj = Some v) as Hlook'.
    { rewrite Hc, lookup_insert_eq. cbn. apply Hproj. }
    by rewrite (Hhit _ _ Hlook').
Qed.

Local Ltac cache_hit :=
  let st := fresh "st" in
  let v := fresh "v" in
  intros st v;
  match goal with
  | |- context [cache st !! ?key] => destruct (cache st !! key) as [[]|]
  end; cbn; intros; simplify_eq/=; done.

Local Ltac fetch_facts :=
  match goal with
  | H : doWithRetry ?c "GET" ?p None ?k ?st = _ |- _ =>
      apply (doWithRetry_GET c p k st) in H as [? ?]
  end.

Local Ltac cache_miss :=
  let st := fresh "st" in
  let v := fresh "v" in
  let st' := fresh "st'" in
  intros st v st';
  match goal with
  | |- context [cache st !! ?key] => destruct (cache st !! key) as [[]|]
  end; cbn; intros; simplify_eq/=;
  repeat case_match; simplify_eq/=; fetch_facts;
  (split; [unfold setCache; cbn; congruence | done]).

Local Ltac cache_fail :=
  let st := fresh "st" in
  let e := fresh "e" in
  let st' := fresh "st'" in
  intros st e st';
  match goal with
  | |- context [cache st !! ?key] => destruct (cache st !! key) as [[]|]
  end; cbn; intros; simplify_eq/=;
  repeat case_match; simplify_eq/=; fetch_facts; done.

Lemma GetRepository_cached c :
  cached_under ("repo:" +:+ owner c +:+ "/" +:+ repo c)
               ("repos/" +:+ owner c +:+ "/" +:+ repo c)
               AnyRepository asRepository (GetRepository c).
Proof.
  unfold cached_under, GetRepository, getFromCache.
  split_and!; [cache_hit | cache_miss | cache_fail].
Qed.

Lemma GetRulesets_cached c :
  cached_under ("rulesets:" +:+ owner c +:+ "/" +:+ repo c)
               ("repos/" +:+ owner c +:+ "/" +:+ repo c +:+ "/rulesets")
               AnyRulesets asRulesets (GetRulesets c).
Proof.
  unfold cached_under, GetRulesets, getFromCache.
  split_and!; [cache_hit | cache_miss | cache_fail].
Qed.

Lemma GetRuleset_cached c id :
  cached_under ("ruleset:" +:+ owner c +:+ "/" +:+ repo c +:+ "/" +:+ pretty id)
               ("repos/" +:+ owner c +:+ "/" +:+ repo c +:+ "/rulesets/" +:+ pretty id)
               AnyRuleset asRuleset (GetRuleset c id).
Proof.
  unfold cached_under, GetRuleset, getFromCache.
  split_and!; [cache_hit | cache_miss | cache_fail].
Qed.

Lemma GetFileContent_cached c filePath :
  cached_under ("file:" +:+ owner c +:+ "/" +:+ repo c +:+ "/" +:+ filePath)
               ("repos/" +:+ owner c +:+ "/" +:+ repo c +:+ "/contents/" +:+ filePath)
               AnyBytes asBytes (GetFileContent c filePath).
Proof.
  unfold cached_under, GetFileContent, fetchContent, getFromCache.
  split_and!; [cache_hit | cache_miss | cache_fail].
Qed.

Lemma GetRemoteFileContent_cached c o r filePath :
  cached_under ("remote-file:" +:+ o +:+ "/" +:+ r +:+ "/" +:+ filePath)
               ("repos/" +:+ o +:+ "/" +:+ r +:+ "/contents/" +:+ filePath)
               AnyBytes asBytes (GetRemoteFileContent c o r filePath).
Proof.
  unfold cached_under, GetRemoteFileContent, fetchContent, getFromCache.
  split_and!; [cache_hit | cache_miss | cache_fail].
Qed.

Local Ltac blind :=
  split; intros st; [|intros m];
  [ match goal with
    | |- context [doWithRetry ?c ?me ?p ?b ?k st] =>
        pose proof (doWithRetry_frame c me p b k st) as [? _];
        destruct (doWithRetry c me p b k st) as [[?|?] ?]
    end; cbn in *; repeat case_match; done
  | rewrite doWithRetry_set_cache;
    match goal with
    | |- context [doWithRetry ?c ?me ?p ?b ?k st] =>
        destruct (doWithRetry c me p b k st) as [[?|?] ?]
    end; cbn; repeat case_match; done ].

Lemma doWrite_blind c method path body : cache_blind (doWrite c method path body).
Proof. unfold cache_blind, doWrite. blind. Qed.

Lemma GetWorkflowPermissions_blind c : cache_blind (GetWorkflowPermissions c).
Proof. unfold cache_blind, GetWorkflowPermissions. blind. Qed.

Lemma GetVulnerabilityAlertsEnabled_blind c : cache_blind (GetVulnerabilityAlertsEnabled c).
Proof. unfold cache_blind, GetVulnerabilityAlertsEnabled. blind. Qed.

Lemma GetAutomatedSecurityFixes_blind c : cache_blind (GetAutomatedSecurityFixes c).
Proof. unfold cache_blind, GetAutomatedSecurityFixes. blind. Qed.

Lemma CreateRuleset_blind c req : cache_blind (CreateRuleset c req).
Proof. unfold cache_blind, CreateRuleset. blind. Qed.


(** [op] goes to the network on every call. *)
Definition always_fetches {A} (path : string) (op : State → A * State) : Prop :=
  ∀ st, ∃ n, 1 ≤ n ∧ requests (op st).2 = requests st ++ replicate n ("GET", path).

Local Ltac fetches :=
  let st := fresh "st" in
  let n := fresh "n" in
  let Hn := fresh "Hn" in
  let Hpos := fresh "Hpos" in
  intros st;
  match goal with
  | |- context [doWithRetry ?c ?me ?p ?b ?k st] =>
      destruct (doWithRetry_requests c me p b k st) as (n & Hn & Hpos & _);
      destruct (doWithRetry c me p b k st) as [[?|?] ?]
  end; cbn in *; repeat case_match; exists n; (split; [apply Hpos; by eexists | done]).

(** C3, as the code has it: five of the eight reads (repository,
    rulesets, ruleset by id, file content, remote file content) consult the
    cache under their key before any request and store their result there
    on success; the other three (workflow permissions, vulnerability-alert
    status, automated-security-fix status) go to the network on every call
    and neither read nor change the cache; and no write reads or changes
    the cache. *)
Theorem C3_which_operations_use_the_cache c :
  cached_under ("repo:" +:+ owner c +:+ "/" +:+ repo c)
               ("repos/" +:+ owner c +:+ "/" +:+ repo c)
               AnyRepository asRepository (GetRepository c)
  ∧ cached_under ("rulesets:" +:+ owner c +:+ "/" +:+ repo c)
                 ("repos/" +:+ owner c +:+ "/" +:+ repo c +:+ "/rulesets")
                 AnyRulesets asRulesets (GetRulesets c)
  ∧ (∀ id, cached_under
             ("ruleset:" +:+ owner c +:+ "/" +:+ repo c +:+ "/" +:+ pretty id)
             ("repos/" +:+ owner c +:+ "/" +:+ repo c +:+ "/rulesets/" +:+ pretty id)
             AnyRuleset asRuleset (GetRuleset c id))
  ∧ (∀ filePath, cached_under
                   ("file:" +:+ owner c +:+ "/" +:+ repo c +:+ "/" +:+ filePath)
                   ("repos/" +:+ owner c +:+ "/" +:+ repo c +:+ "/contents/" +:+ filePath)
                   AnyBytes asBytes (GetFileContent c filePath))
  ∧ (∀ o r filePath, cached_under
                       ("remote-file:" +:+ o +:+ "/" +:+ r +:+ "/" +:+ filePath)
                       ("repos/" +:+ o +:+ "/" +:+ r +:+ "/contents/" +:+ filePath)
                       AnyBytes asBytes (GetRemoteFileContent c o r filePath))
  ∧ (cache_blind (GetWorkflowPermissions c)
     ∧ always_fetches
         ("repos/" +:+ owner c +:+ "/" +:+ repo c +:+ "/actions/permissions/workflow")
         (GetWorkflowPermissions c))
  ∧ (cache_blind (GetVulnerabilityAlertsEnabled c)
     ∧ always_fetches
         ("repos/" +:+ owner c +:+ "/" +:+ repo c +:+ "/vulnerability-alerts")
         (GetVulnerabilityAlertsEnabled c))
  ∧ (cache_blind (GetAutomatedSecurityFixes c)
     ∧ always_fetches
         ("repos/" +:+ owner c +:+ "/" +:+ repo c +:+ "/automated-security-fixes")
         (GetAutomatedSecurityFixes c))
  ∧ cache_blind (EnableVulnerabilityAlerts c)
  ∧ cache_blind (DisableVulnerabilityAlerts c)
  ∧ cache_blind (EnableAutomatedSecurityFixes c)
  ∧ cache_blind (DisableAutomatedSecurityFixes c)
  ∧ (∀ req, cache_blind (UpdateRepository c req))
  ∧ (∀ canApprove, cache_blind (UpdateWorkflowPermissions c canApprove))
  ∧ (∀ req, cache_blind (CreateRuleset c req))
  ∧ (∀ id req, cache_blind (UpdateRuleset c id req)).
Proof.
  split_and!; intros;
    try apply doWrite_blind;
    auto using GetRepository_cached, GetRulesets_cached, GetRuleset_cached,
      GetFileContent_cached, GetRemoteFileContent_cached,
      GetWorkflowPermissions_blind, GetVulnerabilityAlertsEnabled_blind,
      GetAutomatedSecurityFixes_blind, CreateRuleset_blind.
  - unfold always_fetches, GetWorkflowPermissions. fetches.
  - unfold always_fetches, GetVulnerabilityAlertsEnabled. fetches.
  - unfold always_fetches, GetAutomatedSecurityFixes. fetches.
Qed.


End Client.

Arguments doWithRetry : simpl never.

(** ** Concrete collaborators, to run the definitions on *)

(** Go's zero value of each decode target. *)
Definition zeroRepository : Repository.t :=
  Repository.mk "" "" "" false false false false false "" false false false false false
                false.

Definition zeroRuleset : Ruleset.t := Ruleset.mk 0 "" "" "" None None None.

Definition zeroValue (k : kind) : decoded k :=
  match k with
  | KNone => tt
  | KRepository => zeroRepository
  | KWorkflowPermissions => WorkflowPermissions.mk "" false
  | KRulesets => []
  | KRuleset => zeroRuleset
  | KFileContent => FileContent.mk "" "" 0 "" "" "" "" "" "" "" ""
  | KAutomatedSecurityFixes => AutomatedSecurityFixes.mk false false
  end.

(** A transport that answers its [n]-th call with [script n] ([None]:
    success, with the zero value of the target), over a file system that
    never changes and reads as [files] says. *)
Definition scripted (script : nat → option error) (files : string → error + string)
  : Externals :=
  {| Remote := nat;
     FS := unit;
     rest_do := λ n _ _ _ k,
       (match script n with
        | Some e => inl e
        | None => inr (zeroValue k)
        end, S n);
     json_Encode := λ _, inr "{}";
     json_Marshal := λ _, inr "{}";
     json_Unmarshal_Ruleset := λ _, inr zeroRuleset;
     base64_DecodeString := inr;
     duration_String := λ d, pretty d +:+ "ns";
     os_ReadFile := λ _ path, files path;
     os_Getwd := λ _, inr "/work";
     os_MkdirAll := λ f _, (None, f);
     os_WriteFile := λ f _ _, (None, f);
     filepath_IsAbs := String.prefix "/";
     filepath_Join := λ dir name, dir +:+ "/" +:+ name;
     filepath_Dir := id;
     map_range_order := id |}.

Definition noFiles (path : string) : error + string := inl (PathError "open" path ENOENT).

(** The state a fresh client starts in, over [scripted]. *)
Definition freshState (script : nat → option error) (files : string → error + string)
  : @State (scripted script files) :=
  @Build_State (scripted script files) ∅ 0 tt [] [] [].

Definition acme : Client := {| owner := "acme"; repo := "app"; verbose := false |}.

Definition rateLimited : error := errors_New "HTTP 403: API rate limit exceeded".

(** Rate limited on the first two calls, fine from the third on. *)
Definition twoRateLimits (n : nat) : option error :=
  if bool_decide (n < 2) then Some rateLimited else None.

Definition alwaysFine (n : nat) : option error := None.
Definition alwaysRateLimited (n : nat) : option error := Some rateLimited.

(** *** C3 on concrete inputs *)

(** The claim's sentence on reads fails for the workflow permissions: the
    first read succeeds and stores nothing, and the second read issues a
    request again. *)
Lemma C3_workflow_permissions_not_cached :
  ¬ (∀ (E : Externals) (c : Client),
       served_from_cache_after_success (GetWorkflowPermissions c)).
Proof.
  intros Hclaim.
  pose proof (Hclaim (scripted alwaysFine noFiles) acme
                (freshState alwaysFine noFiles)
                (WorkflowPermissions.mk "" false)
                (GetWorkflowPermissions acme (freshState alwaysFine noFiles)).2
                eq_refl) as Hsame.
  vm_compute in Hsame. discriminate Hsame.
Qed.

Lemma C3_witness :
  let st1 := (@GetRepository (scripted alwaysFine noFiles) acme
                (freshState alwaysFine noFiles)).2 in
  requests st1 = [("GET", "repos/acme/app")]
  ∧ @GetRepository (scripted alwaysFine noFiles) acme st1 = (inr zeroRepository, st1).
Proof.
  split; [reflexivity|].
  apply (proj1 (proj1 (@C3_which_operations_use_the_cache
                         (scripted alwaysFine noFiles) acme))).
  reflexivity.
Defined.

(** *** C4 on a concrete input *)

Lemma C4_witness :
  ∃ st', @doWithRetry (scripted twoRateLimits noFiles) acme "GET" "repos/acme/app" None
           KRepository (freshState twoRateLimits noFiles)
         = (inr zeroRepository, st')
         ∧ slept st' = [] ++ [initialBackoff; (2 * initialBackoff)%Z]
         ∧ initialBackoff = 1000000000%Z
         ∧ requests st' = [] ++ replicate 3 ("GET", "repos/acme/app")
         ∧ remote st' = 3.
Proof.
  apply (@C4_two_rate_limits_then_success (scripted twoRateLimits noFiles) acme
           "GET" "repos/acme/app" None KRepository None
           (freshState twoRateLimits noFiles)
           rateLimited 1 rateLimited 2 zeroRepository 3); reflexivity.
Defined.

(** *** C5 on a concrete input *)

Lemma C5_witness :
  ∃ e st', @doWithRetry (scripted alwaysRateLimited noFiles) acme "GET" "repos/acme/app"
             None KRepository (freshState alwaysRateLimited noFiles)
           = (inl (@rateLimitExceeded (scripted alwaysRateLimited noFiles)
                     maxBackoffDuration e), st')
           ∧ slept st' = map (λ s, s * second)%Z fullSchedule
           ∧ requests st' = replicate 7 ("GET", "repos/acme/app").
Proof.
  destruct (@C5_doWithRetry_terminates_within_budget
              (scripted alwaysRateLimited noFiles) acme "GET" "repos/acme/app" None
              KRepository (freshState alwaysRateLimited noFiles))
    as (_ & _ & _ & _ & Hpersist).
  destruct (Hpersist None eq_refl) as (e & st' & Hrun & _ & _ & Hslept & _ & Hreq).
  - intros r. exists rateLimited, (S r). split; reflexivity.
  - exists e, st'. split_and!; [exact Hrun | exact Hslept | exact Hreq].
Defined.

(** *** C6 and C7 on concrete inputs *)

(** A local file whose name also reads as owner/repo/path. *)
Definition oneLocalFile (path : string) : error + string :=
  if bool_decide (path = "acme/policies/LICENSE") then inr "MIT License"
  else inl (PathError "open" path ENOENT).

Lemma C6_witness :
  GoStrings.SplitN "acme/policies/LICENSE" "/" 3 = ["acme"; "policies"; "LICENSE"]
  ∧ @ResolveReferenceFile (scripted alwaysFine oneLocalFile) "acme/policies/LICENSE"
      (Some acme) (freshState alwaysFine oneLocalFile)
    = (Returned (inr "MIT License"), freshState alwaysFine oneLocalFile).
Proof.
  split; [reflexivity|].
  apply (proj1 (@C6_local_file_wins (scripted alwaysFine oneLocalFile)
                  "acme/policies/LICENSE" (Some acme)
                  (freshState alwaysFine oneLocalFile))).
  reflexivity.
Defined.

Lemma C7_witness :
  @ResolveReferenceFile (scripted alwaysFine noFiles) "docs/ruleset.json" (Some acme)
    (freshState alwaysFine noFiles)
  = (Returned (inl (invalidRemoteFormat "docs/ruleset.json")),
     freshState alwaysFine noFiles).
Proof.
  apply (@C7_too_few_separators_is_format_error (scripted alwaysFine noFiles)
           "docs/ruleset.json" (Some acme) (freshState alwaysFine noFiles)
           (PathError "open" "docs/ruleset.json" ENOENT)).
  - reflexivity.
  - reflexivity.
  - vm_compute. lia.
Defined.


End Github.

(* ===================================================================== *)
(** * Package checks                                                      *)
(* ===================================================================== *)

Module Checks.
Import Github.

(** [type CheckType string] *)
Definition CheckTypeSettings : string := "settings".
Definition CheckTypeActions : string := "actions".
Definition CheckTypeRulesets : string := "rulesets".
Definition CheckTypeFiles : string := "files".

(** Data keys for passing structured data from checks to fixers. *)
Definition DataKeyFileName : string := "file_name".
Definition DataKeyReference : string := "reference".
Definition DataKeyRulesetName : string := "ruleset_name".
Definition DataKeySetting : string := "setting".

Module Issue.
Record t := mk {
  Type_ : string;
  Name : string;
  Message : string;
  Fixable : bool;
  Data : gmap string string;
}.
End Issue.

(** [m[key]] on a [map[string]string]: the empty string when absent. *)
Definition dataAt (m : gmap string string) (key : string) : string := default "" (m !! key).

(** [len(s)] and the elements of a slice that may be nil. *)
Definition sliceLen {A} (s : option (list A)) : nat := length (default [] s).
Definition elems {A} (s : option (list A)) : list A := default [] s.

(** ** Ruleset comparison *)

(** The loop of [stringSlicesEqual] over two slices of equal length. *)
Fixpoint sameStrings (a b : list string) : bool :=
  match a, b with
  | x :: a', y :: b' => if bool_decide (x ≠ y) then false else sameStrings a' b'
  | _, _ => true
  end.

Definition stringSlicesEqual (a b : option (list string)) : bool :=
  if bool_decide (sliceLen a ≠ sliceLen b) then false
  else sameStrings (elems a) (elems b).

(** [fmt.Sprintf("%d:%s:%s", actor.ActorID, actor.ActorType, actor.BypassMode)] *)
Definition actorKey (actor : BypassActor.t) : string :=
  pretty (BypassActor.ActorID actor) +:+ ":" +:+ BypassActor.ActorType actor
  +:+ ":" +:+ BypassActor.BypassMode actor.

Definition bypassActorsMatch (actual expected : option (list BypassActor.t)) : bool :=
  if bool_decide (sliceLen actual ≠ sliceLen expected) then false
  else
    let expectedSet : gmap string bool :=
      foldl (λ set actor, <[actorKey actor := true]> set) ∅ (elems expected) in
    forallb (λ actor, default false (expectedSet !! actorKey actor)) (elems actual).

Definition conditionsMatch (actual expected : option RulesetConditions.t) : bool :=
  match actual, expected with
  | None, None => true
  | None, _ | _, None => false
  | Some a, Some e =>
      match RulesetConditions.RefName a, RulesetConditions.RefName e with
      | None, None => true
      | None, _ | _, None => false
      | Some ra, Some re =>
          if negb (stringSlicesEqual (RefNameCondition.Include ra)
                                     (RefNameCondition.Include re)) then false
          else if negb (stringSlicesEqual (RefNameCondition.Exclude ra)
                                          (RefNameCondition.Exclude re)) then false
          else true
      end
  end.

Section RulesetsCheck.
Context `{!Externals}.

Definition ruleParametersMatch (actual expected : option (gmap string json)) : bool :=
  match actual, expected with
  | None, None => true
  | None, Some e => bool_decide (size e = 0)
  | Some a, None => bool_decide (size a = 0)
  | Some a, Some e =>
      match json_Marshal a with
      | inl _ => false
      | inr actualJSON =>
          match json_Marshal e with
          | inl _ => false
          | inr expectedJSON => bool_decide (actualJSON = expectedJSON)
          end
      end
  end.

(** [byType[rule.Type] = rule] for each rule in turn: a later rule of the
    same type replaces an earlier one. *)
Definition rulesByType (rules : list RulesetRule.t) : gmap string RulesetRule.t :=
  foldl (λ byType rule, <[RulesetRule.Type_ rule := rule]> byType) ∅ rules.

(** The two [range] loops return [false] at the first entry that fails;
    which entry a map yields first does not change the result. *)
Definition rulesMatch (actual expected : option (list RulesetRule.t)) : bool :=
  if bool_decide (sliceLen actual ≠ sliceLen expected) then false
  else
    let actualByType := rulesByType (elems actual) in
    let expectedByType := rulesByType (elems expected) in
    forallb (λ '(ruleType, expectedRule),
               match actualByType !! ruleType with
               | None => false
               | Some actualRule =>
                   ruleParametersMatch (RulesetRule.Parameters actualRule)
                                       (RulesetRule.Parameters expectedRule)
               end)
            (map_to_list expectedByType)
    && forallb (λ '(ruleType, _), bool_decide (is_Some (expectedByType !! ruleType)))
               (map_to_list actualByType).

Definition rulesetsMatch (actual expected : Ruleset.t) : bool :=
  if bool_decide (Ruleset.Enforcement actual ≠ Ruleset.Enforcement expected) then false
  else if bool_decide (Ruleset.Target actual ≠ Ruleset.Target expected) then false
  else if negb (conditionsMatch (Ruleset.Conditions actual) (Ruleset.Conditions expected))
  then false
  else if negb (rulesMatch (Ruleset.Rules actual) (Ruleset.Rules expected)) then false
  else if negb (bypassActorsMatch (Ruleset.BypassActors actual)
                                  (Ruleset.BypassActors expected)) then false
  else true.

(** ** C10 *)

Definition team (id : Z) : BypassActor.t := BypassActor.mk id "Team" "always".

(** A branch ruleset with the given bypass actors and nothing else. *)
Definition rulesetWith (actors : list BypassActor.t) : Ruleset.t :=
  Ruleset.mk 0 "main" "branch" "active" None None (Some actors).

(** C10: there are two bypass-actor lists of equal length that are not
    equal as multisets, the actual one repeating an actor and the expected
    one holding an actor the actual one lacks, which [bypassActorsMatch],
    and with it [rulesetsMatch], report as matching. *)
Theorem C10_bypass_actors_false_match :
  ∃ actual expected : list BypassActor.t,
    length actual = length expected
    ∧ ¬ (actual ≡ₚ expected)
    ∧ (∃ a, actual = [a; a])
    ∧ (∃ b, b ∈ expected ∧ b ∉ actual)
    ∧ bypassActorsMatch (Some actual) (Some expected) = true
    ∧ rulesetsMatch (rulesetWith actual) (rulesetWith expected) = true.
Proof.
  exists [team 1; team 1], [team 1; team 2].
  assert (team 2 ∉ [team 1; team 1]) as Hnot.
  { intros Hin. apply elem_of_cons in Hin as [Heq|Hin]; [done|].
    apply elem_of_cons in Hin as [Heq|Hin]; [done|]. by apply elem_of_nil in Hin. }
  split_and!.
  - done.
  - intros Hperm. apply Hnot. rewrite Hperm. set_solver.
  - by exists (team 1).
  - exists (team 2). split; [set_solver | done].
  - by vm_compute.
  - by vm_compute.
Qed.

End RulesetsCheck.

End Checks.

(* ===================================================================== *)
(** * Package fix                                                         *)
(* ===================================================================== *)

Module Fix.
Import GoRuntime Github Checks.

(** [type Result struct { Issue checks.Issue; Fixed bool; Error error }] *)
Module Result.
Record t := mk {
  Issue : Issue.t;
  Fixed : bool;
  Error : option error;
}.
End Result.

(** What a Go function returning a [Result] pointer and an [error] returns. *)
Definition fixReturn : Type := option Result.t * option error.

Definition failedResult (issue : Issue.t) (err : error) : fixReturn :=
  (Some (Result.mk issue false (Some err)), None).

Definition successResult (issue : Issue.t) : fixReturn :=
  (Some (Result.mk issue true None), None).

Record SettingsFixer := {
  settings_client : option Client;
  settings_config : option Config.SettingsConfig;
  settings_verbose : bool;
}.

Record ActionsFixer := {
  actions_client : option Client;
  actions_config : option Config.ActionsConfig;
  actions_verbose : bool;
}.

Record RulesetsFixer := {
  rulesets_client : option Client;
  rulesets_configs : option (list Config.RulesetConfig.t);
  rulesets_verbose : bool;
}.

Record FilesFixer := {
  files_client : option Client;
  files_configs : option (list Config.FileConfig.t);
  files_verbose : bool;
}.

Definition NewSettingsFixer (client : option Client) (cfg : option Config.SettingsConfig)
    (verbose : bool) : SettingsFixer :=
  {| settings_client := client; settings_config := cfg; settings_verbose := verbose |}.

Definition NewActionsFixer (client : option Client) (cfg : option Config.ActionsConfig)
    (verbose : bool) : ActionsFixer :=
  {| actions_client := client; actions_config := cfg; actions_verbose := verbose |}.

Definition NewRulesetsFixer (client : option Client)
    (cfgs : option (list Config.RulesetConfig.t)) (verbose : bool) : RulesetsFixer :=
  {| rulesets_client := client; rulesets_configs := cfgs; rulesets_verbose := verbose |}.

Definition NewFilesFixer (client : option Client)
    (cfgs : option (list Config.FileConfig.t)) (verbose : bool) : FilesFixer :=
  {| files_client := client; files_configs := cfgs; files_verbose := verbose |}.

(** [FixableCount] *)
Definition FixableCount (issues : list Issue.t) : nat :=
  length (filter (λ issue, Issue.Fixable issue = true) issues).

Section Fixers.
Context `{!Externals}.

(** ** Code that acts on the state and may panic *)

Definition Fx (A : Type) : Type := State → outcome A * State.

#[local] Instance Fx_ret : MRet Fx := λ A a st, (Returned a, st).

#[local] Instance Fx_bind : MBind Fx := λ A B k m st,
  match m st with
  | (Returned a, st') => k a st'
  | (Panicked msg, st') => (Panicked msg, st')
  end.

(** Dereferencing [p]: a nil pointer panics. *)
Definition deref {A} (p : option A) : Fx A :=
  match p with
  | Some a => mret a
  | None => λ st, (Panicked nilDereference, st)
  end.

(** A call of a function that cannot panic. *)
Definition call {A} (op : State → A * State) : Fx A :=
  λ st, let '(a, st') := op st in (Returned a, st').

(** [client.Method(...)] for a method that reads a field of its receiver
    before anything else. *)
Definition callOn {A} (client : option Client) (method : Client → State → A * State)
    : Fx A :=
  c ← deref client; call (method c).

(** ** SettingsFixer *)

Definition fixActionsApprove (f : SettingsFixer) (issue : Issue.t) : Fx fixReturn :=
  cfg ← deref (settings_config f);
  match Config.AllowActionsToApprovePRs cfg with
  | None => mret (failedResult issue (errors_New "allow_actions_to_approve_prs not configured"))
  | Some canApprove =>
      err ← callOn (settings_client f) (λ c, UpdateWorkflowPermissions c canApprove);
      match err with
      | Some err =>
          mret (failedResult issue (fmt_Errorf_w "failed to update workflow permissions" err))
      | None => mret (successResult issue)
      end
  end.

Definition fixDependabotAlerts (f : SettingsFixer) (issue : Issue.t) : Fx fixReturn :=
  cfg ← deref (settings_config f);
  match (Config.Dependabot cfg ≫= Config.Alerts : option bool) with
  | None => mret (failedResult issue (errors_New "dependabot alerts not configured"))
  | Some alerts =>
      err ← (if alerts
             then callOn (settings_client f) EnableVulnerabilityAlerts
             else callOn (settings_client f) DisableVulnerabilityAlerts);
      match err with
      | Some err =>
          mret (failedResult issue (fmt_Errorf_w "failed to update vulnerability alerts" err))
      | None => mret (successResult issue)
      end
  end.

Definition fixDependabotSecurityUpdates (f : SettingsFixer) (issue : Issue.t)
    : Fx fixReturn :=
  cfg ← deref (settings_config f);
  match (Config.Dependabot cfg ≫= Config.SecurityUpdates : option bool) with
  | None => mret (failedResult issue (errors_New "dependabot security updates not configured"))
  | Some updates =>
      err ← (if updates
             then callOn (settings_client f) EnableAutomatedSecurityFixes
             else callOn (settings_client f) DisableAutomatedSecurityFixes);
      match err with
      | Some err =>
          mret (failedResult issue
                  (fmt_Errorf_w "failed to update automated security fixes" err))
      | None => mret (successResult issue)
      end
  end.

(** The second [switch] of [SettingsFixer.Fix]: the request to send, which
    is [RepoUpdateRequest.zero] with one field assigned, or [None] in the
    [default] case.  [f.config.Issues] dereferences
    [f.config]; [f.config.Merge.AllowMergeCommit] dereferences [f.config] and
    then [f.config.Merge]. *)
Definition settingsRequest (f : SettingsFixer) (setting : string)
    : Fx (option RepoUpdateRequest.t) :=
  if bool_decide (setting = "issues") then
    cfg ← deref (settings_config f);
    mret (Some (RepoUpdateRequest.mk (Config.Issues cfg) None None None None None None
                                     None None None None))
  else if bool_decide (setting = "wiki") then
    cfg ← deref (settings_config f);
    mret (Some (RepoUpdateRequest.mk None (Config.Wiki cfg) None None None None None
                                     None None None None))
  else if bool_decide (setting = "projects") then
    cfg ← deref (settings_config f);
    mret (Some (RepoUpdateRequest.mk None None (Config.Projects cfg) None None None None
                                     None None None None))
  else if bool_decide (setting = "discussions") then
    cfg ← deref (settings_config f);
    mret (Some (RepoUpdateRequest.mk None None None (Config.Discussions cfg) None None None
                                     None None None None))
  else if bool_decide (setting = "merge_commit") then
    cfg ← deref (settings_config f); merge ← deref (Config.Merge cfg);
    mret (Some (RepoUpdateRequest.mk None None None None None
                                     (Config.AllowMergeCommit merge) None None None None
                                     None))
  else if bool_decide (setting = "squash_merge") then
    cfg ← deref (settings_config f); merge ← deref (Config.Merge cfg);
    mret (Some (RepoUpdateRequest.mk None None None None None None
                                     (Config.AllowSquashMerge merge) None None None None))
  else if bool_decide (setting = "rebase_merge") then
    cfg ← deref (settings_config f); merge ← deref (Config.Merge cfg);
    mret (Some (RepoUpdateRequest.mk None None None None None None None
                                     (Config.AllowRebaseMerge merge) None None None))
  else if bool_decide (setting = "auto_merge") then
    cfg ← deref (settings_config f); merge ← deref (Config.Merge cfg);
    mret (Some (RepoUpdateRequest.mk None None None None None None None None
                                     (Config.AllowAutoMerge merge) None None))
  else if bool_decide (setting = "delete_branch_on_merge") then
    cfg ← deref (settings_config f); merge ← deref (Config.Merge cfg);
    mret (Some (RepoUpdateRequest.mk None None None None None None None None None
                                     (Config.DeleteBranchOnMerge merge) None))
  else if bool_decide (setting = "update_branch") then
    cfg ← deref (settings_config f); merge ← deref (Config.Merge cfg);
    mret (Some (RepoUpdateRequest.mk None None None None None None None None None None
                  (Config.AlwaysSuggestUpdatingPullRequestBranches merge)))
  else mret None.

Definition SettingsFixer_Fix (f : SettingsFixer) (issue : Issue.t) : Fx fixReturn :=
  let setting := dataAt (Issue.Data issue) DataKeySetting in
  if bool_decide (setting = "")
  then mret (failedResult issue (errors_New "issue data missing setting"))
  else if bool_decide (setting = "actions_approve_prs") then fixActionsApprove f issue
  else if bool_decide (setting = "dependabot_alerts") then fixDependabotAlerts f issue
  else if bool_decide (setting = "dependabot_security_updates")
  then fixDependabotSecurityUpdates f issue
  else
    req ← settingsRequest f setting;
    match req with
    | None => mret (failedResult issue (errors_New ("unknown setting: " +:+ setting)))
    | Some req =>
        err ← callOn (settings_client f) (λ c, UpdateRepository c req);
        match err with
        | Some err =>
            mret (failedResult issue (fmt_Errorf_w "failed to update repository" err))
        | None => mret (successResult issue)
        end
    end.

(** ** ActionsFixer *)

Definition fetchAndInterpolateReference (f : ActionsFixer) (reference : string)
    : Fx (error + string) :=
  let parts := GoStrings.SplitN reference "/" 3 in
  if bool_decide (length parts < 3)
  then mret (inl (errors_New ("invalid reference format: " +:+ reference)))
  else
    let refOwner := nth 0 parts "" in
    let refRepo := nth 1 parts "" in
    let refPath := nth 2 parts "" in
    content ← callOn (actions_client f)
                (λ c, GetRemoteFileContent c refOwner refRepo refPath);
    match content with
    | inl err => mret (inl err)
    | inr content =>
        repository ← callOn (actions_client f) GetRepository;
        match repository with
        | inl err => mret (inl err)
        | inr repository =>
            c ← deref (actions_client f);
            let tmplData :=
              [("owner", owner c); ("repo", repo c);
               ("default_branch", Repository.DefaultBranch repository)] in
            mret (inr (foldl (λ result '(key, value),
                                GoStrings.ReplaceAll
                                  (GoStrings.ReplaceAll result ("{{ ." +:+ key +:+ " }}")
                                                        value)
                                  ("{{." +:+ key +:+ "}}") value)
                             content (map_range_order tmplData)))
        end
    end.

Definition ActionsFixer_Fix (f : ActionsFixer) (issue : Issue.t) : Fx fixReturn :=
  let workflowPath := dataAt (Issue.Data issue) DataKeyFileName in
  if bool_decide (workflowPath = "")
  then mret (failedResult issue (errors_New "issue data missing file_name"))
  else
    cfg ← deref (actions_config f);
    let wfConfig :=
      List.find (λ w, bool_decide (Config.WorkflowConfig.Path w = workflowPath))
                (elems (Config.RequiredWorkflows cfg)) in
    match wfConfig with
    | Some wfConfig =>
        if bool_decide (Config.WorkflowConfig.Reference wfConfig = "")
        then mret (failedResult issue
                     (errors_New ("no reference specified for workflow " +:+ workflowPath)))
        else
          content ← fetchAndInterpolateReference f (Config.WorkflowConfig.Reference wfConfig);
          match content with
          | inl err => mret (failedResult issue (fmt_Errorf_w "failed to fetch reference" err))
          | inr content =>
              err ← call (WriteFile (actions_client f) workflowPath content);
              match err with
              | Some err =>
                  mret (failedResult issue
                          (fmt_Errorf_w "failed to write workflow file" err))
              | None => mret (successResult issue)
              end
          end
    | None =>
        mret (failedResult issue
                (errors_New ("no reference specified for workflow " +:+ workflowPath)))
    end.

(** ** RulesetsFixer *)

(** [buildRulesetRequest]: nil include/exclude lists and nil bypass actors
    become empty lists; the name is the configured one. *)
Definition buildRulesetRequest (cfg : Config.RulesetConfig.t) (refRuleset : Ruleset.t)
    : RulesetCreateRequest.t :=
  let conditions :=
    match Ruleset.Conditions refRuleset with
    | Some conditions =>
        Some (RulesetConditions.mk
                (match RulesetConditions.RefName conditions with
                 | Some refName =>
                     Some (RefNameCondition.mk
                             (Some (elems (RefNameCondition.Include refName)))
                             (Some (elems (RefNameCondition.Exclude refName))))
                 | None => None
                 end))
    | None => None
    end in
  let bypassActors := Some (elems (Ruleset.BypassActors refRuleset)) in
  RulesetCreateRequest.mk (Config.RulesetConfig.Name cfg) (Ruleset.Target refRuleset)
                          (Ruleset.Enforcement refRuleset) conditions
                          (Ruleset.Rules refRuleset) bypassActors.

Definition createRuleset (f : RulesetsFixer) (issue : Issue.t)
    (cfg : Config.RulesetConfig.t) (refRuleset : Ruleset.t) : Fx fixReturn :=
  let req := buildRulesetRequest cfg refRuleset in
  created ← callOn (rulesets_client f) (λ c, CreateRuleset c req);
  match created with
  | inl err => mret (failedResult issue (fmt_Errorf_w "failed to create ruleset" err))
  | inr _ => mret (successResult issue)
  end.

Definition updateRulesetByID (f : RulesetsFixer) (issue : Issue.t)
    (cfg : Config.RulesetConfig.t) (refRuleset : Ruleset.t) (rulesetID : Z) : Fx fixReturn :=
  let req := buildRulesetRequest cfg refRuleset in
  err ← callOn (rulesets_client f) (λ c, UpdateRuleset c rulesetID req);
  match err with
  | Some err => mret (failedResult issue (fmt_Errorf_w "failed to update ruleset" err))
  | None => mret (successResult issue)
  end.

Definition RulesetsFixer_Fix (f : RulesetsFixer) (issue : Issue.t) : Fx fixReturn :=
  let rulesetName := dataAt (Issue.Data issue) DataKeyRulesetName in
  if bool_decide (rulesetName = "")
  then mret (failedResult issue (errors_New "issue data missing ruleset_name"))
  else
    match List.find (λ cfg, bool_decide (Config.RulesetConfig.Name cfg = rulesetName))
                    (elems (rulesets_configs f)) with
    | None =>
        mret (failedResult issue
                (errors_New ("no config found for ruleset '" +:+ rulesetName +:+ "'")))
    | Some cfg =>
        if bool_decide (Config.RulesetConfig.Reference cfg = "")
        then mret (failedResult issue
                     (errors_New ("ruleset '" +:+ rulesetName
                                  +:+ "' has no reference specified")))
        else
          refRuleset ← FetchReferenceRuleset (Config.RulesetConfig.Reference cfg)
                                             (rulesets_client f);
          match refRuleset with
          | inl err =>
              mret (failedResult issue
                      (fmt_Errorf_w "failed to fetch reference ruleset" err))
          | inr refRuleset =>
              rulesets ← callOn (rulesets_client f) GetRulesets;
              match rulesets with
              | inl err =>
                  mret (failedResult issue (fmt_Errorf_w "failed to fetch rulesets" err))
              | inr rulesets =>
                  let rulesetID :=
                    match List.find (λ rs, bool_decide (Ruleset.Name rs
                                                        = Config.RulesetConfig.Name cfg))
                                    rulesets with
                    | Some rs => Ruleset.ID rs
                    | None => 0%Z
                    end in
                  if bool_decide (rulesetID = 0%Z)
                  then createRuleset f issue cfg refRuleset
                  else updateRulesetByID f issue cfg refRuleset rulesetID
              end
          end
    end.

(** ** FilesFixer *)

Definition writeFile (f : FilesFixer) (issue : Issue.t) (cfg : Config.FileConfig.t)
    (content : string) : Fx fixReturn :=
  err ← call (WriteFile (files_client f) (Config.FileConfig.Name cfg) content);
  match err with
  | Some err => mret (failedResult issue (fmt_Errorf_w "failed to write file" err))
  | None => mret (successResult issue)
  end.

Definition FilesFixer_Fix (f : FilesFixer) (issue : Issue.t) : Fx fixReturn :=
  let fileName := dataAt (Issue.Data issue) DataKeyFileName in
  if bool_decide (fileName = "")
  then mret (failedResult issue (errors_New "issue data missing file_name"))
  else
    match List.find (λ cfg, bool_decide (Config.FileConfig.Name cfg = fileName))
                    (elems (files_configs f)) with
    | None =>
        mret (failedResult issue
                (errors_New ("no config found for file '" +:+ fileName +:+ "'")))
    | Some cfg =>
        if bool_decide (Config.FileConfig.Reference cfg = "")
        then mret (failedResult issue
                     (errors_New ("file '" +:+ fileName +:+ "' has no reference specified")))
        else
          refContent ← ResolveReferenceFile (Config.FileConfig.Reference cfg)
                                            (files_client f);
          match refContent with
          | inl err =>
              mret (failedResult issue (fmt_Errorf_w "failed to fetch reference file" err))
          | inr refContent =>
              c ← deref (files_client f);
              match HydrateTemplate c refContent with
              | inl err =>
                  mret (failedResult issue
                          (fmt_Errorf_w "failed to hydrate reference template" err))
              | inr hydratedContent => writeFile f issue cfg hydratedContent
              end
          end
    end.

(** ** The orchestrator *)

(** [type Fixer interface { Name() string; Fix(ctx, issue) (Result pointer, error) }]:
    an interface value is its method table, closed over the receiver. *)
Record Fixer := {
  Name : string;
  Fix : Issue.t → Fx fixReturn;
}.

Definition SettingsFixer_Fixer (f : SettingsFixer) : Fixer :=
  {| Name := "settings"; Fix := SettingsFixer_Fix f |}.
Definition ActionsFixer_Fixer (f : ActionsFixer) : Fixer :=
  {| Name := "actions"; Fix := ActionsFixer_Fix f |}.
Definition RulesetsFixer_Fixer (f : RulesetsFixer) : Fixer :=
  {| Name := "rulesets"; Fix := RulesetsFixer_Fix f |}.
Definition FilesFixer_Fixer (f : FilesFixer) : Fixer :=
  {| Name := "files"; Fix := FilesFixer_Fix f |}.

Record Orchestrator := {
  orchestrator_client : option Client;
  orchestrator_config : Config.Config;
  fixers : gmap string Fixer;
  orchestrator_verbose : bool;
}.

Definition NewOrchestrator (client : option Client) (cfg : Config.Config) (verbose : bool)
    : Orchestrator :=
  let checks := Config.Checks cfg in
  {| orchestrator_client := client;
     orchestrator_config := cfg;
     fixers :=
       <[CheckTypeFiles := FilesFixer_Fixer (NewFilesFixer client (Config.Files checks) verbose)]>
       (<[CheckTypeRulesets :=
            RulesetsFixer_Fixer (NewRulesetsFixer client (Config.Rulesets checks) verbose)]>
        (<[CheckTypeActions :=
             ActionsFixer_Fixer (NewActionsFixer client (Config.Actions checks) verbose)]>
         (<[CheckTypeSettings :=
              SettingsFixer_Fixer (NewSettingsFixer client (Config.Settings checks) verbose)]>
          ∅)));
     orchestrator_verbose := verbose |}.

Definition notFixable (issue : Issue.t) : Result.t :=
  Result.mk issue false (Some (errors_New "issue is not fixable")).

Definition noFixer (issue : Issue.t) : Result.t :=
  Result.mk issue false
            (Some (errors_New ("no fixer for check type '" +:+ Issue.Type_ issue +:+ "'"))).

(** The loop of [Orchestrator.Fix], with the results appended so far. *)
Fixpoint fixLoop (o : Orchestrator) (issues : list Issue.t) (results : list Result.t)
    : Fx (list Result.t) :=
  match issues with
  | [] => mret results
  | issue :: issues =>
      if negb (Issue.Fixable issue) then fixLoop o issues (results ++ [notFixable issue])
      else
        match fixers o !! Issue.Type_ issue with
        | None => fixLoop o issues (results ++ [noFixer issue])
        | Some fixer =>
            ret ← Fix fixer issue;
            match ret with
            | (_, Some err) =>
                fixLoop o issues (results ++ [Result.mk issue false (Some err)])
            | (Some result, None) => fixLoop o issues (results ++ [result])
            | (None, None) => λ st, (Panicked nilDereference, st)
            end
        end
  end.

Definition Orchestrator_Fix (o : Orchestrator) (issues : list Issue.t)
    : Fx (list Result.t * option error) :=
  results ← fixLoop o issues []; mret (results, None).


(** ** What a fixer hands back when it returns *)

(** [m], run for [issue], returns (if it returns) a result that carries
    [issue], and no error. *)
Definition returns_for (issue : Issue.t) (m : Fx fixReturn) : Prop :=
  ∀ st ret st', m st = (Returned ret, st') →
    ∃ res, ret = (Some res, None) ∧ Result.Issue res = issue.

Definition carries_issue (fixer : Fixer) : Prop :=
  ∀ issue, returns_for issue (Fix fixer issue).

Lemma returns_for_failed issue err : returns_for issue (mret (failedResult issue err)).
Proof. intros st ret st' [= <- <-]. by eexists. Qed.

Lemma returns_for_success issue : returns_for issue (mret (successResult issue)).
Proof. intros st ret st' [= <- <-]. by eexists. Qed.

Lemma returns_for_bind {A} issue (m : Fx A) (k : A → Fx fixReturn) :
  (∀ a, returns_for issue (k a)) → returns_for issue (mbind k m).
Proof.
  intros Hk st ret st'. unfold mbind, Fx_bind.
  destruct (m st) as [[a|msg] st1]; [apply Hk | done].
Qed.

Local Ltac returns_for_tac :=
  repeat first
    [ apply returns_for_failed
    | apply returns_for_success
    | apply returns_for_bind; intros ?
    | case_bool_decide
    | case_match ].

Lemma SettingsFixer_carries f : carries_issue (SettingsFixer_Fixer f).
Proof.
  intros issue. cbn [Fix SettingsFixer_Fixer].
  unfold SettingsFixer_Fix, fixActionsApprove, fixDependabotAlerts,
    fixDependabotSecurityUpdates.
  returns_for_tac.
Qed.

Lemma ActionsFixer_carries f : carries_issue (ActionsFixer_Fixer f).
Proof.
  intros issue. cbn [Fix ActionsFixer_Fixer]. unfold ActionsFixer_Fix.
  returns_for_tac.
Qed.

Lemma RulesetsFixer_carries f : carries_issue (RulesetsFixer_Fixer f).
Proof.
  intros issue. cbn [Fix RulesetsFixer_Fixer].
  unfold RulesetsFixer_Fix, createRuleset, updateRulesetByID.
  returns_for_tac.
Qed.

Lemma FilesFixer_carries f : carries_issue (FilesFixer_Fixer f).
Proof.
  intros issue. cbn [Fix FilesFixer_Fixer]. unfold FilesFixer_Fix, writeFile.
  returns_for_tac.
Qed.


Lemma NewOrchestrator_fixers_carry client cfg verbose ty fixer :
  fixers (NewOrchestrator client cfg verbose) !! ty = Some fixer → carries_issue fixer.
Proof.
  cbn [fixers NewOrchestrator]. intros Hlook.
  repeat (apply lookup_insert_Some in Hlook as [[_ <-]|[_ Hlook]];
          [auto using SettingsFixer_carries, ActionsFixer_carries,
             RulesetsFixer_carries, FilesFixer_carries|]).
  by rewrite lookup_empty in Hlook.
Qed.

(** What the orchestrator records for one issue. *)
Definition recorded (o : Orchestrator) (issue : Issue.t) (res : Result.t) : Prop :=
  Result.Issue res = issue
  ∧ (Issue.Fixable issue = false → res = notFixable issue)
  ∧ (Issue.Fixable issue = true → fixers o !! Issue.Type_ issue = None →
       res = noFixer issue)
  ∧ (Issue.Fixable issue = true →
       ∀ fixer, fixers o !! Issue.Type_ issue = Some fixer →
         ∃ st1 st2, Fix fixer issue st1 = (Returned (Some res, None), st2)).

Lemma fixLoop_contract o :
  (∀ ty fixer, fixers o !! ty = Some fixer → carries_issue fixer) →
  ∀ issues results st out st',
    fixLoop o issues results st = (Returned out, st') →
    ∃ news, out = results ++ news ∧ Forall2 (recorded o) issues news.
Proof.
  intros Hcarry. induction issues as [|issue issues IH]; intros results st out st' Hrun.
  - injection Hrun as <- <-. exists []. split; [by rewrite app_nil_r | constructor].
  - cbn [fixLoop] in Hrun. destruct (Issue.Fixable issue) eqn:Hfixable; cbn [negb] in Hrun.
    + destruct (fixers o !! Issue.Type_ issue) as [fixer|] eqn:Hfixer.
      * unfold mbind, Fx_bind in Hrun.
        destruct (Fix fixer issue st) as [[ret|msg] st1] eqn:Hfix; [|done].
        destruct (Hcarry _ _ Hfixer _ _ _ _ Hfix) as (res & -> & Hres).
        apply IH in Hrun as (news & -> & Hall).
        exists (res :: news). split; [by rewrite <-app_assoc|].
        constructor; [|done]. split_and!; [done|congruence|congruence|].
        intros _ fixer' Hfixer'. simplify_eq. eauto.
      * apply IH in Hrun as (news & -> & Hall).
        exists (noFixer issue :: news). split; [by rewrite <-app_assoc|].
        constructor; [|done]. split_and!; [done|congruence|done|congruence].
    + apply IH in Hrun as (news & -> & Hall).
      exists (notFixable issue :: news). split; [by rewrite <-app_assoc|].
      constructor; [|done]. split_and!; [done|done|congruence|congruence].
Qed.

Lemma fixLoop_notFixable o issue issues results st :
  Issue.Fixable issue = false →
  fixLoop o (issue :: issues) results st
  = fixLoop o issues (results ++ [notFixable issue]) st.
Proof. intros Hfixable. cbn [fixLoop]. by rewrite Hfixable. Qed.

(** A panic of the fixer is a panic of the loop: the results so far are
    lost. *)
Lemma fixLoop_panic o issue issues results st fixer msg st1 :
  Issue.Fixable issue = true →
  fixers o !! Issue.Type_ issue = Some fixer →
  Fix fixer issue st = (Panicked msg, st1) →
  fixLoop o (issue :: issues) results st = (Panicked msg, st1).
Proof.
  intros Hfixable Hfixer Hfix. cbn [fixLoop]. rewrite Hfixable, Hfixer. cbn [negb].
  unfold mbind, Fx_bind. by rewrite Hfix.
Qed.

(** Whenever [Orchestrator.Fix] returns, it returns no error and one result
    per issue, in order, each carrying its issue and recording the branch
    taken for it. *)
Lemma Orchestrator_Fix_contract client cfg verbose issues st results err st' :
  Orchestrator_Fix (NewOrchestrator client cfg verbose) issues st
  = (Returned (results, err), st') →
  err = None
  ∧ length results = length issues
  ∧ Forall2 (recorded (NewOrchestrator client cfg verbose)) issues results.
Proof.
  unfold Orchestrator_Fix, mbind, Fx_bind. intros Hrun.
  destruct (fixLoop (NewOrchestrator client cfg verbose) issues [] st)
    as [[out|msg] st1] eqn:Hloop; [|done].
  injection Hrun as <- <- <-.
  apply fixLoop_contract in Hloop as (news & -> & Hall);
    [|apply NewOrchestrator_fixers_carry].
  split_and!; [done| |done]. symmetry. by eapply Forall2_length.
Qed.

(** ** C8 and C9: a nil [Merge] *)

(** The six settings that [SettingsFixer.Fix] reads out of [f.config.Merge]. *)
Definition mergeSettings : list string :=
  ["merge_commit"; "squash_merge"; "rebase_merge"; "auto_merge";
   "delete_branch_on_merge"; "update_branch"].

(** The issue of the repository's own test for a nil [Merge]. *)
Definition settingIssue (setting : string) : Issue.t :=
  Issue.mk CheckTypeSettings "settings" "test issue" true {[DataKeySetting := setting]}.

Definition brokenLink : Issue.t :=
  Issue.mk "links" "links" "a link in the README is dead" false ∅.

Lemma settingsRequest_nil_merge f cfg setting st :
  settings_config f = Some cfg → Config.Merge cfg = None → setting ∈ mergeSettings →
  settingsRequest f setting st = (Panicked nilDereference, st).
Proof.
  intros Hcfg Hmerge Hin. unfold settingsRequest, mergeSettings in *.
  repeat (apply elem_of_cons in Hin as [->|Hin];
          [cbn; unfold mbind, Fx_bind; rewrite Hcfg; cbn; by rewrite Hmerge|]).
  by apply elem_of_nil in Hin.
Qed.

(** With a nil [Merge], every merge-related setting makes
    [SettingsFixer.Fix] panic, whatever the client and the rest of the
    configuration. *)
Lemma SettingsFixer_Fix_nil_merge f cfg issue st :
  settings_config f = Some cfg → Config.Merge cfg = None →
  dataAt (Issue.Data issue) DataKeySetting ∈ mergeSettings →
  SettingsFixer_Fix f issue st = (Panicked nilDereference, st).
Proof.
  intros Hcfg Hmerge Hin. unfold SettingsFixer_Fix.
  assert (∀ s, s ∉ mergeSettings →
            dataAt (Issue.Data issue) DataKeySetting ≠ s) as Hother by congruence.
  rewrite !bool_decide_eq_false_2
    by (apply Hother; apply (bool_decide_unpack _); by vm_compute).
  unfold mbind, Fx_bind. by rewrite (settingsRequest_nil_merge f cfg).
Qed.

(** C9: the claim says that [SettingsFixer.Fix] with a nil [Merge] returns
    a failed result for each of the six merge-related settings.  On the
    input of the repository's own test (nil client, a [SettingsConfig]
    whose [Merge] is nil) the code instead dereferences the nil [Merge] and
    panics, for each of the six settings and in every state. *)
Theorem C9_nil_merge_config_panics (st : State) :
  Forall (λ setting,
            SettingsFixer_Fix (NewSettingsFixer None (Some Config.emptySettings) false)
                              (settingIssue setting) st
            = (Panicked nilDereference, st))
         mergeSettings.
Proof.
  apply Forall_forall. intros setting Hin.
  apply (SettingsFixer_Fix_nil_merge _ Config.emptySettings); [done..|].
  unfold dataAt, settingIssue. cbn [Issue.Data]. by rewrite lookup_singleton_eq.
Qed.

(** C8: the claim says that [Orchestrator.Fix] returns one result per
    issue and never aborts the batch.  With a settings configuration whose
    [Merge] is nil, a batch of an unfixable issue followed by a
    merge-related settings issue is aborted by the panic of the settings
    fixer: no result list is returned, the result for the first issue
    included. *)
Theorem C8_batch_aborted_by_fixer_panic (client : option Client) (st : State) :
  let o := NewOrchestrator client (Config.withSettings Config.emptySettings) false in
  Orchestrator_Fix o [brokenLink; settingIssue "merge_commit"] st
  = (Panicked nilDereference, st)
  ∧ Orchestrator_Fix o [brokenLink] st = (Returned ([notFixable brokenLink], None), st).
Proof.
  split; [|done].
  unfold Orchestrator_Fix, mbind at 1, Fx_bind at 1.
  rewrite fixLoop_notFixable by done.
  erewrite fixLoop_panic; [done | done | reflexivity |].
  apply (SettingsFixer_Fix_nil_merge _ Config.emptySettings); [done..|].
  unfold dataAt, settingIssue. cbn [Issue.Data]. rewrite lookup_singleton_eq.
  apply (bool_decide_unpack _). by vm_compute.
Qed.

End Fixers.

End Fix.

(* ===================================================================== *)
(** * Further facts: strings                                              *)
(* ===================================================================== *)

Module GoStringsFacts.
Import GoStrings.

Lemma prefix_empty s : String.prefix "" s = true.
Proof. by destruct s. Qed.

Lemma prefix_app a b s :
  String.prefix (a +:+ b) s = true → ∃ t, s = a +:+ t ∧ String.prefix b t = true.
Proof.
  revert s. induction a as [|x a IH]; intros s.
  - intros Hp. by exists s.
  - change (String x a +:+ b) with (String x (a +:+ b)).
    destruct s as [|y s]; [done|]. cbn [String.prefix].
    destruct (ascii_dec x y) as [<-|]; [|done].
    intros Hp. destruct (IH _ Hp) as (t & -> & Ht). by exists t.
Qed.

Lemma Contains_prefix s sub : String.prefix sub s = true → Contains s sub = true.
Proof. intros Hp. destruct s; cbn [Contains]; by rewrite Hp. Qed.

Lemma Contains_cons x s sub : Contains s sub = true → Contains (String x s) sub = true.
Proof. intros Hc. cbn [Contains]. rewrite Hc. apply orb_true_r. Qed.

(** Text put in front of a string does not hide what the string contains. *)
Lemma Contains_app_l a s sub : Contains s sub = true → Contains (a +:+ s) sub = true.
Proof.
  induction a as [|x a IH]; [done|]. intros Hc.
  change (String x a +:+ s) with (String x (a +:+ s)). by apply Contains_cons, IH.
Qed.

(** What contains a string contains every tail of that string. *)
Lemma Contains_tail s a b : Contains s (a +:+ b) = true → Contains s b = true.
Proof.
  induction s as [|x s IH]; intros Hc; cbn [Contains] in Hc.
  - rewrite orb_false_r in Hc. apply prefix_app in Hc as (t & Ht & Hp).
    destruct a as [|y a].
    + change ("" +:+ t) with t in Ht. subst t. by apply Contains_prefix.
    + change (String y a +:+ t) with (String y (a +:+ t)) in Ht. done.
  - apply orb_true_iff in Hc as [Hp|Hc].
    + apply prefix_app in Hp as (t & -> & Hp). by apply Contains_app_l, Contains_prefix.
    + by apply Contains_cons, IH.
Qed.

(** Replacing a text that does not occur changes nothing. *)
Lemma ReplaceAll_absent s old new : Contains s old = false → ReplaceAll s old new = s.
Proof.
  unfold ReplaceAll. induction s as [|x s IH]; [done|].
  cbn [Contains replaceFrom]. intros Hc. apply orb_false_iff in Hc as [-> Hc].
  by rewrite IH.
Qed.

End GoStringsFacts.

(* ===================================================================== *)
(** * Further facts: the API client                                       *)
(* ===================================================================== *)

Module GithubFacts.
Import GoRuntime Github GoStringsFacts.

(** [fmt.Errorf("%s: %w", ...)] applied once per prefix, outermost first. *)
Fixpoint wrapMany (prefixes : list string) (e : error) : error :=
  match prefixes with
  | [] => e
  | prefix :: prefixes => fmt_Errorf_w prefix (wrapMany prefixes e)
  end.

(** X5: an error counts as a rate limit exactly when its message contains
    "rate limit" or "403" (the third test, for "secondary rate limit", never
    decides), and an error that counts as a rate limit still does once it
    is wrapped with [%w]. *)
Theorem X5_isRateLimitError_two_markers (e : error) :
  isRateLimitError (Some e)
  = GoStrings.Contains (Error e) "rate limit" || GoStrings.Contains (Error e) "403"
  ∧ ∀ prefix, isRateLimitError (Some e) = true →
              isRateLimitError (Some (fmt_Errorf_w prefix e)) = true.
Proof.
  assert (∀ e', isRateLimitError (Some e')
                = GoStrings.Contains (Error e') "rate limit"
                  || GoStrings.Contains (Error e') "403") as Hchar.
  { intros e'. unfold isRateLimitError.
    destruct (GoStrings.Contains (Error e') "rate limit") eqn:Hrl; [done|].
    destruct (GoStrings.Contains (Error e') "403") eqn:H403; [done|].
    destruct (GoStrings.Contains (Error e') "secondary rate limit") eqn:Hsec; [|done].
    apply (Contains_tail _ "secondary " "rate limit") in Hsec. congruence. }
  split; [apply Hchar|].
  intros prefix. rewrite !Hchar. cbn [Error]. intros Hrl.
  apply orb_true_iff in Hrl as [Hrl|Hrl]; apply orb_true_iff; [left|right];
    by do 2 apply Contains_app_l.
Qed.

(** X6: for an [HTTPError], however often it is wrapped with [%w],
    [IsNotFound] is decided by the status code alone: a 404 is not-found
    whatever the messages say, and any other status is not, even when a
    message contains "404" or "Not Found". *)
Theorem X6_IsNotFound_status_code_decides (prefixes : list string) (code : Z)
    (msg : string) :
  IsNotFound (Some (wrapMany prefixes (HTTPError code msg))) = bool_decide (code = 404%Z).
Proof.
  unfold IsNotFound.
  assert (as_HTTPError (wrapMany prefixes (HTTPError code msg)) = Some (code, msg)) as ->;
    [|done].
  induction prefixes as [|prefix prefixes IH]; [done | exact IH].
Qed.

Section ClientFacts.
Context `{!Externals}.

Local Ltac retry_cases fuel c method path body k backoff totalWait st :=
  destruct (retryLoop_cases fuel c method path body k backoff totalWait st)
    as [(?Hw & ?e & ?Hearly)
       |(?w & ?r & ?remote' & ?Hw & ?Hr &
          [(?v & -> & ?Hrun)
          |[(?err & -> & ?Hrl & ?Hrun)
           |[(?err & -> & ?Hrl & ?Hmax & ?Hrun)
            |(?err & -> & ?Hrl & ?Hmax & ?Hrun)]]])].

(** X3: a method other than GET, POST, PATCH, PUT and DELETE is refused
    with the error "unsupported method: m" before the transport is reached:
    nothing is requested and nothing is slept. *)
Theorem X3_unsupported_method_is_refused c method path body k st :
  method ∉ ["GET"; "POST"; "PATCH"; "PUT"; "DELETE"] →
  doWithRetry c method path body k st
  = (inl (errors_New ("unsupported method: " +:+ method)), logRequest c method path st)
  ∧ requests (doWithRetry c method path body k st).2 = requests st
  ∧ slept (doWithRetry c method path body k st).2 = slept st
  ∧ remote (doWithRetry c method path body k st).2 = remote st.
Proof.
  intros Hnot.
  assert (doWithRetry c method path body k st
          = (inl (errors_New ("unsupported method: " +:+ method)),
             logRequest c method path st)) as ->.
  { unfold doWithRetry, retryFuel. cbn [retryLoop]. unfold attempt.
    rewrite !bool_decide_eq_false_2 by (intros ->; apply Hnot; set_solver). done. }
  cbn [snd]. destruct (logRequest_fields c method path st) as (_ & _ & ? & ?).
  by rewrite remote_logRequest.
Qed.

(** The backoff and the time waited before the [i]-th retry. *)
Definition backoffState (i : nat) : Z * Z :=
  Nat.iter i (λ p, nextBackoff p.1 p.2) (initialBackoff, 0%Z).

Lemma backoffState_saturated i :
  6 ≤ i → backoffState i = (0%Z, maxBackoffDuration).
Proof.
  induction 1 as [|i Hle IH]; [by vm_compute|].
  change (backoffState (S i))
    with (nextBackoff (backoffState i).1 (backoffState i).2).
  rewrite IH. by vm_compute.
Qed.

Lemma retryLoop_schedule fuel c method path body k w :
  wireBody method body = Some w →
  ∀ i st r st',
    retryLoop fuel c method path body k (backoffState i).1 (backoffState i).2 st
    = Some (r, st') →
    ∃ n, slept st' = slept st ++ map (λ j, (backoffState j).1) (seq i n)
         ∧ requests st' = requests st ++ replicate (S n) (method, path)
         ∧ (n = 0 ∨ ((backoffState (i + n - 1)).2 < maxBackoffDuration)%Z).
Proof.
  intros Hwire. induction fuel as [|fuel IH]; intros i st r st' Hres; [done|].
  retry_cases fuel c method path body k (backoffState i).1 (backoffState i).2 st;
    [congruence|..].
  - rewrite Hrun in Hres. simplify_eq. exists 0.
    rewrite slept_responded, requests_responded, app_nil_r. auto.
  - rewrite Hrun in Hres. simplify_eq. exists 0.
    rewrite slept_responded, requests_responded, app_nil_r. auto.
  - rewrite Hrun in Hres. simplify_eq. exists 0.
    rewrite slept_responded, requests_responded, app_nil_r. auto.
  - rewrite Hrun in Hres.
    apply (IH (S i)) in Hres as (n & Hs & Hq & Hb).
    exists (S n). split_and!.
    + rewrite Hs, slept_waitBeforeRetry, slept_responded, <-app_assoc. done.
    + rewrite Hq, requests_waitBeforeRetry, requests_responded, <-app_assoc. done.
    + right. destruct Hb as [->|Hb].
      * by replace (i + 1 - 1) with i by lia.
      * by replace (i + S n - 1) with (S i + n - 1) by lia.
Qed.

(** X4: whenever the transport is reached, the sleeps of a run are the
    first [n] of the schedule 1, 2, 4, 8, 16, 29 seconds for some [n] up to
    6, and the run makes exactly [n + 1] requests: every sleep is followed
    by one more attempt. *)
Theorem X4_sleeps_follow_the_schedule c method path body k w st :
  wireBody method body = Some w →
  ∃ n, n ≤ 6
       ∧ slept (doWithRetry c method path body k st).2
         = slept st ++ take n (map (λ s, s * second)%Z fullSchedule)
       ∧ requests (doWithRetry c method path body k st).2
         = requests st ++ replicate (S n) (method, path).
Proof.
  intros Hwire.
  pose proof (doWithRetry_retryLoop c method path body k st) as Hrun.
  destruct (doWithRetry c method path body k st) as [r st'].
  apply (retryLoop_schedule _ _ _ _ _ _ _ Hwire 0) in Hrun as (n & Hs & Hq & Hb).
  assert (n ≤ 6) as Hn.
  { destruct Hb as [->|Hb]; [lia|].
    destruct (decide (n ≤ 6)) as [|Hbig]; [done|].
    rewrite backoffState_saturated in Hb by lia. cbn in Hb. lia. }
  exists n. split_and!; [done| |done].
  cbn [snd]. rewrite Hs. f_equal.
  do 7 (destruct n as [|n]; [by vm_compute|]). lia.
Qed.

(** ** The repository and its cache entry *)

Definition repoKey (c : Client) : string := "repo:" +:+ owner c +:+ "/" +:+ repo c.
Definition repoPath (c : Client) : string := "repos/" +:+ owner c +:+ "/" +:+ repo c.

Definition archivedError (c : Client) : error :=
  errors_New ("repository " +:+ owner c +:+ "/" +:+ repo c +:+ " is archived").

Lemma doWithRetry_first_answer c method path body k w st r remote' :
  wireBody method body = Some w →
  rest_do (remote st) method path w k = (r, remote') →
  (∀ err, r = inl err → isRateLimitError (Some err) = false) →
  doWithRetry c method path body k st = (r, responded c method path remote' st).
Proof.
  intros Hw Hr Hrl. unfold doWithRetry, retryFuel. destruct r as [err|v].
  - by erewrite retryLoop_abort; [|done..|by apply Hrl].
  - by erewrite retryLoop_done.
Qed.

(** X7: an archived repository is refused and not cached: without a
    cached repository, when the transport answers the GET with an archived
    repository, [GetRepository] returns the error "repository o/r is
    archived" and leaves the cache as it was, and [CheckPermissions] reports
    that error as insufficient permissions. *)
Theorem X7_archived_repository_refused_and_not_cached c st r remote' :
  cache st !! repoKey c ≫= asRepository = None →
  rest_do (remote st) "GET" (repoPath c) None KRepository = (inr r, remote') →
  Repository.Archived r = true →
  let st' := responded c "GET" (repoPath c) remote' st in
  GetRepository c st = (inl (archivedError c), st')
  ∧ cache st' = cache st
  ∧ CheckPermissions c st
    = (Some (fmt_Errorf_w "insufficient permissions to access repository"
                          (archivedError c)), st').
Proof.
  intros Hmiss Hr Harch st'.
  assert (GetRepository c st = (inl (archivedError c), st')) as Hget.
  { unfold GetRepository, getFromCache. fold (repoKey c) (repoPath c).
    rewrite (doWithRetry_first_answer c "GET" (repoPath c) None KRepository None st
               (inr r) remote') by done.
    rewrite Harch. by destruct (cache st !! repoKey c) as [[]|]. }
  split_and!; [done| |].
  - by destruct (responded_fields c "GET" (repoPath c) remote' st) as (? & _).
  - unfold CheckPermissions. by rewrite Hget.
Qed.

Lemma cached_under_repeat {A} key path inj proj (op : State → (error + A) * State) :
  (∀ v, proj (inj v) = Some v) →
  cached_under key path inj proj op →
  ∀ st v st', op st = (inr v, st') → op st' = (inr v, st').
Proof.
  intros Hproj (Hhit & Hmiss & _) st v st' Hop.
  destruct (cache st !! key ≫= proj) as [v'|] eqn:Hlook.
  - rewrite (Hhit _ _ Hlook) in Hop. simplify_eq. by apply Hhit.
  - destruct (Hmiss _ _ _ Hlook Hop) as [Hc _].
    apply Hhit. rewrite Hc, lookup_insert_eq. cbn. apply Hproj.
Qed.

(** X8: once [CheckPermissions] has succeeded, [GetRepository] answers
    from the cache: it returns a repository and leaves the state, the list
    of requests included, as it was. *)
Theorem X8_CheckPermissions_warms_the_cache c st st' :
  CheckPermissions c st = (None, st') →
  ∃ r, GetRepository c st' = (inr r, st').
Proof.
  unfold CheckPermissions.
  destruct (GetRepository c st) as [[err|r] st1] eqn:Hget; [done|].
  intros [= <-]. exists r.
  by eapply (cached_under_repeat _ _ _ _ _ (λ _, eq_refl) (GetRepository_cached c)).
Qed.

(** X9: a write does not refresh what was read before: with a repository
    in the cache, [GetRepository] after [UpdateRepository] still returns
    that cached repository, without a request of its own. *)
Theorem X9_read_after_write_is_served_stale c req st r :
  cache st !! repoKey c = Some (AnyRepository r) →
  let st' := (UpdateRepository c req st).2 in
  GetRepository c st' = (inr r, st').
Proof.
  intros Hhit st'.
  assert (cache st' = cache st) as Hc
    by apply (doWrite_blind c "PATCH" (repoPath c) (Some (BodyRepoUpdate req))).
  unfold GetRepository, getFromCache. fold (repoKey c). by rewrite Hc, Hhit.
Qed.

(** ** File contents *)

Definition fileKey (c : Client) (filePath : string) : string :=
  "file:" +:+ owner c +:+ "/" +:+ repo c +:+ "/" +:+ filePath.
Definition remoteFileKey (o r filePath : string) : string :=
  "remote-file:" +:+ o +:+ "/" +:+ r +:+ "/" +:+ filePath.
Definition contentsPath (o r filePath : string) : string :=
  "repos/" +:+ o +:+ "/" +:+ r +:+ "/contents/" +:+ filePath.

Lemma fileKey_remoteFileKey c filePath o r filePath' :
  fileKey c filePath ≠ remoteFileKey o r filePath'.
Proof.
  intros Heq. apply (f_equal (String.get 0)) in Heq. vm_compute in Heq. discriminate.
Qed.

Lemma fetchContent_effects c key path st r st' :
  fetchContent c key path st = (r, st') →
  fs st' = fs st
  ∧ ∃ n, 1 ≤ n ∧ requests st' = requests st ++ replicate n ("GET", path).
Proof.
  unfold fetchContent. intros Hrun.
  pose proof (doWithRetry_frame c "GET" path None KFileContent st) as [_ Hfs].
  destruct (doWithRetry c "GET" path None KFileContent st) as [r1 st1] eqn:Hdo.
  apply (doWithRetry_GET c path KFileContent st) in Hdo as [_ Hreq].
  cbn in Hfs. repeat case_match; simplify_eq; done.
Qed.

(** X10: the two ways to read a file of the client's own repository do not
    share cache entries: after [GetFileContent] has succeeded for a path,
    [GetRemoteFileContent] for the same owner, repository and path, which
    has no entry of its own, requests the same API path again. *)
Theorem X10_file_and_remote_file_are_cached_apart c filePath st content st' :
  cache st !! remoteFileKey (owner c) (repo c) filePath = None →
  GetFileContent c filePath st = (inr content, st') →
  ∃ n, 1 ≤ n
       ∧ requests (GetRemoteFileContent c (owner c) (repo c) filePath st').2
         = requests st' ++ replicate n ("GET", contentsPath (owner c) (repo c) filePath).
Proof.
  intros Hnone Hget.
  assert (cache st' !! remoteFileKey (owner c) (repo c) filePath = None) as Hnone'.
  { destruct (GetFileContent_cached c filePath) as (Hhit & Hmiss & _).
    fold (fileKey c filePath) in Hhit, Hmiss.
    destruct (cache st !! fileKey c filePath ≫= asBytes) as [v|] eqn:Hlook.
    - rewrite (Hhit _ _ Hlook) in Hget. by simplify_eq.
    - destruct (Hmiss _ _ _ Hlook Hget) as [-> _].
      rewrite lookup_insert_ne by apply fileKey_remoteFileKey. done. }
  unfold GetRemoteFileContent, getFromCache.
  fold (remoteFileKey (owner c) (repo c) filePath)
       (contentsPath (owner c) (repo c) filePath).
  rewrite Hnone'.
  destruct (fetchContent c (remoteFileKey (owner c) (repo c) filePath)
              (contentsPath (owner c) (repo c) filePath) st') as [r1 st1] eqn:Hfetch.
  by apply fetchContent_effects in Hfetch as [_ Hreq].
Qed.

(** X11: content without any of the four placeholders, "{{ .owner }}",
    "{{.owner}}", "{{ .repo }}" and "{{.repo}}", is returned unchanged by
    [HydrateTemplate], whatever the owner and the repository are. *)
Theorem X11_HydrateTemplate_without_placeholders c content :
  GoStrings.Contains content "{{ .owner }}" = false →
  GoStrings.Contains content "{{.owner}}" = false →
  GoStrings.Contains content "{{ .repo }}" = false →
  GoStrings.Contains content "{{.repo}}" = false →
  HydrateTemplate c content = inr content.
Proof.
  intros H1 H2 H3 H4. unfold HydrateTemplate.
  by rewrite (ReplaceAll_absent _ _ _ H1), (ReplaceAll_absent _ _ _ H2),
       (ReplaceAll_absent _ _ _ H3), (ReplaceAll_absent _ _ _ H4).
Qed.

Lemma GetRemoteFileContent_fs c o r filePath st :
  fs (GetRemoteFileContent c o r filePath st).2 = fs st.
Proof.
  unfold GetRemoteFileContent.
  destruct (getFromCache _ st) as [[]|]; try done;
    match goal with
    | |- context [fetchContent ?c ?k ?p ?st] =>
        destruct (fetchContent c k p st) as [r1 st1] eqn:Hfetch;
        by apply fetchContent_effects in Hfetch as [? _]
    end.
Qed.

(** X12: a reference that is not a local file and was fetched from its
    remote repository once is resolved from the cache afterwards: resolving
    it again returns the same content and leaves the state, the list of
    requests included, as it was. *)
Theorem X12_remote_reference_fetched_once reference c st err content st' :
  os_ReadFile (fs st) reference = inl err →
  os_IsNotExist err = true →
  ResolveReferenceFile reference (Some c) st = (Returned (inr content), st') →
  ResolveReferenceFile reference (Some c) st' = (Returned (inr content), st').
Proof.
  intros Hread Hne. unfold ResolveReferenceFile. rewrite Hread, Hne. cbn [negb].
  case_bool_decide; [done|].
  set (o := nth 0 _ ""). set (r := nth 1 _ ""). set (p := nth 2 _ "").
  pose proof (GetRemoteFileContent_fs c o r p st) as Hfs.
  destruct (GetRemoteFileContent c o r p st) as [[e1|v] st1] eqn:Hget; [done|].
  intros [= -> ->]. cbn in Hfs. rewrite Hfs, Hread, Hne. cbn [negb].
  by rewrite (cached_under_repeat _ _ _ _ _ (λ _, eq_refl)
                (GetRemoteFileContent_cached c o r p) _ _ _ Hget).
Qed.

(** X13: [GetVulnerabilityAlertsEnabled] reads an answer without error as
    enabled and a not-found answer as disabled; any other error that is not
    a rate limit is returned as it is. In each case one request is made. *)
Theorem X13_vulnerability_alerts_not_found_is_disabled c st r remote' :
  let path := "repos/" +:+ owner c +:+ "/" +:+ repo c +:+ "/vulnerability-alerts" in
  rest_do (remote st) "GET" path None KNone = (r, remote') →
  (∀ err, r = inl err → isRateLimitError (Some err) = false) →
  GetVulnerabilityAlertsEnabled c st
  = (match r with
     | inr _ => inr true
     | inl err => if IsNotFound (Some err) then inr false else inl err
     end, responded c "GET" path remote' st).
Proof.
  intros path Hr Hrl. unfold GetVulnerabilityAlertsEnabled. fold path.
  rewrite (doWithRetry_first_answer c "GET" path None KNone None st r remote') by done.
  destruct r as [err|v]; [|done]. by destruct (IsNotFound (Some err)).
Qed.


End ClientFacts.

(** ** The facts on concrete inputs *)

(** As [scripted], with [value k] as the decoded answer of a successful
    call instead of the zero value. *)
Definition answering (value : ∀ k, decoded k) (script : nat → option error)
    (files : string → error + string) : Externals :=
  {| Remote := nat;
     FS := unit;
     rest_do := λ n _ _ _ k,
       (match script n with
        | Some e => inl e
        | None => inr (value k)
        end, S n);
     json_Encode := λ _, inr "{}";
     json_Marshal := λ _, inr "{}";
     json_Unmarshal_Ruleset := λ _, inr zeroRuleset;
     base64_DecodeString := inr;
     duration_String := λ d, pretty d +:+ "ns";
     os_ReadFile := λ _ path, files path;
     os_Getwd := λ _, inr "/work";
     os_MkdirAll := λ f _, (None, f);
     os_WriteFile := λ f _ _, (None, f);
     filepath_IsAbs := String.prefix "/";
     filepath_Join := λ dir name, dir +:+ "/" +:+ name;
     filepath_Dir := id;
     map_range_order := id |}.

Definition startState (E : Externals) (r : @Remote E) (f : @FS E) : @State E :=
  @Build_State E ∅ r f [] [] [].

Definition archivedRepository : Repository.t :=
  Repository.mk "app" "acme/app" "main" true true true true true "" true true true true
                true true.

Definition licenseFile : FileContent.t :=
  FileContent.mk "file" "base64" 11 "LICENSE" "LICENSE" "MIT License" "" "" "" "" "".

Definition sampleValue (k : kind) : decoded k :=
  match k with
  | KRepository => archivedRepository
  | KFileContent => licenseFile
  | k => zeroValue k
  end.

Definition sampleRemote : Externals := answering sampleValue alwaysFine noFiles.

Definition notFound : error := HTTPError 404 "Not Found".
Definition alwaysNotFound (n : nat) : option error := Some notFound.

Lemma X3_witness :
  @doWithRetry (scripted alwaysFine noFiles) acme "HEAD" "repos/acme/app" None KNone
    (freshState alwaysFine noFiles)
  = (inl (errors_New "unsupported method: HEAD"), freshState alwaysFine noFiles).
Proof.
  apply (proj1 (@X3_unsupported_method_is_refused (scripted alwaysFine noFiles) acme
                  "HEAD" "repos/acme/app" None KNone (freshState alwaysFine noFiles)
                  ltac:(apply (bool_decide_unpack _); vm_compute; exact I))).
Defined.

Lemma X4_witness :
  ∃ n, n ≤ 6
       ∧ slept (@doWithRetry (scripted twoRateLimits noFiles) acme "GET" "repos/acme/app"
                  None KRepository (freshState twoRateLimits noFiles)).2
         = [] ++ take n (map (λ s, s * second)%Z fullSchedule)
       ∧ requests (@doWithRetry (scripted twoRateLimits noFiles) acme "GET"
                     "repos/acme/app" None KRepository
                     (freshState twoRateLimits noFiles)).2
         = [] ++ replicate (S n) ("GET", "repos/acme/app").
Proof.
  apply (@X4_sleeps_follow_the_schedule (scripted twoRateLimits noFiles) acme "GET"
           "repos/acme/app" None KRepository None (freshState twoRateLimits noFiles)).
  reflexivity.
Defined.

Lemma X7_witness :
  @GetRepository sampleRemote acme (startState sampleRemote 0 tt)
  = (inl (errors_New "repository acme/app is archived"),
     @responded sampleRemote acme "GET" "repos/acme/app" 1 (startState sampleRemote 0 tt))
  ∧ cache (@responded sampleRemote acme "GET" "repos/acme/app" 1
             (startState sampleRemote 0 tt)) = ∅.
Proof.
  destruct (@X7_archived_repository_refused_and_not_cached sampleRemote acme
              (startState sampleRemote 0 tt) archivedRepository 1
              eq_refl eq_refl eq_refl) as (Hget & Hcache & _).
  split; [exact Hget | exact Hcache].
Defined.

Lemma X8_witness :
  ∃ r, @GetRepository (scripted alwaysFine noFiles) acme
         (@CheckPermissions (scripted alwaysFine noFiles) acme
            (freshState alwaysFine noFiles)).2
       = (inr r, (@CheckPermissions (scripted alwaysFine noFiles) acme
                    (freshState alwaysFine noFiles)).2).
Proof.
  apply (@X8_CheckPermissions_warms_the_cache (scripted alwaysFine noFiles) acme
           (freshState alwaysFine noFiles)).
  reflexivity.
Defined.

Lemma X9_witness :
  let st := (@GetRepository (scripted alwaysFine noFiles) acme
               (freshState alwaysFine noFiles)).2 in
  let st' := (@UpdateRepository (scripted alwaysFine noFiles) acme
                RepoUpdateRequest.zero st).2 in
  @GetRepository (scripted alwaysFine noFiles) acme st' = (inr zeroRepository, st').
Proof.
  apply (@X9_read_after_write_is_served_stale (scripted alwaysFine noFiles) acme
           RepoUpdateRequest.zero).
  reflexivity.
Defined.

Lemma X10_witness :
  let st' := (@GetFileContent sampleRemote acme "LICENSE" (startState sampleRemote 0 tt)).2 in
  ∃ n, 1 ≤ n
       ∧ requests (@GetRemoteFileContent sampleRemote acme "acme" "app" "LICENSE" st').2
         = requests st' ++ replicate n ("GET", "repos/acme/app/contents/LICENSE").
Proof.
  apply (@X10_file_and_remote_file_are_cached_apart sampleRemote acme "LICENSE"
           (startState sampleRemote 0 tt) "MIT License"); reflexivity.
Defined.

Lemma X11_witness :
  @HydrateTemplate acme "MIT License" = inr "MIT License".
Proof.
  apply (X11_HydrateTemplate_without_placeholders acme "MIT License"); reflexivity.
Defined.

Lemma X12_witness :
  let st' := (@ResolveReferenceFile sampleRemote "acme/policies/LICENSE" (Some acme)
                (startState sampleRemote 0 tt)).2 in
  requests st' = [("GET", "repos/acme/policies/contents/LICENSE")]
  ∧ @ResolveReferenceFile sampleRemote "acme/policies/LICENSE" (Some acme) st'
    = (Returned (inr "MIT License"), st').
Proof.
  split; [reflexivity|].
  apply (@X12_remote_reference_fetched_once sampleRemote "acme/policies/LICENSE" acme
           (startState sampleRemote 0 tt)
           (PathError "open" "acme/policies/LICENSE" ENOENT)); reflexivity.
Defined.

Lemma X13_witness :
  @GetVulnerabilityAlertsEnabled (scripted alwaysNotFound noFiles) acme
    (freshState alwaysNotFound noFiles)
  = (inr false,
     @responded (scripted alwaysNotFound noFiles) acme "GET"
       "repos/acme/app/vulnerability-alerts" 1 (freshState alwaysNotFound noFiles)).
Proof.
  apply (@X13_vulnerability_alerts_not_found_is_disabled (scripted alwaysNotFound noFiles)
           acme (freshState alwaysNotFound noFiles) (inl notFound) 1).
  - reflexivity.
  - intros err [= <-]. reflexivity.
Defined.

End GithubFacts.

(* ===================================================================== *)
(** * Further facts: comparing rulesets                                   *)
(* ===================================================================== *)

Module ChecksFacts.
Import Github Checks.

Lemma sameStrings_eq a b : length a = length b → sameStrings a b = true ↔ a = b.
Proof.
  revert b. induction a as [|x a IH]; intros [|y b] Hlen; simplify_eq/=; [done|].
  case_bool_decide as Hxy.
  - split; [done | intros [= ? ?]; contradiction].
  - subst y. rewrite IH by done. split; congruence.
Qed.

(** X14: [stringSlicesEqual] holds exactly when the two slices have the
    same elements in the same order; a nil slice and an empty one are
    equal. *)
Theorem X14_stringSlicesEqual_same_elements (a b : option (list string)) :
  stringSlicesEqual a b = true ↔ elems a = elems b.
Proof.
  unfold stringSlicesEqual, sliceLen. fold (elems a) (elems b).
  case_bool_decide as Hlen.
  - split; [done | intros Heq; by rewrite Heq in Hlen].
  - by apply sameStrings_eq.
Qed.

Lemma stringSlicesEqual_elems (a b : option (list string)) :
  elems a = elems b → stringSlicesEqual a b = true.
Proof.
  intros Heq. unfold stringSlicesEqual, sliceLen. fold (elems a) (elems b).
  rewrite Heq, bool_decide_eq_false_2 by (intros Hne; by apply Hne).
  by apply sameStrings_eq.
Qed.

(** The set built by the first loop of [bypassActorsMatch]. *)
Lemma expectedSet_lookup (l : list BypassActor.t) (acc : gmap string bool) k :
  default false (foldl (λ set actor, <[actorKey actor := true]> set) acc l !! k) = true
  ↔ default false (acc !! k) = true ∨ k ∈ actorKey <$> l.
Proof.
  revert acc. induction l as [|a l IH]; intros acc; cbn [foldl fmap list_fmap].
  - rewrite elem_of_nil. tauto.
  - rewrite IH, elem_of_cons. destruct (decide (k = actorKey a)) as [->|Hne].
    + rewrite lookup_insert_eq. cbn. tauto.
    + rewrite lookup_insert_ne by done. tauto.
Qed.

Lemma bypassActorsMatch_spec (actual expected : option (list BypassActor.t)) :
  bypassActorsMatch actual expected = true
  ↔ sliceLen actual = sliceLen expected
    ∧ actorKey <$> elems actual ⊆ actorKey <$> elems expected.
Proof.
  unfold bypassActorsMatch. case_bool_decide as Hlen.
  - split; [done | by intros [? _]].
  - rewrite forallb_forall.
    split.
    + intros Hall. split; [done|]. intros k Hk.
      apply list_elem_of_fmap in Hk as (a & -> & Ha).
      apply list_elem_of_In, Hall in Ha.
      apply expectedSet_lookup in Ha as [Ha|Ha]; [by rewrite lookup_empty in Ha | done].
    + intros [_ Hsub] a Ha. apply expectedSet_lookup. right.
      apply Hsub, list_elem_of_fmap. exists a. by rewrite list_elem_of_In.
Qed.

(** X15: [bypassActorsMatch] holds exactly when the two lists have the
    same length and the key ("id:type:mode") of every actual actor is the
    key of some expected actor.  When the keys of the actual actors are
    pairwise different, that is the same as the two lists of keys being
    equal up to order. *)
Theorem X15_bypassActorsMatch_is_key_inclusion
    (actual expected : option (list BypassActor.t)) :
  (bypassActorsMatch actual expected = true
   ↔ sliceLen actual = sliceLen expected
     ∧ actorKey <$> elems actual ⊆ actorKey <$> elems expected)
  ∧ (NoDup (actorKey <$> elems actual) →
     bypassActorsMatch actual expected = true
     ↔ actorKey <$> elems actual ≡ₚ actorKey <$> elems expected).
Proof.
  split; [apply bypassActorsMatch_spec|].
  intros Hnodup. rewrite bypassActorsMatch_spec. unfold sliceLen.
  fold (elems actual) (elems expected). split.
  - intros [Hlen Hsub]. apply submseteq_length_Permutation.
    + by apply NoDup_submseteq.
    + rewrite !length_fmap. lia.
  - intros Hperm. split.
    + apply Permutation_length in Hperm. by rewrite !length_fmap in Hperm.
    + intros k Hk. by rewrite <-Hperm.
Qed.

Lemma X15_witness :
  bypassActorsMatch (Some [team 1; team 2]) (Some [team 2; team 1]) = true.
Proof.
  apply (proj2 (X15_bypassActorsMatch_is_key_inclusion
                  (Some [team 1; team 2]) (Some [team 2; team 1]))).
  - apply (bool_decide_unpack _). vm_compute. exact I.
  - apply perm_swap.
Defined.


End ChecksFacts.

(* ===================================================================== *)
(** * Further facts: the fixers                                           *)
(* ===================================================================== *)

Module FixFacts.
Import GoRuntime Github Checks Fix ChecksFacts.

Section FixerFacts.
Context `{!Externals}.

#[local] Existing Instance Fx_ret.
#[local] Existing Instance Fx_bind.

Lemma find_Forall_false {A} (p : A → bool) (l : list A) :
  Forall (λ x, p x = false) l → List.find p l = None.
Proof. induction 1 as [|x l Hx _ IH]; [done|]. cbn. by rewrite Hx. Qed.

(** X16: an issue whose data lacks the key a fixer reads is refused by
    that fixer with a failed result naming the key; the state is left as it
    was, and neither the client nor the configuration is touched, so this
    holds for fixers built with a nil client or a nil configuration too. *)
Theorem X16_fixers_refuse_issue_without_data_key (issue : Issue.t) (st : State) :
  (∀ f, dataAt (Issue.Data issue) DataKeySetting = "" →
     SettingsFixer_Fix f issue st
     = (Returned (failedResult issue (errors_New "issue data missing setting")), st))
  ∧ (∀ f, dataAt (Issue.Data issue) DataKeyFileName = "" →
     ActionsFixer_Fix f issue st
     = (Returned (failedResult issue (errors_New "issue data missing file_name")), st))
  ∧ (∀ f, dataAt (Issue.Data issue) DataKeyRulesetName = "" →
     RulesetsFixer_Fix f issue st
     = (Returned (failedResult issue (errors_New "issue data missing ruleset_name")), st))
  ∧ (∀ f, dataAt (Issue.Data issue) DataKeyFileName = "" →
     FilesFixer_Fix f issue st
     = (Returned (failedResult issue (errors_New "issue data missing file_name")), st)).
Proof.
  split_and!; intros f Hkey.
  - unfold SettingsFixer_Fix. by rewrite Hkey.
  - unfold ActionsFixer_Fix. by rewrite Hkey.
  - unfold RulesetsFixer_Fix. by rewrite Hkey.
  - unfold FilesFixer_Fix. by rewrite Hkey.
Qed.

(** X17: a ruleset or file issue that names something the fixer has no
    configuration entry for (no entry at all included) is answered with the
    failed result "no config found for ...", without a request and without
    a write. *)
Theorem X17_fixers_need_a_matching_config (issue : Issue.t) (st : State) :
  (∀ f, let name := dataAt (Issue.Data issue) DataKeyRulesetName in
     name ≠ "" →
     Forall (λ cfg, Config.RulesetConfig.Name cfg ≠ name) (elems (rulesets_configs f)) →
     RulesetsFixer_Fix f issue st
     = (Returned (failedResult issue
                    (errors_New ("no config found for ruleset '" +:+ name +:+ "'"))), st))
  ∧ (∀ f, let name := dataAt (Issue.Data issue) DataKeyFileName in
     name ≠ "" →
     Forall (λ cfg, Config.FileConfig.Name cfg ≠ name) (elems (files_configs f)) →
     FilesFixer_Fix f issue st
     = (Returned (failedResult issue
                    (errors_New ("no config found for file '" +:+ name +:+ "'"))), st)).
Proof.
  split; intros f name Hname Hall.
  - unfold RulesetsFixer_Fix. fold name.
    rewrite bool_decide_eq_false_2 by done.
    rewrite find_Forall_false; [done|].
    eapply Forall_impl; [exact Hall|]. intros cfg Hne. by apply bool_decide_eq_false_2.
  - unfold FilesFixer_Fix. fold name.
    rewrite bool_decide_eq_false_2 by done.
    rewrite find_Forall_false; [done|].
    eapply Forall_impl; [exact Hall|]. intros cfg Hne. by apply bool_decide_eq_false_2.
Qed.

(** ** Runs that return *)

(** [m] returns in every state: it does not panic. *)
Definition returns {A} (m : Fx A) : Prop := ∀ st, ∃ a st', m st = (Returned a, st').

Lemma returns_ret {A} (a : A) : returns (mret a).
Proof. intros st. by eexists _, _. Qed.

Lemma returns_bind {A B} (m : Fx A) (k : A → Fx B) :
  returns m → (∀ a, returns (k a)) → returns (mbind k m).
Proof.
  intros Hm Hk st. unfold mbind, Fx_bind.
  destruct (Hm st) as (a & st1 & ->). apply Hk.
Qed.

Lemma returns_call {A} (op : State → A * State) : returns (call op).
Proof. intros st. unfold call. destruct (op st). by eexists _, _. Qed.

Lemma returns_deref {A} (a : A) : returns (deref (Some a)).
Proof. apply returns_ret. Qed.

Lemma returns_bind_deref {A B} (a : A) (k : A → Fx B) :
  returns (k a) → returns (mbind k (deref (Some a))).
Proof. done. Qed.

Lemma returns_callOn {A} c (method : Client → State → A * State) :
  returns (callOn (Some c) method).
Proof. unfold callOn. apply returns_bind; [apply returns_deref | intros; apply returns_call]. Qed.

Lemma returns_ResolveReferenceFile reference c :
  returns (ResolveReferenceFile reference (Some c) : Fx (error + string)).
Proof.
  intros st. unfold ResolveReferenceFile.
  repeat first [case_match | case_bool_decide]; by eexists _, _.
Qed.

Lemma returns_FetchReferenceRuleset reference c :
  returns (FetchReferenceRuleset reference (Some c) : Fx (error + Ruleset.t)).
Proof.
  intros st. unfold FetchReferenceRuleset.
  destruct (returns_ResolveReferenceFile reference c st) as (r & st1 & ->).
  repeat case_match; by eexists _, _.
Qed.

Local Ltac returns_tac :=
  repeat first
    [ apply returns_ret
    | apply returns_call
    | apply returns_callOn
    | apply returns_bind_deref
    | apply returns_deref
    | apply returns_ResolveReferenceFile
    | apply returns_FetchReferenceRuleset
    | apply returns_bind; [|intros ?]
    | case_bool_decide
    | case_match ].

Lemma settingsRequest_returns f cfg setting :
  settings_config f = Some cfg →
  (setting ∈ mergeSettings → is_Some (Config.Merge cfg)) →
  returns (settingsRequest f setting).
Proof.
  intros Hcfg Hmerge. unfold settingsRequest. rewrite Hcfg.
  repeat (case_bool_decide as Hs;
          [ apply returns_bind_deref;
            try (destruct Hmerge as [m ->];
                 [rewrite Hs; apply (bool_decide_unpack _); by vm_compute|];
                 apply returns_bind_deref);
            apply returns_ret
          | clear Hs ]).
  apply returns_ret.
Qed.

(** The settings fixer returns when it has a client and a configuration,
    and a [Merge] in case the issue is about a merge setting. *)
Lemma SettingsFixer_Fix_returns f c cfg issue :
  settings_client f = Some c →
  settings_config f = Some cfg →
  (dataAt (Issue.Data issue) DataKeySetting ∈ mergeSettings → is_Some (Config.Merge cfg)) →
  returns (SettingsFixer_Fix f issue).
Proof.
  intros Hc Hcfg Hmerge.
  unfold SettingsFixer_Fix, fixActionsApprove, fixDependabotAlerts,
    fixDependabotSecurityUpdates.
  rewrite Hc, Hcfg.
  repeat (case_bool_decide; [returns_tac|]).
  apply returns_bind; [by eapply settingsRequest_returns | intros req; returns_tac].
Qed.

Lemma ActionsFixer_Fix_returns f c cfg issue :
  actions_client f = Some c → actions_config f = Some cfg →
  returns (ActionsFixer_Fix f issue).
Proof.
  intros Hc Hcfg. unfold ActionsFixer_Fix, fetchAndInterpolateReference.
  rewrite Hc, Hcfg. returns_tac.
Qed.

Lemma RulesetsFixer_Fix_returns f c issue :
  rulesets_client f = Some c → returns (RulesetsFixer_Fix f issue).
Proof.
  intros Hc. unfold RulesetsFixer_Fix, createRuleset, updateRulesetByID.
  rewrite Hc. returns_tac.
Qed.

Lemma FilesFixer_Fix_returns f c issue :
  files_client f = Some c → returns (FilesFixer_Fix f issue).
Proof.
  intros Hc. unfold FilesFixer_Fix, writeFile. rewrite Hc. returns_tac.
Qed.

Lemma fixLoop_returns o issues :
  (∀ ty fixer, fixers o !! ty = Some fixer → carries_issue fixer) →
  Forall (λ issue, ∀ fixer, Issue.Fixable issue = true →
                     fixers o !! Issue.Type_ issue = Some fixer →
                     returns (Fix fixer issue)) issues →
  ∀ results, returns (fixLoop o issues results).
Proof.
  intros Hcarry. induction 1 as [|issue issues Hret _ IH]; intros results.
  - apply returns_ret.
  - cbn [fixLoop]. destruct (Issue.Fixable issue) eqn:Hfixable; cbn [negb]; [|apply IH].
    destruct (fixers o !! Issue.Type_ issue) as [fixer|] eqn:Hfixer; [|apply IH].
    intros st. unfold mbind, Fx_bind.
    destruct (Hret fixer eq_refl eq_refl st) as (ret & st1 & Hfix). rewrite Hfix.
    destruct (Hcarry _ _ Hfixer _ _ _ _ Hfix) as (res & -> & _). apply IH.
Qed.

(** X18: with a client, a settings section that has a merge section, and
    an actions section, [Orchestrator.Fix] returns for every batch of
    issues and in every state: no error, and one result per issue, in
    order, each carrying its issue. *)
Theorem X18_Orchestrator_Fix_returns_with_full_config c cfg s m a verbose issues st :
  Config.Settings (Config.Checks cfg) = Some s →
  Config.Merge s = Some m →
  Config.Actions (Config.Checks cfg) = Some a →
  ∃ results st',
    Orchestrator_Fix (NewOrchestrator (Some c) cfg verbose) issues st
    = (Returned (results, None), st')
    ∧ length results = length issues
    ∧ Forall2 (λ issue res, Result.Issue res = issue) issues results.
Proof.
  intros Hs Hm Ha.
  assert (returns (fixLoop (NewOrchestrator (Some c) cfg verbose) issues [])) as Hret.
  { apply fixLoop_returns; [apply NewOrchestrator_fixers_carry|].
    apply Forall_forall. intros issue _ fixer _ Hlook.
    cbn [fixers NewOrchestrator] in Hlook.
    repeat (apply lookup_insert_Some in Hlook as [[_ <-]|[_ Hlook]];
            [cbn [Fix FilesFixer_Fixer RulesetsFixer_Fixer ActionsFixer_Fixer
                    SettingsFixer_Fixer]|]).
    - by eapply FilesFixer_Fix_returns.
    - by eapply RulesetsFixer_Fix_returns.
    - eapply ActionsFixer_Fix_returns; [done | exact Ha].
    - eapply SettingsFixer_Fix_returns; [done | exact Hs |]. rewrite Hm. by eexists.
    - by rewrite lookup_empty in Hlook. }
  destruct (Hret st) as (results & st' & Hloop).
  assert (Orchestrator_Fix (NewOrchestrator (Some c) cfg verbose) issues st
          = (Returned (results, None), st')) as Hfix.
  { unfold Orchestrator_Fix, mbind, Fx_bind. by rewrite Hloop. }
  exists results, st'. split; [done|].
  apply Orchestrator_Fix_contract in Hfix as (_ & Hlen & Hall). split; [done|].
  eapply Forall2_impl; [exact Hall|]. by intros issue res [? _].
Qed.

(** ** What the rulesets fixer sends, seen by the rulesets check *)

(** A ruleset that holds exactly what a create or update request says. *)
Definition stored (id : Z) (req : RulesetCreateRequest.t) : Ruleset.t :=
  Ruleset.mk id (RulesetCreateRequest.Name req) (RulesetCreateRequest.Target req)
             (RulesetCreateRequest.Enforcement req) (RulesetCreateRequest.Conditions req)
             (RulesetCreateRequest.Rules req) (RulesetCreateRequest.BypassActors req).

Lemma rulesByType_elem (rules : list RulesetRule.t) (acc : gmap string RulesetRule.t)
    ty rule :
  foldl (λ byType rule, <[RulesetRule.Type_ rule := rule]> byType) acc rules !! ty
  = Some rule →
  acc !! ty = Some rule ∨ rule ∈ rules.
Proof.
  revert acc. induction rules as [|r rules IH]; intros acc Hlook; cbn [foldl] in Hlook.
  - by left.
  - apply IH in Hlook as [Hlook|Hin]; [|right; by apply elem_of_cons; right].
    apply lookup_insert_Some in Hlook as [[_ <-]|[_ Hlook]];
      [right; apply elem_of_cons; by left | by left].
Qed.

Lemma ruleParametersMatch_refl (p : option (gmap string json)) :
  (∀ params, p = Some params → ∃ s, json_Marshal params = inr s) →
  ruleParametersMatch p p = true.
Proof.
  intros Hmarshal. destruct p as [params|]; [|done]. cbn.
  destruct (Hmarshal params eq_refl) as (s & ->). by apply bool_decide_eq_true_2.
Qed.

Lemma rulesMatch_refl (rules : option (list RulesetRule.t)) :
  (∀ rule params, rule ∈ elems rules → RulesetRule.Parameters rule = Some params →
                  ∃ s, json_Marshal params = inr s) →
  rulesMatch rules rules = true.
Proof.
  intros Hmarshal. unfold rulesMatch.
  rewrite bool_decide_eq_false_2 by (intros Hne; by apply Hne).
  apply andb_true_iff. split; apply forallb_forall; intros [ty rule] Hin;
    apply list_elem_of_In, elem_of_map_to_list in Hin.
  - fold (rulesByType (elems rules)). rewrite Hin.
    apply ruleParametersMatch_refl. intros params Hparams.
    apply rulesByType_elem in Hin as [Hin|Hin]; [by rewrite lookup_empty in Hin|].
    by eapply Hmarshal.
  - apply bool_decide_eq_true_2. by eexists.
Qed.

Lemma conditionsMatch_normalised (conditions : option RulesetConditions.t) :
  conditionsMatch
    (match conditions with
     | Some conditions =>
         Some (RulesetConditions.mk
                 (match RulesetConditions.RefName conditions with
                  | Some refName =>
                      Some (RefNameCondition.mk
                              (Some (elems (RefNameCondition.Include refName)))
                              (Some (elems (RefNameCondition.Exclude refName))))
                  | None => None
                  end))
     | None => None
     end) conditions = true.
Proof.
  destruct conditions as [[[[include exclude]|]]|]; cbn; [|done..].
  by rewrite !stringSlicesEqual_elems.
Qed.

(** X19: what the rulesets fixer sends passes the rulesets check: a
    ruleset that holds exactly the request built from a reference ruleset
    matches that reference, although the request has empty lists where the
    reference has nil ones, provided the parameters of every rule of the
    reference can be marshalled. *)
Theorem X19_ruleset_request_matches_its_reference cfg (refRuleset : Ruleset.t) (id : Z) :
  (∀ rule params, rule ∈ elems (Ruleset.Rules refRuleset) →
                  RulesetRule.Parameters rule = Some params →
                  ∃ s, json_Marshal params = inr s) →
  rulesetsMatch (stored id (buildRulesetRequest cfg refRuleset)) refRuleset = true.
Proof.
  intros Hmarshal. unfold rulesetsMatch, stored, buildRulesetRequest.
  cbn [Ruleset.Enforcement Ruleset.Target Ruleset.Conditions Ruleset.Rules
         Ruleset.BypassActors RulesetCreateRequest.Enforcement
         RulesetCreateRequest.Target RulesetCreateRequest.Conditions
         RulesetCreateRequest.Rules RulesetCreateRequest.BypassActors].
  rewrite !bool_decide_eq_false_2 by (intros Hne; by apply Hne).
  rewrite conditionsMatch_normalised, rulesMatch_refl by done. cbn [negb].
  assert (bypassActorsMatch (Some (elems (Ruleset.BypassActors refRuleset)))
                            (Ruleset.BypassActors refRuleset) = true) as ->; [|done].
  apply bypassActorsMatch_spec. by split.
Qed.


End FixerFacts.

(** ** The facts on concrete inputs *)

Definition fullSettings : Config.SettingsConfig :=
  {| Config.Issues := Some true; Config.Wiki := None; Config.Projects := None;
     Config.Discussions := None; Config.AllowActionsToApprovePRs := None;
     Config.PullRequestCreationPolicy := ""; Config.Merge := Some Config.emptyMerge;
     Config.DefaultBranch := ""; Config.Dependabot := None |}.

Definition emptyActions : Config.ActionsConfig :=
  {| Config.RequirePinnedVersions := None; Config.RequiredWorkflows := None;
     Config.RequireTimeout := None; Config.MaxTimeoutMinutes := None;
     Config.RequireMinimalPermissions := None |}.

Definition fullConfig : Config.Config :=
  {| Config.Checks :=
       {| Config.Settings := Some fullSettings; Config.Actions := Some emptyActions;
          Config.Rulesets := None; Config.Files := None |} |}.

Lemma X18_witness :
  ∃ results st',
    @Orchestrator_Fix (scripted alwaysFine noFiles)
      (@NewOrchestrator (scripted alwaysFine noFiles) (Some acme) fullConfig false)
      [brokenLink; settingIssue "merge_commit"] (freshState alwaysFine noFiles)
    = (Returned (results, None), st')
    ∧ length results = 2
    ∧ Forall2 (λ issue res, Result.Issue res = issue)
              [brokenLink; settingIssue "merge_commit"] results.
Proof.
  apply (@X18_Orchestrator_Fix_returns_with_full_config (scripted alwaysFine noFiles)
           acme fullConfig fullSettings Config.emptyMerge emptyActions false
           [brokenLink; settingIssue "merge_commit"] (freshState alwaysFine noFiles));
    reflexivity.
Defined.

(** A reference ruleset with nil include and exclude lists and nil bypass
    actors. *)
Definition branchProtection : Ruleset.t :=
  Ruleset.mk 7 "main protection" "branch" "active"
             (Some (RulesetConditions.mk (Some (RefNameCondition.mk None None))))
             (Some [RulesetRule.mk "deletion" None;
                    RulesetRule.mk "pull_request" (Some ∅)])
             None.

Lemma X19_witness :
  @rulesetsMatch (scripted alwaysFine noFiles)
    (stored 1 (buildRulesetRequest (Config.RulesetConfig.mk "main" "acme/policies/main.json")
                                   branchProtection))
    branchProtection = true.
Proof.
  apply (@X19_ruleset_request_matches_its_reference (scripted alwaysFine noFiles)).
  intros rule params _ _. exists "{}". reflexivity.
Defined.


Definition unknownRuleset : Issue.t :=
  Issue.mk CheckTypeRulesets "rulesets(main)" "Ruleset 'main' does not exist" true
           {[DataKeyRulesetName := "main"]}.

Lemma X16_witness :
  @SettingsFixer_Fix (scripted alwaysFine noFiles) (NewSettingsFixer None None false)
    unknownRuleset (freshState alwaysFine noFiles)
  = (Returned (failedResult unknownRuleset (errors_New "issue data missing setting")),
     freshState alwaysFine noFiles).
Proof.
  apply (proj1 (@X16_fixers_refuse_issue_without_data_key (scripted alwaysFine noFiles)
                  unknownRuleset (freshState alwaysFine noFiles))).
  reflexivity.
Defined.

Lemma X17_witness :
  @RulesetsFixer_Fix (scripted alwaysFine noFiles) (NewRulesetsFixer None None false)
    unknownRuleset (freshState alwaysFine noFiles)
  = (Returned (failedResult unknownRuleset
                 (errors_New "no config found for ruleset 'main'")),
     freshState alwaysFine noFiles).
Proof.
  apply (proj1 (@X17_fixers_need_a_matching_config (scripted alwaysFine noFiles)
                  unknownRuleset (freshState alwaysFine noFiles))
               (NewRulesetsFixer None None false)).
  - done.
  - constructor.
Defined.


End FixFacts.

(* ===================================================================== *)
(** * Package checks: the checks and their runner                         *)
(* ===================================================================== *)

Module CheckRuns.
Import GoRuntime Github Checks Fix.

Section Runs.
Context `{!Externals}.

Set Default Proof Using "Type".

(** [glob.Compile] of github.com/gobwas/glob: the [Match] method of the
    compiled pattern, or an error. *)
Variable glob_Compile : string → error + (string → bool).

(** [bytes.TrimSpace] *)
Variable bytes_TrimSpace : string → string.

#[local] Existing Instance Fx_ret.
#[local] Existing Instance Fx_bind.

(** [v, err := m; if err != nil { return nil, wrap(err) }; k v] *)
Definition orReturn {A B} (m : Fx (error + A)) (wrap : error → error)
    (k : A → Fx (error + B)) : Fx (error + B) :=
  r ← m;
  match r with
  | inl err => mret (inl (wrap err))
  | inr a => k a
  end.

(** ** SettingsCheck *)

Record SettingsCheck := {
  settingsCheck_client : option Client;
  settingsCheck_config : option Config.SettingsConfig;
  settingsCheck_verbose : bool;
}.

Definition NewSettingsCheck (client : option Client) (cfg : option Config.SettingsConfig)
    (verbose : bool) : SettingsCheck :=
  {| settingsCheck_client := client; settingsCheck_config := cfg;
     settingsCheck_verbose := verbose |}.

Definition boolToEnabled (b : bool) : string := if b then "enabled" else "disabled".
Definition boolToAllowed (b : bool) : string := if b then "allowed" else "disallowed".

(** The issue literal of the settings check: type and name are those of
    the check, the issue is fixable and its data holds the setting. *)
Definition settingsIssue (message setting : string) : Issue.t :=
  Issue.mk CheckTypeSettings "settings" message true {[DataKeySetting := setting]}.

(** [fmt.Sprintf("... %s but should be %s", render(have), render(want))] *)
Definition butShouldBe (subject : string) (render : bool → string) (have want : bool)
    : string :=
  subject +:+ render have +:+ " but should be " +:+ render want.

(** [if want != nil && have != *want { issues = append(issues, issue) }] *)
Definition whenDiffers (want : option bool) (have : bool) (issue : bool → Issue.t)
    : list Issue.t :=
  match want with
  | Some want => if bool_decide (have ≠ want) then [issue want] else []
  | None => []
  end.

Definition checkMergeSettings (c : SettingsCheck) (repo : Repository.t)
    : Fx (list Issue.t) :=
  cfg ← deref (settingsCheck_config c);
  merge ← deref (Config.Merge cfg);
  mret
    (whenDiffers (Config.AllowMergeCommit merge) (Repository.AllowMergeCommit repo)
       (λ want, settingsIssue
                  (butShouldBe "Merge commits are " boolToAllowed
                               (Repository.AllowMergeCommit repo) want) "merge_commit")
     ++ whenDiffers (Config.AllowSquashMerge merge) (Repository.AllowSquashMerge repo)
       (λ want, settingsIssue
                  (butShouldBe "Squash merge is " boolToAllowed
                               (Repository.AllowSquashMerge repo) want) "squash_merge")
     ++ whenDiffers (Config.AllowRebaseMerge merge) (Repository.AllowRebaseMerge repo)
       (λ want, settingsIssue
                  (butShouldBe "Rebase merge is " boolToAllowed
                               (Repository.AllowRebaseMerge repo) want) "rebase_merge")
     ++ whenDiffers (Config.AllowAutoMerge merge) (Repository.AllowAutoMerge repo)
       (λ want, settingsIssue
                  (butShouldBe "Auto-merge is " boolToEnabled
                               (Repository.AllowAutoMerge repo) want) "auto_merge")
     ++ whenDiffers (Config.DeleteBranchOnMerge merge) (Repository.DeleteBranchOnMerge repo)
       (λ want, settingsIssue
                  (butShouldBe "Delete branch on merge is " boolToEnabled
                               (Repository.DeleteBranchOnMerge repo) want)
                  "delete_branch_on_merge")
     ++ whenDiffers (Config.AlwaysSuggestUpdatingPullRequestBranches merge)
                    (Repository.AllowUpdateBranch repo)
       (λ want, settingsIssue
                  (butShouldBe "Always suggest updating PR branches is " boolToEnabled
                               (Repository.AllowUpdateBranch repo) want) "update_branch")).

Definition checkDependabotSettings (c : SettingsCheck) : Fx (error + list Issue.t) :=
  cfg ← deref (settingsCheck_config c);
  dep ← deref (Config.Dependabot cfg);
  let securityUpdates (issues : list Issue.t) : Fx (error + list Issue.t) :=
    match Config.SecurityUpdates dep with
    | Some want =>
        orReturn (callOn (settingsCheck_client c) GetAutomatedSecurityFixes)
                 (fmt_Errorf_w "failed to check automated security fixes")
                 (λ fixes,
                    mret (inr (issues
                               ++ whenDiffers (Some want)
                                    (AutomatedSecurityFixes.Enabled fixes)
                                    (λ want, settingsIssue
                                               (butShouldBe
                                                  "Dependabot security updates is "
                                                  boolToEnabled
                                                  (AutomatedSecurityFixes.Enabled fixes)
                                                  want)
                                               "dependabot_security_updates"))))
    | None => mret (inr issues)
    end in
  match Config.Alerts dep with
  | Some want =>
      orReturn (callOn (settingsCheck_client c) GetVulnerabilityAlertsEnabled)
               (fmt_Errorf_w "failed to check vulnerability alerts")
               (λ enabled,
                  securityUpdates
                    (whenDiffers (Some want) enabled
                       (λ want, settingsIssue
                                  (butShouldBe "Dependabot alerts is " boolToEnabled
                                               enabled want)
                                  "dependabot_alerts")))
  | None => securityUpdates []
  end.

(** The issues of [SettingsCheck.Run] that need nothing but the
    repository: the four feature toggles. *)
Definition toggleIssues (cfg : Config.SettingsConfig) (repo : Repository.t)
    : list Issue.t :=
  whenDiffers (Config.Issues cfg) (Repository.HasIssues repo)
    (λ want, settingsIssue
               (butShouldBe "Issues is " boolToEnabled (Repository.HasIssues repo) want)
               "issues")
  ++ whenDiffers (Config.Wiki cfg) (Repository.HasWiki repo)
    (λ want, settingsIssue
               (butShouldBe "Wiki is " boolToEnabled (Repository.HasWiki repo) want)
               "wiki")
  ++ whenDiffers (Config.Projects cfg) (Repository.HasProjects repo)
    (λ want, settingsIssue
               (butShouldBe "Projects is " boolToEnabled (Repository.HasProjects repo)
                            want) "projects")
  ++ whenDiffers (Config.Discussions cfg) (Repository.HasDiscussions repo)
    (λ want, settingsIssue
               (butShouldBe "Discussions is " boolToEnabled
                            (Repository.HasDiscussions repo) want) "discussions").

(** The issue for a default branch that does not match the pattern: not
    fixable, and without data. *)
Definition defaultBranchIssue (cfg : Config.SettingsConfig) (repo : Repository.t)
    : Issue.t :=
  Issue.mk CheckTypeSettings "settings"
           ("Default branch '" +:+ Repository.DefaultBranch repo
            +:+ "' does not match pattern '" +:+ Config.DefaultBranch cfg +:+ "'")
           false ∅.

Definition creationPolicyIssue (cfg : Config.SettingsConfig) (repo : Repository.t)
    : Issue.t :=
  settingsIssue ("Pull request creation policy is '"
                 +:+ Repository.PullRequestCreationPolicy repo
                 +:+ "' but should be '" +:+ Config.PullRequestCreationPolicy cfg +:+ "'")
                "pull_request_creation_policy".

Definition SettingsCheck_Run (c : SettingsCheck) : Fx (error + list Issue.t) :=
  match settingsCheck_config c with
  | None => mret (inr [])
  | Some cfg =>
      orReturn (callOn (settingsCheck_client c) GetRepository)
               (fmt_Errorf_w "failed to fetch repository")
      (λ repo,
         let issues := toggleIssues cfg repo in
         let afterApprove (issues : list Issue.t) : Fx (error + list Issue.t) :=
           issues ←
             (match Config.Merge cfg with
              | Some _ =>
                  mergeIssues ← checkMergeSettings c repo; mret (issues ++ mergeIssues)
              | None => mret issues
              end);
           let afterBranch (issues : list Issue.t) : Fx (error + list Issue.t) :=
             let issues :=
               if bool_decide (Config.PullRequestCreationPolicy cfg ≠ "")
                  && bool_decide (Repository.PullRequestCreationPolicy repo
                                  ≠ Config.PullRequestCreationPolicy cfg)
               then issues ++ [creationPolicyIssue cfg repo]
               else issues in
             match Config.Dependabot cfg with
             | Some _ =>
                 orReturn (checkDependabotSettings c) id
                          (λ dependabotIssues, mret (inr (issues ++ dependabotIssues)))
             | None => mret (inr issues)
             end in
           if bool_decide (Config.DefaultBranch cfg ≠ "") then
             match glob_Compile (Config.DefaultBranch cfg) with
             | inl err => mret (inl (fmt_Errorf_w "invalid default_branch pattern" err))
             | inr g_Match =>
                 if negb (g_Match (Repository.DefaultBranch repo))
                 then afterBranch (issues ++ [defaultBranchIssue cfg repo])
                 else afterBranch issues
             end
           else afterBranch issues in
         match Config.AllowActionsToApprovePRs cfg with
         | Some want =>
             orReturn (callOn (settingsCheck_client c) GetWorkflowPermissions)
                      (fmt_Errorf_w "failed to fetch workflow permissions")
             (λ perms,
                afterApprove
                  (issues
                   ++ whenDiffers (Some want)
                        (WorkflowPermissions.CanApprovePullRequestReviews perms)
                        (λ want, settingsIssue
                                   (butShouldBe "Actions can approve PRs is " boolToEnabled
                                      (WorkflowPermissions.CanApprovePullRequestReviews
                                         perms) want)
                                   "actions_approve_prs")))
         | None => afterApprove issues
         end)
  end.

(** ** FilesCheck *)

Record FilesCheck := {
  filesCheck_client : option Client;
  filesCheck_config : option Config.FileConfig.t;
  filesCheck_verbose : bool;
}.

Definition NewFilesCheck (client : option Client) (cfg : option Config.FileConfig.t)
    (verbose : bool) : FilesCheck :=
  {| filesCheck_client := client; filesCheck_config := cfg; filesCheck_verbose := verbose |}.

(** ["files(" + c.config.Name + ")"]: a nil [config] panics. *)
Definition FilesCheck_Name (c : FilesCheck) : outcome string :=
  match filesCheck_config c with
  | Some cfg => Returned ("files(" +:+ Config.FileConfig.Name cfg +:+ ")")
  | None => Panicked nilDereference
  end.

Definition fileIssue (cfg : Config.FileConfig.t) (message : string) : Issue.t :=
  Issue.mk CheckTypeFiles ("files(" +:+ Config.FileConfig.Name cfg +:+ ")") message true
           (<[DataKeyFileName := Config.FileConfig.Name cfg]>
              {[DataKeyReference := Config.FileConfig.Reference cfg]}).

Definition FilesCheck_Run (c : FilesCheck) : Fx (error + list Issue.t) :=
  match filesCheck_config c with
  | None => mret (inr [])
  | Some cfg =>
      if bool_decide (Config.FileConfig.Reference cfg = "")
      then mret (inl (errors_New ("file '" +:+ Config.FileConfig.Name cfg
                                  +:+ "' missing required reference field")))
      else
        orReturn (ResolveReferenceFile (Config.FileConfig.Reference cfg)
                                       (filesCheck_client c))
                 (fmt_Errorf_w "failed to fetch reference file")
        (λ expectedContent,
           client ← deref (filesCheck_client c);
           orReturn (mret (HydrateTemplate client expectedContent))
                    (fmt_Errorf_w "failed to hydrate reference template")
           (λ hydratedContent,
              actualContent ← call (GetLocalFileContent (filesCheck_client c)
                                      (Config.FileConfig.Name cfg));
              match actualContent with
              | inl _ =>
                  mret (inr [fileIssue cfg ("File '" +:+ Config.FileConfig.Name cfg
                                            +:+ "' does not exist")])
              | inr actualContent =>
                  if negb (bool_decide (bytes_TrimSpace actualContent
                                        = bytes_TrimSpace hydratedContent))
                  then mret (inr [fileIssue cfg
                                    ("File '" +:+ Config.FileConfig.Name cfg
                                     +:+ "' does not match reference '"
                                     +:+ Config.FileConfig.Reference cfg +:+ "'")])
                  else mret (inr [])
              end))
  end.

(** ** RulesetsCheck *)

Record RulesetsCheck := {
  rulesetsCheck_client : option Client;
  rulesetsCheck_config : option Config.RulesetConfig.t;
  rulesetsCheck_verbose : bool;
}.

Definition NewRulesetsCheck (client : option Client) (cfg : option Config.RulesetConfig.t)
    (verbose : bool) : RulesetsCheck :=
  {| rulesetsCheck_client := client; rulesetsCheck_config := cfg;
     rulesetsCheck_verbose := verbose |}.

Definition RulesetsCheck_Name (c : RulesetsCheck) : outcome string :=
  match rulesetsCheck_config c with
  | Some cfg => Returned ("rulesets(" +:+ Config.RulesetConfig.Name cfg +:+ ")")
  | None => Panicked nilDereference
  end.

Definition rulesetIssue (cfg : Config.RulesetConfig.t) (message : string) : Issue.t :=
  Issue.mk CheckTypeRulesets ("rulesets(" +:+ Config.RulesetConfig.Name cfg +:+ ")")
           message true
           (<[DataKeyRulesetName := Config.RulesetConfig.Name cfg]>
              {[DataKeyReference := Config.RulesetConfig.Reference cfg]}).

Definition RulesetsCheck_Run (c : RulesetsCheck) : Fx (error + list Issue.t) :=
  match rulesetsCheck_config c with
  | None => mret (inr [])
  | Some cfg =>
      if bool_decide (Config.RulesetConfig.Reference cfg = "")
      then mret (inl (errors_New ("ruleset '" +:+ Config.RulesetConfig.Name cfg
                                  +:+ "' missing required reference field")))
      else
        orReturn (FetchReferenceRuleset (Config.RulesetConfig.Reference cfg)
                                        (rulesetsCheck_client c))
                 (fmt_Errorf_w "failed to fetch reference ruleset")
        (λ expectedRuleset,
           orReturn (callOn (rulesetsCheck_client c) GetRulesets)
                    (fmt_Errorf_w "failed to fetch rulesets")
           (λ rulesets,
              match List.find (λ rs, bool_decide (Ruleset.Name rs
                                                  = Config.RulesetConfig.Name cfg))
                              rulesets with
              | None =>
                  mret (inr [rulesetIssue cfg
                               ("Ruleset '" +:+ Config.RulesetConfig.Name cfg
                                +:+ "' does not exist")])
              | Some rs =>
                  orReturn (callOn (rulesetsCheck_client c)
                              (λ client, GetRuleset client (Ruleset.ID rs)))
                           (fmt_Errorf_w "failed to fetch ruleset details")
                  (λ matchingRuleset,
                     if negb (rulesetsMatch matchingRuleset expectedRuleset)
                     then mret (inr [rulesetIssue cfg
                                       ("Ruleset '" +:+ Config.RulesetConfig.Name cfg
                                        +:+ "' does not match reference '"
                                        +:+ Config.RulesetConfig.Reference cfg +:+ "'")])
                     else mret (inr []))
              end))
  end.

(** ** The runner *)

(** [type Check interface { Type() CheckType; Name() string; Run(ctx) ([]Issue, error) }]:
    an interface value is its method table, closed over the receiver.  The
    [Name] methods of this package read at most the configuration, so a
    name is a string or a panic. *)
Record Check := {
  Type_ : string;
  Name : outcome string;
  Run : Fx (error + list Issue.t);
}.

Definition SettingsCheck_Check (c : SettingsCheck) : Check :=
  {| Type_ := CheckTypeSettings; Name := Returned "settings"; Run := SettingsCheck_Run c |}.
Definition RulesetsCheck_Check (c : RulesetsCheck) : Check :=
  {| Type_ := CheckTypeRulesets; Name := RulesetsCheck_Name c; Run := RulesetsCheck_Run c |}.
Definition FilesCheck_Check (c : FilesCheck) : Check :=
  {| Type_ := CheckTypeFiles; Name := FilesCheck_Name c; Run := FilesCheck_Run c |}.

Record Runner := {
  runner_client : option Client;
  runner_config : option Config.Config;
  checks : list Check;
  runner_verbose : bool;
}.

(** [skipMap[s] = true] for each [s] of [skip]. *)
Definition makeSkipMap (skip : list string) : gmap string bool :=
  foldl (λ skipMap s, <[s := true]> skipMap) ∅ skip.

(** The loop of [Runner.Run], with the issues appended so far. *)
Fixpoint runLoop (skipMap : gmap string bool) (cs : list Check) (allIssues : list Issue.t)
    : Fx (error + list Issue.t) :=
  match cs with
  | [] => mret (inr allIssues)
  | check :: cs =>
      match Name check with
      | Panicked msg => λ st, (Panicked msg, st)
      | Returned name =>
          if default false (skipMap !! name) then runLoop skipMap cs allIssues
          else
            orReturn (Run check) id
                     (λ issues, runLoop skipMap cs (allIssues ++ issues))
      end
  end.

Definition Runner_Run (r : Runner) (skip : list string) : Fx (error + list Issue.t) :=
  runLoop (makeSkipMap skip) (checks r) [].

Fixpoint GetCheckNames_loop (cs : list Check) (names : list string)
    : outcome (list string) :=
  match cs with
  | [] => Returned names
  | check :: cs =>
      match Name check with
      | Panicked msg => Panicked msg
      | Returned name => GetCheckNames_loop cs (names ++ [name])
      end
  end.

Definition GetCheckNames (r : Runner) : outcome (list string) :=
  GetCheckNames_loop (checks r) [].

Record CheckStatus := { status_Name : string; status_Skipped : bool }.

(** The composite literal names [Name] only: [Skipped] keeps its zero
    value. *)
Fixpoint GetCheckStatuses_loop (cs : list Check) (statuses : list CheckStatus)
    : outcome (list CheckStatus) :=
  match cs with
  | [] => Returned statuses
  | check :: cs =>
      match Name check with
      | Panicked msg => Panicked msg
      | Returned name => GetCheckStatuses_loop cs
          (statuses ++ [{| status_Name := name; status_Skipped := false |}])
      end
  end.

Definition GetCheckStatuses (r : Runner) : outcome (list CheckStatus) :=
  GetCheckStatuses_loop (checks r) [].


(** ** What a run hands back when it returns *)

(** Whenever [m] returns, its result satisfies [Q]. *)
Definition gives {A} (Q : A → Prop) (m : Fx A) : Prop :=
  ∀ st a st', m st = (Returned a, st') → Q a.

(** [Q] of the value, for a result without error. *)
Definition onSuccess {A} (Q : A → Prop) (r : error + A) : Prop :=
  ∀ a, r = inr a → Q a.

Lemma gives_ret {A} (Q : A → Prop) a : Q a → gives Q (mret a).
Proof. by intros HQ st a' st' [= <- _]. Qed.

Lemma gives_bind {A B} (R : A → Prop) (Q : B → Prop) (m : Fx A) (k : A → Fx B) :
  gives R m → (∀ a, R a → gives Q (k a)) → gives Q (mbind k m).
Proof.
  intros Hm Hk st b st'. unfold mbind, Fx_bind.
  destruct (m st) as [[a|msg] st1] eqn:Hrun; [|done]. eapply Hk, Hm, Hrun.
Qed.

Lemma gives_bind_deref {A B} (Q : B → Prop) (a : A) (k : A → Fx B) :
  gives Q (k a) → gives Q (mbind k (deref (Some a))).
Proof. done. Qed.

Lemma gives_any {A} (m : Fx A) : gives (λ _, True) m.
Proof. done. Qed.

Lemma gives_orReturn {A B} (R : A → Prop) (Q : B → Prop) (m : Fx (error + A)) wrap
    (k : A → Fx (error + B)) :
  gives (onSuccess R) m → (∀ a, R a → gives (onSuccess Q) (k a)) →
  gives (onSuccess Q) (orReturn m wrap k).
Proof.
  intros Hm Hk. unfold orReturn. apply (gives_bind (onSuccess R)); [done|].
  intros [err|a] Ha; [by apply gives_ret | by apply Hk, Ha].
Qed.

Lemma gives_success {A} (Q : A → Prop) (a : A) : Q a → gives (onSuccess Q) (mret (inr a)).
Proof. intros HQ. apply gives_ret. by intros ? [= <-]. Qed.

Lemma gives_failure {A} (Q : A → Prop) (err : error) :
  gives (onSuccess Q) (mret (inl err)).
Proof. by apply gives_ret. Qed.

Lemma onSuccess_any {A} (m : Fx (error + A)) : gives (onSuccess (λ _, True)) m.
Proof. done. Qed.

(** ** The issues of the settings check *)

(** What the settings fixer needs of an issue for not dereferencing a nil
    [Merge]. *)
Definition mergeConfigured (cfg : Config.SettingsConfig) (issue : Issue.t) : Prop :=
  Issue.Type_ issue = CheckTypeSettings
  ∧ (dataAt (Issue.Data issue) DataKeySetting ∈ mergeSettings →
     is_Some (Config.Merge cfg)).

Lemma mergeConfigured_other cfg message setting :
  setting ∉ mergeSettings → mergeConfigured cfg (settingsIssue message setting).
Proof.
  intros Hnot. split; [done|]. unfold dataAt, settingsIssue. cbn [Issue.Data].
  by rewrite lookup_singleton_eq.
Qed.

Lemma mergeConfigured_merge cfg message setting :
  is_Some (Config.Merge cfg) → mergeConfigured cfg (settingsIssue message setting).
Proof. by split. Qed.

Lemma whenDiffers_Forall (P : Issue.t → Prop) want have issue :
  (∀ want, P (issue want)) → Forall P (whenDiffers want have issue).
Proof.
  intros HP. unfold whenDiffers. destruct want; [|done].
  case_bool_decide; [|done]. by constructor.
Qed.

Local Ltac other_setting :=
  apply mergeConfigured_other, (bool_decide_unpack _); by vm_compute.

Local Ltac issues_tac :=
  repeat match goal with
         | |- Forall _ [] => apply Forall_nil_2
         | |- Forall _ (_ ++ _) => apply Forall_app_2
         | |- Forall _ [_] => constructor
         | |- Forall _ (whenDiffers _ _ _) => apply whenDiffers_Forall; intros ?
         | |- Forall _ _ => assumption
         | |- mergeConfigured _ _ =>
             first [other_setting | by apply mergeConfigured_merge | assumption]
         end.

Lemma toggleIssues_mergeConfigured cfg repo :
  Forall (mergeConfigured cfg) (toggleIssues cfg repo).
Proof. unfold toggleIssues. issues_tac. Qed.

Lemma checkMergeSettings_mergeConfigured c cfg repo :
  settingsCheck_config c = Some cfg → is_Some (Config.Merge cfg) →
  gives (Forall (mergeConfigured cfg)) (checkMergeSettings c repo).
Proof.
  intros Hcfg Hmerge. unfold checkMergeSettings. rewrite Hcfg.
  apply gives_bind_deref. destruct Hmerge as [merge Hmerge]. rewrite Hmerge.
  apply gives_bind_deref, gives_ret.
  assert (is_Some (Config.Merge cfg)) by (by eexists). issues_tac.
Qed.

Lemma checkDependabotSettings_mergeConfigured c cfg :
  settingsCheck_config c = Some cfg →
  gives (onSuccess (Forall (mergeConfigured cfg))) (checkDependabotSettings c).
Proof.
  intros Hcfg. unfold checkDependabotSettings. rewrite Hcfg.
  apply gives_bind_deref. apply (gives_bind (λ _, True)); [done|]. intros dep _.
  repeat first
    [ case_match
    | apply (gives_orReturn (λ _, True)); [done|intros ? _]
    | apply gives_success; issues_tac ].
Qed.

Local Ltac goal_match :=
  match goal with
  | |- context [match ?x with _ => _ end] => destruct x eqn:?
  end.

Lemma SettingsCheck_Run_mergeConfigured c cfg :
  settingsCheck_config c = Some cfg →
  gives (onSuccess (Forall (mergeConfigured cfg))) (SettingsCheck_Run c).
Proof.
  intros Hcfg. unfold SettingsCheck_Run. rewrite Hcfg. cbv zeta.
  apply (gives_orReturn (λ _, True)); [done|]. intros repo _.
  pose proof (toggleIssues_mergeConfigured cfg repo) as Htoggles.
  assert (mergeConfigured cfg (defaultBranchIssue cfg repo)) as Hbranch.
  { split; [done|]. unfold dataAt, defaultBranchIssue. cbn [Issue.Data].
    rewrite lookup_empty. cbn. intros Hin. exfalso. revert Hin.
    apply (bool_decide_unpack _). by vm_compute. }
  repeat first
    [ apply gives_failure
    | apply gives_success; by issues_tac
    | apply gives_ret; by issues_tac
    | apply (gives_orReturn (Forall (mergeConfigured cfg)));
        [by apply checkDependabotSettings_mergeConfigured | intros ? ?]
    | apply (gives_orReturn (λ _, True)); [done | intros ? _]
    | apply (gives_bind (Forall (mergeConfigured cfg)));
        [ first
            [ apply checkMergeSettings_mergeConfigured;
                [ done
                | match goal with
                  | Hm : Config.Merge cfg = Some _ |- _ => rewrite Hm; by eexists
                  end ]
            | idtac ]
        | intros ? ? ]
    | goal_match ].
Qed.


(** ** From the checks to the fixers *)

Lemma SettingsCheck_Run_client c cfg st r st' :
  settingsCheck_config c = Some cfg →
  SettingsCheck_Run c st = (Returned r, st') → is_Some (settingsCheck_client c).
Proof.
  intros Hcfg. unfold SettingsCheck_Run. rewrite Hcfg.
  unfold orReturn, mbind at 1, Fx_bind at 1, callOn, mbind at 1, Fx_bind at 1.
  destruct (settingsCheck_client c); [by eexists | done].
Qed.

Lemma RulesetsCheck_Run_issues c :
  gives (onSuccess (Forall (λ issue, Issue.Type_ issue = CheckTypeRulesets)))
        (RulesetsCheck_Run c).
Proof.
  unfold RulesetsCheck_Run.
  repeat first
    [ apply gives_failure
    | apply gives_success; repeat constructor
    | apply (gives_orReturn (λ _, True)); [done | intros ? _]
    | goal_match ].
Qed.

Lemma RulesetsCheck_Run_client c st issue issues st' :
  RulesetsCheck_Run c st = (Returned (inr (issue :: issues)), st') →
  is_Some (rulesetsCheck_client c).
Proof.
  unfold RulesetsCheck_Run. destruct (rulesetsCheck_client c); [by eexists|].
  destruct (rulesetsCheck_config c) as [cfg|]; [|done].
  case_bool_decide; [done|].
  unfold orReturn, mbind at 1, Fx_bind at 1.
  destruct (FetchReferenceRuleset _ None st) as [[[err|ruleset]|msg] st1]; done.
Qed.

Lemma FilesCheck_Run_issues c :
  gives (onSuccess (Forall (λ issue, Issue.Type_ issue = CheckTypeFiles)))
        (FilesCheck_Run c).
Proof.
  unfold FilesCheck_Run.
  repeat first
    [ apply gives_failure
    | apply gives_success; repeat constructor
    | apply (gives_orReturn (λ _, True)); [done | intros ? _]
    | apply (gives_bind (λ _, True)); [done | intros ? _]
    | goal_match ].
Qed.

Lemma FilesCheck_Run_client c st issue issues st' :
  FilesCheck_Run c st = (Returned (inr (issue :: issues)), st') →
  is_Some (filesCheck_client c).
Proof.
  unfold FilesCheck_Run. destruct (filesCheck_client c); [by eexists|].
  destruct (filesCheck_config c) as [cfg|]; [|done].
  case_bool_decide; [done|].
  unfold orReturn, mbind at 1, Fx_bind at 1.
  destruct (ResolveReferenceFile _ None st) as [[[err|content]|msg] st1]; done.
Qed.


Lemma NewOrchestrator_fixer client cfg verbose ty fixer :
  fixers (NewOrchestrator client cfg verbose) !! ty = Some fixer →
  (ty = CheckTypeSettings
   ∧ fixer = SettingsFixer_Fixer
               (NewSettingsFixer client (Config.Settings (Config.Checks cfg)) verbose))
  ∨ (ty = CheckTypeActions
     ∧ fixer = ActionsFixer_Fixer
                 (NewActionsFixer client (Config.Actions (Config.Checks cfg)) verbose))
  ∨ (ty = CheckTypeRulesets
     ∧ fixer = RulesetsFixer_Fixer
                 (NewRulesetsFixer client (Config.Rulesets (Config.Checks cfg)) verbose))
  ∨ (ty = CheckTypeFiles
     ∧ fixer = FilesFixer_Fixer
                 (NewFilesFixer client (Config.Files (Config.Checks cfg)) verbose)).
Proof.
  cbn [fixers NewOrchestrator]. intros Hlook.
  apply lookup_insert_Some in Hlook as [[<- <-]|[_ Hlook]]; [by auto|].
  apply lookup_insert_Some in Hlook as [[<- <-]|[_ Hlook]]; [by auto|].
  apply lookup_insert_Some in Hlook as [[<- <-]|[_ Hlook]]; [by auto|].
  apply lookup_insert_Some in Hlook as [[<- <-]|[_ Hlook]]; [by auto|].
  by rewrite lookup_empty in Hlook.
Qed.

(** [issue] was reported by the settings check, or by the rulesets check
    of one of the configured rulesets, or by the files check of one of the
    configured files, each built over [client] and [cfg]. *)
Definition found_by (client : option Client) (cfg : Config.Config) (issue : Issue.t)
    : Prop :=
  ∃ verbose st issues st',
    issue ∈ issues
    ∧ (SettingsCheck_Run
         (NewSettingsCheck client (Config.Settings (Config.Checks cfg)) verbose) st
       = (Returned (inr issues), st')
       ∨ (∃ rs, rs ∈ elems (Config.Rulesets (Config.Checks cfg))
                ∧ RulesetsCheck_Run (NewRulesetsCheck client (Some rs) verbose) st
                  = (Returned (inr issues), st'))
       ∨ (∃ f, f ∈ elems (Config.Files (Config.Checks cfg))
               ∧ FilesCheck_Run (NewFilesCheck client (Some f) verbose) st
                 = (Returned (inr issues), st'))).

Lemma found_by_returns client cfg verbose issue fixer :
  found_by client cfg issue →
  fixers (NewOrchestrator client cfg verbose) !! Issue.Type_ issue = Some fixer →
  FixFacts.returns (Fix fixer issue).
Proof.
  intros (v & st & issues & st' & Hin & Hfound) Hfixer.
  apply NewOrchestrator_fixer in Hfixer.
  destruct Hfound as [Hrun|[(rs & _ & Hrun)|(f & _ & Hrun)]].
  - destruct (Config.Settings (Config.Checks cfg)) as [scfg|] eqn:Hscfg.
    + destruct (SettingsCheck_Run_client (NewSettingsCheck client (Some scfg) v) scfg
                  _ _ _ eq_refl Hrun) as [c Hc].
      cbn in Hc. subst client.
      pose proof (SettingsCheck_Run_mergeConfigured
                    (NewSettingsCheck (Some c) (Some scfg) v) scfg eq_refl
                    _ _ _ Hrun _ eq_refl) as Hall.
      rewrite Forall_forall in Hall. destruct (Hall _ Hin) as [Htype Hmerge].
      rewrite Htype in Hfixer.
      destruct Hfixer as [[_ ->]|[[Hne _]|[[Hne _]|[Hne _]]]]; [|done..].
      cbn [Fix SettingsFixer_Fixer].
      by eapply FixFacts.SettingsFixer_Fix_returns.
    + unfold SettingsCheck_Run in Hrun. cbn in Hrun. injection Hrun as <- _.
      by apply elem_of_nil in Hin.
  - pose proof (RulesetsCheck_Run_issues _ _ _ _ Hrun _ eq_refl) as Hall.
    rewrite Forall_forall in Hall. pose proof (Hall _ Hin) as Htype.
    destruct issues as [|i issues]; [by apply elem_of_nil in Hin|].
    destruct (RulesetsCheck_Run_client _ _ _ _ _ Hrun) as [c Hc].
    cbn in Hc. subst client. rewrite Htype in Hfixer.
    destruct Hfixer as [[Hne _]|[[Hne _]|[[_ ->]|[Hne _]]]]; [done..| |done].
    cbn [Fix RulesetsFixer_Fixer]. by eapply FixFacts.RulesetsFixer_Fix_returns.
  - pose proof (FilesCheck_Run_issues _ _ _ _ Hrun _ eq_refl) as Hall.
    rewrite Forall_forall in Hall. pose proof (Hall _ Hin) as Htype.
    destruct issues as [|i issues]; [by apply elem_of_nil in Hin|].
    destruct (FilesCheck_Run_client _ _ _ _ _ Hrun) as [c Hc].
    cbn in Hc. subst client. rewrite Htype in Hfixer.
    destruct Hfixer as [[Hne _]|[[Hne _]|[[Hne _]|[_ ->]]]]; [done..|].
    cbn [Fix FilesFixer_Fixer]. by eapply FixFacts.FilesFixer_Fix_returns.
Qed.

(** X20: issues reported by the settings check, the rulesets checks and
    the files checks never make the fixers panic: for a batch of such
    issues, found over the client and the configuration the orchestrator is
    built with, [Orchestrator.Fix] returns in every state, with no error
    and one result per issue.  In particular a merge setting is only
    reported when the configuration has a merge section, which is what the
    settings fixer dereferences. *)
Theorem X20_issues_of_the_checks_never_abort_the_batch client cfg verbose issues st :
  Forall (found_by client cfg) issues →
  ∃ results st',
    Orchestrator_Fix (NewOrchestrator client cfg verbose) issues st
    = (Returned (results, None), st')
    ∧ length results = length issues.
Proof.
  intros Hfound.
  assert (FixFacts.returns (fixLoop (NewOrchestrator client cfg verbose) issues []))
    as Hret.
  { apply FixFacts.fixLoop_returns; [apply NewOrchestrator_fixers_carry|].
    eapply Forall_impl; [exact Hfound|]. intros issue Hissue fixer _ Hfixer.
    by eapply found_by_returns. }
  destruct (Hret st) as (results & st' & Hloop).
  assert (Orchestrator_Fix (NewOrchestrator client cfg verbose) issues st
          = (Returned (results, None), st')) as Hfix.
  { unfold Orchestrator_Fix, mbind, Fx_bind. by rewrite Hloop. }
  exists results, st'. split; [done|].
  by apply Orchestrator_Fix_contract in Hfix as (_ & Hlen & _).
Qed.


(** X21: the settings check reports a pull request creation policy that
    differs from the configured one as a fixable issue, but the settings
    fixer has no case for it: with a configuration that sets only that
    policy, the check returns exactly this issue, and every settings fixer
    answers it with the failed result "unknown setting:
    pull_request_creation_policy", without a request. *)
Theorem X21_creation_policy_issue_is_fixable_but_never_fixed
    c policy verbose st repo st1 :
  policy ≠ "" →
  GetRepository c st = (inr repo, st1) →
  Repository.PullRequestCreationPolicy repo ≠ policy →
  let cfg := Config.setPullRequestCreationPolicy policy Config.emptySettings in
  let issue := creationPolicyIssue cfg repo in
  SettingsCheck_Run (NewSettingsCheck (Some c) (Some cfg) verbose) st
  = (Returned (inr [issue]), st1)
  ∧ Issue.Fixable issue = true
  ∧ ∀ f st2,
      SettingsFixer_Fix f issue st2
      = (Returned (failedResult issue
                     (errors_New "unknown setting: pull_request_creation_policy")), st2).
Proof.
  intros Hpolicy Hget Hdiffers cfg issue. split_and!; [|done|].
  - unfold SettingsCheck_Run. cbn [settingsCheck_config settingsCheck_client
                                     NewSettingsCheck].
    unfold orReturn at 1, mbind at 1, Fx_bind at 1, callOn, mbind at 1, Fx_bind at 1.
    cbn [deref mret Fx_ret]. unfold call. rewrite Hget.
    cbn [Config.AllowActionsToApprovePRs Config.Merge Config.DefaultBranch
           Config.Dependabot Config.PullRequestCreationPolicy cfg
           Config.setPullRequestCreationPolicy Config.emptySettings].
    unfold mbind, Fx_bind, mret, Fx_ret.
    rewrite (bool_decide_eq_false_2 ("" ≠ "")) by (intros Hne; by apply Hne).
    by rewrite !bool_decide_eq_true_2 by done.
  - intros f st2. unfold SettingsFixer_Fix, issue, creationPolicyIssue, settingsIssue.
    cbn [Issue.Data]. unfold dataAt. rewrite lookup_singleton_eq. cbn [default].
    by vm_compute.
Qed.


(** ** From the files check to the files fixer *)

Lemma ResolveReferenceFile_again reference c st content st' :
  ResolveReferenceFile reference (Some c) st = (Returned (inr content), st') →
  ResolveReferenceFile reference (Some c) st' = (Returned (inr content), st').
Proof.
  unfold ResolveReferenceFile.
  destruct (os_ReadFile (fs st) reference) as [err|local] eqn:Hread.
  - destruct (os_IsNotExist err) eqn:Hne; cbn [negb]; [|done].
    case_bool_decide; [done|].
    set (o := nth 0 _ ""). set (r := nth 1 _ ""). set (p := nth 2 _ "").
    pose proof (GithubFacts.GetRemoteFileContent_fs c o r p st) as Hfs.
    destruct (GetRemoteFileContent c o r p st) as [[e1|v] st1] eqn:Hget; [done|].
    intros [= -> ->]. cbn in Hfs. rewrite Hfs, Hread, Hne. cbn [negb].
    by rewrite (GithubFacts.cached_under_repeat _ _ _ _ _ (λ _, eq_refl)
                  (GetRemoteFileContent_cached c o r p) _ _ _ Hget).
  - intros [= -> ->]. by rewrite Hread.
Qed.

Lemma WriteFile_requests client filePath content st :
  requests (WriteFile client filePath content st).2 = requests st.
Proof.
  unfold WriteFile. repeat goal_match; try done.
  all: repeat match goal with
              | |- context [let '(_, _) := ?x in _] => destruct x
              end; done.
Qed.

(** X24: the files fixer writes what the files check compared with: when
    the check over a client and a file configuration has reported an issue,
    the fixer with the same client, finding that configuration entry, does
    nothing but write to the configured file the content that the check
    resolved and hydrated; it makes no request, since the reference is
    read from the local file or from the cache. *)
Theorem X24_files_fixer_writes_what_the_check_compared
    c cfg verbose f issue st st' :
  FilesCheck_Run (NewFilesCheck (Some c) (Some cfg) verbose) st
  = (Returned (inr [issue]), st') →
  files_client f = Some c →
  List.find (λ x, bool_decide (Config.FileConfig.Name x = Config.FileConfig.Name cfg))
            (elems (files_configs f)) = Some cfg →
  Config.FileConfig.Name cfg ≠ "" →
  ∃ expected hydrated,
    ResolveReferenceFile (Config.FileConfig.Reference cfg) (Some c) st
    = (Returned (inr expected), st')
    ∧ HydrateTemplate c expected = inr hydrated
    ∧ FilesFixer_Fix f issue st' = writeFile f issue cfg hydrated st'
    ∧ requests (FilesFixer_Fix f issue st').2 = requests st'.
Proof.
  intros Hrun Hclient Hfind Hname. unfold FilesCheck_Run in Hrun.
  cbn [filesCheck_config filesCheck_client NewFilesCheck] in Hrun.
  case_bool_decide as Href; [done|].
  unfold orReturn at 1, mbind at 1, Fx_bind at 1 in Hrun.
  destruct (ResolveReferenceFile (Config.FileConfig.Reference cfg) (Some c) st)
    as [[[err|expected]|msg] st1] eqn:Hres; [done| |done].
  cbn [deref] in Hrun. unfold mbind at 1, Fx_bind at 1, mret at 1, Fx_ret at 1 in Hrun.
  unfold orReturn, mbind, Fx_bind, mret, Fx_ret, call in Hrun.
  destruct (HydrateTemplate c expected) as [err|hydrated] eqn:Hhydrate; [done|].
  assert (st' = st1 ∧ ∃ message, issue = fileIssue cfg message) as [-> [message ->]].
  { unfold GetLocalFileContent in Hrun.
    destruct (os_Getwd (fs st1)) as [err|cwd].
    - injection Hrun as <- <-. by eauto.
    - destruct (os_ReadFile (fs st1) _) as [err|actual].
      + injection Hrun as <- <-. by eauto.
      + destruct (negb _); [|done]. injection Hrun as <- <-. by eauto. }
  assert (FilesFixer_Fix f (fileIssue cfg message) st1
          = writeFile f (fileIssue cfg message) cfg hydrated st1) as Hfix.
  { unfold FilesFixer_Fix.
    assert (dataAt (Issue.Data (fileIssue cfg message)) DataKeyFileName
            = Config.FileConfig.Name cfg) as ->.
    { unfold dataAt, fileIssue. cbn [Issue.Data]. by rewrite lookup_insert_eq. }
    rewrite bool_decide_eq_false_2 by done. rewrite Hfind.
    rewrite bool_decide_eq_false_2 by done. rewrite Hclient.
    unfold mbind at 1, Fx_bind at 1.
    rewrite (ResolveReferenceFile_again _ _ _ _ _ Hres).
    cbn [deref]. unfold mbind at 1, Fx_bind at 1, mret at 1, Fx_ret at 1.
    by rewrite Hhydrate. }
  exists expected, hydrated. split_and!; [done..|].
  rewrite Hfix. unfold writeFile, mbind, Fx_bind, call.
  pose proof (WriteFile_requests (files_client f) (Config.FileConfig.Name cfg)
                hydrated st1) as Hreq.
  destruct (WriteFile (files_client f) (Config.FileConfig.Name cfg) hydrated st1)
    as [[err|] st2]; done.
Qed.


(** ** From the rulesets check to the rulesets fixer *)

Definition rulesetsKey (c : Client) : string := "rulesets:" +:+ owner c +:+ "/" +:+ repo c.
Definition rulesetKey (c : Client) (id : Z) : string :=
  "ruleset:" +:+ owner c +:+ "/" +:+ repo c +:+ "/" +:+ pretty id.

Lemma remoteFileKey_rulesetsKey o r p c :
  GithubFacts.remoteFileKey o r p ≠ rulesetsKey c.
Proof.
  clear. intros Heq. apply (f_equal (String.get 1)) in Heq. vm_compute in Heq.
  discriminate.
Qed.

Lemma remoteFileKey_rulesetKey o r p c id :
  GithubFacts.remoteFileKey o r p ≠ rulesetKey c id.
Proof.
  clear. intros Heq. apply (f_equal (String.get 1)) in Heq. vm_compute in Heq.
  discriminate.
Qed.

Lemma rulesetsKey_rulesetKey c id : rulesetsKey c ≠ rulesetKey c id.
Proof.
  clear. intros Heq. apply (f_equal (String.get 7)) in Heq. vm_compute in Heq.
  discriminate.
Qed.

(** A remote file read that leaves the state as it was came out of the
    cache. *)
Lemma GetRemoteFileContent_unchanged c o r p st content :
  GetRemoteFileContent c o r p st = (inr content, st) ↔
  cache st !! GithubFacts.remoteFileKey o r p ≫= asBytes = Some content.
Proof.
  destruct (GetRemoteFileContent_cached c o r p) as (Hhit & Hmiss & _).
  fold (GithubFacts.remoteFileKey o r p) in Hhit, Hmiss. split; [|apply Hhit].
  intros Hget.
  destruct (cache st !! GithubFacts.remoteFileKey o r p ≫= asBytes) as [b|] eqn:Hlook.
  - rewrite (Hhit _ _ Hlook) in Hget. by simplify_eq.
  - destruct (Hmiss _ _ _ Hlook Hget) as [_ (n & Hn & Hreq)].
    apply (f_equal length) in Hreq. rewrite length_app, length_replicate in Hreq. lia.
Qed.

(** [reference] resolves to [content] without any effect. *)
Definition resolved (reference : string) (c : Client) (content : string) (st : State)
    : Prop :=
  ResolveReferenceFile reference (Some c) st = (Returned (inr content), st).

Lemma resolved_frame reference c content st st2 :
  fs st2 = fs st →
  (∀ o r p b, cache st !! GithubFacts.remoteFileKey o r p ≫= asBytes = Some b →
              cache st2 !! GithubFacts.remoteFileKey o r p ≫= asBytes = Some b) →
  resolved reference c content st → resolved reference c content st2.
Proof.
  intros Hfs Hcache. unfold resolved, ResolveReferenceFile. rewrite Hfs.
  destruct (os_ReadFile (fs st) reference) as [err|local]; [|by intros [= ->]].
  destruct (negb (os_IsNotExist err)); [done|]. case_bool_decide; [done|].
  set (o := nth 0 _ ""). set (r := nth 1 _ ""). set (p := nth 2 _ "").
  destruct (GetRemoteFileContent c o r p st) as [[e1|v] st1] eqn:Hget; [done|].
  intros [= -> ->].
  apply GetRemoteFileContent_unchanged, Hcache in Hget.
  apply (GetRemoteFileContent_unchanged c) in Hget. by rewrite Hget.
Qed.

Lemma GetRulesets_fs c st : fs (GetRulesets c st).2 = fs st.
Proof.
  unfold GetRulesets. destruct (getFromCache _ st) as [[]|]; try done.
  all: match goal with
       | |- context [doWithRetry ?c ?m ?p ?b ?k ?st] =>
           pose proof (doWithRetry_frame c m p b k st) as [_ Hfs];
           destruct (doWithRetry c m p b k st) as [[?|?] ?]
       end; done.
Qed.

Lemma GetRuleset_fs c id st : fs (GetRuleset c id st).2 = fs st.
Proof.
  unfold GetRuleset. destruct (getFromCache _ st) as [[]|]; try done.
  all: match goal with
       | |- context [doWithRetry ?c ?m ?p ?b ?k ?st] =>
           pose proof (doWithRetry_frame c m p b k st) as [_ Hfs];
           destruct (doWithRetry c m p b k st) as [[?|?] ?]
       end; done.
Qed.


Lemma cached_under_step {A} key path inj proj (op : State → (error + A) * State)
    st v st' :
  (∀ v, proj (inj v) = Some v) →
  cached_under key path inj proj op →
  op st = (inr v, st') →
  cache st' !! key ≫= proj = Some v ∧ ∀ k, k ≠ key → cache st' !! k = cache st !! k.
Proof.
  intros Hproj (Hhit & Hmiss & _) Hop.
  destruct (cache st !! key ≫= proj) as [v'|] eqn:Hlook.
  - rewrite (Hhit _ _ Hlook) in Hop. by simplify_eq.
  - destruct (Hmiss _ _ _ Hlook Hop) as [-> _]. split.
    + rewrite lookup_insert_eq. cbn. apply Hproj.
    + intros k Hk. by rewrite lookup_insert_ne.
Qed.

Lemma FetchReferenceRuleset_inv reference c st expected st1 :
  FetchReferenceRuleset reference (Some c) st = (Returned (inr expected), st1) ↔
  ∃ content, ResolveReferenceFile reference (Some c) st = (Returned (inr content), st1)
             ∧ json_Unmarshal_Ruleset content = inr expected.
Proof.
  unfold FetchReferenceRuleset.
  destruct (ResolveReferenceFile reference (Some c) st) as [[[err|content]|msg] st0].
  - split; [done | by intros (? & [=] & _)].
  - split.
    + destruct (json_Unmarshal_Ruleset content) eqn:Hjson; [done|].
      intros [= -> ->]. by exists content.
    + intros (content' & [= <- <-] & ->). done.
  - split; [done | by intros (? & [=] & _)].
Qed.

(** X25: after the rulesets check has reported an issue, the rulesets
    fixer with the same client, finding that configuration entry, reads
    nothing anew: the reference ruleset and the list of rulesets come back
    as the check saw them without any effect, and the fix is exactly one
    operation, creating the ruleset when the list has none of the
    configured name (or one with id 0), and updating the first one of that
    name otherwise. *)
Theorem X25_rulesets_fixer_only_writes c cfg verbose f issue st st' :
  RulesetsCheck_Run (NewRulesetsCheck (Some c) (Some cfg) verbose) st
  = (Returned (inr [issue]), st') →
  rulesets_client f = Some c →
  List.find (λ x, bool_decide (Config.RulesetConfig.Name x
                               = Config.RulesetConfig.Name cfg))
            (elems (rulesets_configs f)) = Some cfg →
  Config.RulesetConfig.Name cfg ≠ "" →
  ∃ expected rulesets,
    FetchReferenceRuleset (Config.RulesetConfig.Reference cfg) (Some c) st'
    = (Returned (inr expected), st')
    ∧ GetRulesets c st' = (inr rulesets, st')
    ∧ RulesetsFixer_Fix f issue st'
      = match List.find (λ rs, bool_decide (Ruleset.Name rs
                                            = Config.RulesetConfig.Name cfg))
                        rulesets with
        | Some rs =>
            if bool_decide (Ruleset.ID rs = 0%Z)
            then createRuleset f issue cfg expected st'
            else updateRulesetByID f issue cfg expected (Ruleset.ID rs) st'
        | None => createRuleset f issue cfg expected st'
        end.
Proof.
  intros Hrun Hclient Hfind Hname. unfold RulesetsCheck_Run in Hrun.
  cbn [rulesetsCheck_config rulesetsCheck_client NewRulesetsCheck] in Hrun.
  case_bool_decide as Href; [done|].
  unfold orReturn at 1, mbind at 1, Fx_bind at 1 in Hrun.
  destruct (FetchReferenceRuleset (Config.RulesetConfig.Reference cfg) (Some c) st)
    as [[[err|expected]|msg] st1] eqn:Hfetch; [done| |done].
  unfold orReturn at 1, mbind at 1, Fx_bind at 1, callOn at 1, mbind at 1, Fx_bind at 1
    in Hrun.
  cbn [deref mret Fx_ret] in Hrun. unfold call at 1 in Hrun.
  destruct (GetRulesets c st1) as [[err|rulesets] st2] eqn:Hlist; [done|].
  pose proof (GetRulesets_fs c st1) as Hfs2. rewrite Hlist in Hfs2. cbn in Hfs2.
  destruct (cached_under_step _ _ _ _ _ _ _ _ (λ _, eq_refl) (GetRulesets_cached c) Hlist)
    as [Hlisted Hother2].
  fold (rulesetsKey c) in Hlisted, Hother2.
  assert (∃ message, issue = rulesetIssue cfg message
                     ∧ fs st' = fs st1
                     ∧ cache st' !! rulesetsKey c ≫= asRulesets = Some rulesets
                     ∧ ∀ o r p, cache st' !! GithubFacts.remoteFileKey o r p
                                = cache st1 !! GithubFacts.remoteFileKey o r p)
    as (message & -> & Hfs & Hlisted' & Hremote).
  { destruct (List.find _ rulesets) as [rs|].
    - unfold orReturn, mbind, Fx_bind, callOn, mbind, Fx_bind in Hrun.
      cbn [deref mret Fx_ret] in Hrun. unfold call in Hrun.
      destruct (GetRuleset c (Ruleset.ID rs) st2) as [[err|full] st3] eqn:Hfull; [done|].
      pose proof (GetRuleset_fs c (Ruleset.ID rs) st2) as Hfs3.
      rewrite Hfull in Hfs3. cbn in Hfs3.
      destruct (cached_under_step _ _ _ _ _ _ _ _ (λ _, eq_refl)
                  (GetRuleset_cached c (Ruleset.ID rs)) Hfull) as [_ Hother3].
      fold (rulesetKey c (Ruleset.ID rs)) in Hother3.
      destruct (negb _); [|done]. injection Hrun as <- <-.
      eexists. split_and!; [done|congruence| |].
      + rewrite Hother3 by apply rulesetsKey_rulesetKey. done.
      + intros o r p. rewrite Hother3 by apply remoteFileKey_rulesetKey.
        apply Hother2, remoteFileKey_rulesetsKey.
    - injection Hrun as <- <-. eexists. split_and!; [done..|].
      intros o r p. apply Hother2, remoteFileKey_rulesetsKey. }
  apply FetchReferenceRuleset_inv in Hfetch as (content & Hres & Hjson).
  apply ResolveReferenceFile_again in Hres.
  assert (resolved (Config.RulesetConfig.Reference cfg) c content st') as Hres'.
  { eapply resolved_frame; [exact Hfs | | exact Hres].
    intros o r p b. by rewrite Hremote. }
  assert (FetchReferenceRuleset (Config.RulesetConfig.Reference cfg) (Some c) st'
          = (Returned (inr expected), st')) as Hfetch'.
  { apply FetchReferenceRuleset_inv. by exists content. }
  assert (GetRulesets c st' = (inr rulesets, st')) as Hlist'.
  { by apply (GetRulesets_cached c). }
  exists expected, rulesets. split_and!; [done..|].
  unfold RulesetsFixer_Fix.
  assert (dataAt (Issue.Data (rulesetIssue cfg message)) DataKeyRulesetName
          = Config.RulesetConfig.Name cfg) as ->.
  { unfold dataAt, rulesetIssue. cbn [Issue.Data]. by rewrite lookup_insert_eq. }
  rewrite bool_decide_eq_false_2 by done. rewrite Hfind.
  rewrite bool_decide_eq_false_2 by done. rewrite Hclient.
  unfold mbind at 1, Fx_bind at 1. rewrite Hfetch'.
  unfold mbind at 1, Fx_bind at 1, callOn at 1, mbind at 1, Fx_bind at 1.
  cbn [deref mret Fx_ret]. unfold call at 1. rewrite Hlist'.
  destruct (List.find _ rulesets) as [rs|]; [by case_bool_decide|].
  by rewrite bool_decide_eq_true_2.
Qed.


(** ** The runner *)

Lemma makeSkipMap_lookup (skip : list string) (acc : gmap string bool) name :
  default false (foldl (λ skipMap s, <[s := true]> skipMap) acc skip !! name) = true
  ↔ default false (acc !! name) = true ∨ name ∈ skip.
Proof.
  clear. revert acc. induction skip as [|s skip IH]; intros acc; cbn [foldl].
  - rewrite elem_of_nil. tauto.
  - rewrite IH, elem_of_cons. destruct (decide (name = s)) as [->|Hne].
    + rewrite lookup_insert_eq. cbn. tauto.
    + rewrite lookup_insert_ne by done. tauto.
Qed.

(** A check that [Runner.Run] does not pass over: its name is not in the
    skip list (or cannot be computed). *)
Definition kept (skip : list string) (check : Check) : bool :=
  match Name check with
  | Returned name => negb (bool_decide (name ∈ skip))
  | Panicked _ => true
  end.

Definition withChecks (r : Runner) (cs : list Check) : Runner :=
  {| runner_client := runner_client r; runner_config := runner_config r;
     checks := cs; runner_verbose := runner_verbose r |}.

Lemma runLoop_skip skip cs allIssues st :
  runLoop (makeSkipMap skip) cs allIssues st
  = runLoop ∅ (List.filter (kept skip) cs) allIssues st.
Proof.
  revert allIssues st. induction cs as [|check cs IH]; intros allIssues st; [done|].
  cbn [runLoop List.filter]. unfold kept at 1.
  destruct (Name check) as [name|msg] eqn:Hname.
  - destruct (default false (makeSkipMap skip !! name)) eqn:Hskip.
    + apply makeSkipMap_lookup in Hskip as [Hskip|Hskip];
        [by rewrite lookup_empty in Hskip|].
      rewrite bool_decide_eq_true_2 by done. cbn [negb]. apply IH.
    + rewrite bool_decide_eq_false_2; cbn [negb].
      * cbn [runLoop]. rewrite Hname, lookup_empty. cbn [default].
        unfold orReturn, mbind, Fx_bind.
        destruct (Run check st) as [[[err|issues]|msg] st1]; [done| |done]. apply IH.
      * intros Hin. assert (default false (makeSkipMap skip !! name) = true) as Htrue
          by (apply makeSkipMap_lookup; by right).
        congruence.
  - cbn [runLoop]. by rewrite Hname.
Qed.

(** X22: skipping checks is the same as not having them: [Runner.Run]
    with a skip list behaves, in result and in effects, as the run without
    skip list of a runner that holds only the checks whose name is not in
    the list. *)
Theorem X22_skipping_is_leaving_out (r : Runner) (skip : list string) (st : State) :
  Runner_Run r skip st = Runner_Run (withChecks r (List.filter (kept skip) (checks r))) [] st.
Proof. unfold Runner_Run. cbn [checks withChecks makeSkipMap foldl]. apply runLoop_skip. Qed.

Lemma runLoop_app skipMap pre post allIssues st :
  runLoop skipMap (pre ++ post) allIssues st
  = match runLoop skipMap pre allIssues st with
    | (Returned (inr issues), st1) => runLoop skipMap post issues st1
    | other => other
    end.
Proof.
  revert allIssues st. induction pre as [|check pre IH]; intros allIssues st; [done|].
  cbn [app runLoop]. destruct (Name check) as [name|msg]; [|done].
  destruct (default false (skipMap !! name)); [apply IH|].
  unfold orReturn, mbind, Fx_bind.
  destruct (Run check st) as [[[err|issues]|msg] st1]; [done| |done]. apply IH.
Qed.

(** X23: [Runner.Run] stops at the first check that fails: when the checks
    before it have run without error, the error of a check that is not
    skipped is returned alone, the issues found so far are dropped, and the
    checks after it are not run (the state is the one the failing check
    left). *)
Theorem X23_Run_stops_at_the_first_error
    (r : Runner) pre check post skip st issues st1 name err st2 :
  checks r = pre ++ check :: post →
  Runner_Run (withChecks r pre) skip st = (Returned (inr issues), st1) →
  Name check = Returned name →
  name ∉ skip →
  Run check st1 = (Returned (inl err), st2) →
  Runner_Run r skip st = (Returned (inl err), st2).
Proof.
  unfold Runner_Run. cbn [checks withChecks]. intros -> Hpre Hname Hskip Hrun.
  rewrite runLoop_app, Hpre. cbn [runLoop]. rewrite Hname.
  destruct (default false (makeSkipMap skip !! name)) eqn:Hlook.
  - apply makeSkipMap_lookup in Hlook as [Hlook|Hlook]; [|done].
    by rewrite lookup_empty in Hlook.
  - unfold orReturn, mbind, Fx_bind. by rewrite Hrun.
Qed.


End Runs.

(** ** The facts on concrete inputs *)

Definition anyBranch (pattern : string) : error + (string → bool) := inr (λ _, true).

Definition strictSettings : Config.SettingsConfig :=
  {| Config.Issues := Some true; Config.Wiki := None; Config.Projects := None;
     Config.Discussions := None; Config.AllowActionsToApprovePRs := None;
     Config.PullRequestCreationPolicy := "";
     Config.Merge :=
       Some {| Config.AllowMergeCommit := Some true; Config.AllowSquashMerge := None;
               Config.AllowRebaseMerge := None; Config.AllowAutoMerge := None;
               Config.DeleteBranchOnMerge := None;
               Config.AlwaysSuggestUpdatingPullRequestBranches := None |};
     Config.DefaultBranch := ""; Config.Dependabot := None |}.

Definition strictConfig : Config.Config := Config.withSettings strictSettings.

Definition foundIssues : list Issue.t :=
  [settingsIssue "Issues is disabled but should be enabled" "issues";
   settingsIssue "Merge commits are disallowed but should be allowed" "merge_commit"].

Lemma foundIssues_found :
  @SettingsCheck_Run (scripted alwaysFine noFiles) anyBranch
    (NewSettingsCheck (Some acme) (Some strictSettings) false)
    (freshState alwaysFine noFiles)
  = (Returned (inr foundIssues),
     (@GetRepository (scripted alwaysFine noFiles) acme (freshState alwaysFine noFiles)).2).
Proof. by vm_compute. Qed.

Lemma X20_witness :
  ∃ results st',
    @Orchestrator_Fix (scripted alwaysFine noFiles)
      (@NewOrchestrator (scripted alwaysFine noFiles) (Some acme) strictConfig false)
      foundIssues (freshState alwaysFine noFiles)
    = (Returned (results, None), st')
    ∧ length results = 2.
Proof.
  apply (@X20_issues_of_the_checks_never_abort_the_batch (scripted alwaysFine noFiles)
           anyBranch id (Some acme) strictConfig false foundIssues
           (freshState alwaysFine noFiles)).
  apply Forall_forall. intros issue Hin.
  exists false, (freshState alwaysFine noFiles), foundIssues,
    (@GetRepository (scripted alwaysFine noFiles) acme (freshState alwaysFine noFiles)).2.
  split; [exact Hin|]. left. exact foundIssues_found.
Defined.

Lemma X21_witness :
  let cfg := Config.setPullRequestCreationPolicy "collaborators" Config.emptySettings in
  @SettingsCheck_Run (scripted alwaysFine noFiles) anyBranch
    (NewSettingsCheck (Some acme) (Some cfg) false) (freshState alwaysFine noFiles)
  = (Returned (inr [creationPolicyIssue cfg zeroRepository]),
     (@GetRepository (scripted alwaysFine noFiles) acme (freshState alwaysFine noFiles)).2).
Proof.
  apply (@X21_creation_policy_issue_is_fixable_but_never_fixed
           (scripted alwaysFine noFiles) anyBranch acme "collaborators" false
           (freshState alwaysFine noFiles) zeroRepository
           (@GetRepository (scripted alwaysFine noFiles) acme
              (freshState alwaysFine noFiles)).2);
    [done | reflexivity | done].
Defined.

(** Three checks with fixed answers: the second one fails. *)
Definition fixedCheck (name : string) (answer : error + list Issue.t)
  : @Check (scripted alwaysFine noFiles) :=
  {| Type_ := name; Name := Returned name;
     Run := λ st, (Returned answer, st) |}.

Definition threeChecks : @Runner (scripted alwaysFine noFiles) :=
  {| runner_client := Some acme; runner_config := Some strictConfig;
     checks := [fixedCheck "first" (inr foundIssues);
                fixedCheck "second" (inl (errors_New "boom"));
                fixedCheck "third" (inr [])];
     runner_verbose := false |}.

Lemma X23_witness :
  @Runner_Run (scripted alwaysFine noFiles) threeChecks ["third"]
    (freshState alwaysFine noFiles)
  = (Returned (inl (errors_New "boom")), freshState alwaysFine noFiles).
Proof.
  apply (@X23_Run_stops_at_the_first_error (scripted alwaysFine noFiles) threeChecks
           [fixedCheck "first" (inr foundIssues)]
           (fixedCheck "second" (inl (errors_New "boom")))
           [fixedCheck "third" (inr [])] ["third"]
           (freshState alwaysFine noFiles) foundIssues (freshState alwaysFine noFiles)
           "second" (errors_New "boom") (freshState alwaysFine noFiles));
    [reflexivity | reflexivity | reflexivity | | reflexivity].
  apply (bool_decide_unpack _). vm_compute. exact I.
Defined.


Definition licenseConfig : Config.FileConfig.t :=
  Config.FileConfig.mk "LICENSE" "acme/policies/LICENSE".

Lemma X24_witness :
  ∃ expected hydrated,
    @ResolveReferenceFile (scripted alwaysFine oneLocalFile) "acme/policies/LICENSE"
      (Some acme) (freshState alwaysFine oneLocalFile)
    = (Returned (inr expected), freshState alwaysFine oneLocalFile)
    ∧ HydrateTemplate acme expected = inr hydrated
    ∧ @FilesFixer_Fix (scripted alwaysFine oneLocalFile)
        (NewFilesFixer (Some acme) (Some [licenseConfig]) false)
        (fileIssue licenseConfig "File 'LICENSE' does not exist")
        (freshState alwaysFine oneLocalFile)
      = @writeFile (scripted alwaysFine oneLocalFile)
          (NewFilesFixer (Some acme) (Some [licenseConfig]) false)
          (fileIssue licenseConfig "File 'LICENSE' does not exist") licenseConfig hydrated
          (freshState alwaysFine oneLocalFile)
    ∧ requests (@FilesFixer_Fix (scripted alwaysFine oneLocalFile)
                  (NewFilesFixer (Some acme) (Some [licenseConfig]) false)
                  (fileIssue licenseConfig "File 'LICENSE' does not exist")
                  (freshState alwaysFine oneLocalFile)).2
      = requests (freshState alwaysFine oneLocalFile).
Proof.
  apply (@X24_files_fixer_writes_what_the_check_compared
           (scripted alwaysFine oneLocalFile) id acme licenseConfig false
           (NewFilesFixer (Some acme) (Some [licenseConfig]) false)
           (fileIssue licenseConfig "File 'LICENSE' does not exist")
           (freshState alwaysFine oneLocalFile) (freshState alwaysFine oneLocalFile));
    [by vm_compute | reflexivity | reflexivity | done].
Defined.


Definition mainRuleset : Config.RulesetConfig.t :=
  Config.RulesetConfig.mk "main" "acme/policies/LICENSE".

Lemma X25_witness :
  let E := scripted alwaysFine oneLocalFile in
  let st' := (@GetRulesets E acme (freshState alwaysFine oneLocalFile)).2 in
  let f := NewRulesetsFixer (Some acme) (Some [mainRuleset]) false in
  let issue := rulesetIssue mainRuleset "Ruleset 'main' does not exist" in
  ∃ expected rulesets,
    @FetchReferenceRuleset E "acme/policies/LICENSE" (Some acme) st'
    = (Returned (inr expected), st')
    ∧ @GetRulesets E acme st' = (inr rulesets, st')
    ∧ @RulesetsFixer_Fix E f issue st'
      = match List.find (λ rs, bool_decide (Ruleset.Name rs = "main")) rulesets with
        | Some rs =>
            if bool_decide (Ruleset.ID rs = 0%Z)
            then @createRuleset E f issue mainRuleset expected st'
            else @updateRulesetByID E f issue mainRuleset expected (Ruleset.ID rs) st'
        | None => @createRuleset E f issue mainRuleset expected st'
        end.
Proof.
  intros E st' f issue.
  apply (@X25_rulesets_fixer_only_writes E acme mainRuleset false f issue
           (freshState alwaysFine oneLocalFile) st');
    [by vm_compute | reflexivity | reflexivity | done].
Defined.


End CheckRuns.

(* ===================================================================== *)
(** * Further facts: the merge                                            *)
(* ===================================================================== *)

Module ConfigFacts.
Import Config.

(** X1: every boolean leaf of the merged document (the five feature
    toggles, the six merge settings, the two Dependabot settings and the
    three workflow requirements), the timeout and the default branch follow
    "repo wins when set", whatever the nesting and whichever documents or
    sections are absent. *)
Theorem X1_scalars_follow_repo_wins (owner repo : option Config) :
  (∀ f, getBool f (MergeConfigs owner repo) = repoWins (getBool f owner) (getBool f repo))
  ∧ getMaxTimeoutMinutes (MergeConfigs owner repo)
    = repoWins (getMaxTimeoutMinutes owner) (getMaxTimeoutMinutes repo)
  ∧ getString FDefaultBranch (MergeConfigs owner repo)
    = (if bool_decide (getString FDefaultBranch repo ≠ "")
       then getString FDefaultBranch repo
       else getString FDefaultBranch owner).
Proof.
  split_and!.
  - intros f. apply merged_bool_field.
  - apply merged_int_field.
  - apply merged_default_branch.
Qed.

(** X2: the pull request creation policy is lost exactly when both
    documents carry a settings section: then the merged policy is empty,
    whatever the two sides say; with at most one settings section the
    merged policy is that of the side that has one. *)
Theorem X2_creation_policy_survives_only_a_one_sided_merge (owner repo : option Config) :
  getString FPullRequestCreationPolicy (MergeConfigs owner repo)
  = match settingsOf owner, settingsOf repo with
    | Some _, Some _ => ""
    | Some o, None => PullRequestCreationPolicy o
    | None, Some r => PullRequestCreationPolicy r
    | None, None => ""
    end.
Proof.
  destruct owner as [[[[os|] oa orl ofl]]|], repo as [[[[rs|] ra rrl rfl]]|]; try done;
    cbn; by repeat case_match.
Qed.

End ConfigFacts.
